(** * MapCam: the camera scraper and the smart expander

    A shallow embedding of [main.py] (class [InsecamScraper]) and of
    [smart_camera_expander.py] (class [SmartCameraExpander]), and the
    properties of the discovery and expansion pipelines proved on it.

    Python values are modelled as they are at run time: strings as
    [string] (the UTF-8 bytes), integers as [Z] or [N], floats as binary64
    [float], JSON objects and [dict]s as [gmap string pyval], [set]s as
    [gset].  Exceptions are explicit in the [result] type; the random
    source and the network are inputs. *)

From Stdlib Require Import ZArith NArith Ascii Lia Floats.
From stdpp Require Import base option list strings gmap sets pretty.

(** ** Python strings *)

Module PyStr.

(** [sub in s] *)
Fixpoint contains (sub s : string) : bool :=
  String.prefix sub s ||
  match s with
  | EmptyString => false
  | String _ s' => contains sub s'
  end.

(** [s.replace(old, new)] for a non-empty [old]: the occurrences are
    replaced from the left and do not overlap.  [skip] counts the
    characters of a matched occurrence still to be dropped. *)
Fixpoint replace_go (old new : string) (skip : nat) (s : string) : string :=
  match s with
  | EmptyString => EmptyString
  | String c s' =>
      match skip with
      | S k => replace_go old new k s'
      | O =>
          if String.prefix old s
          then new +:+ replace_go old new (String.length old - 1) s'
          else String c (replace_go old new 0 s')
      end
  end.

Definition replace (old new s : string) : string := replace_go old new 0 s.

(** [s.split(sep)] for a one-character separator *)
Fixpoint split (sep : ascii) (s : string) : list string :=
  match s with
  | EmptyString => [EmptyString]
  | String c s' =>
      if Ascii.eqb c sep then EmptyString :: split sep s'
      else match split sep s' with
           | w :: ws => String c w :: ws
           | [] => [String c EmptyString]
           end
  end.

(** [sep.join(ws)] *)
Fixpoint join (sep : string) (ws : list string) : string :=
  match ws with
  | [] => EmptyString
  | [w] => w
  | w :: ws' => w +:+ sep +:+ join sep ws'
  end.

Definition is_ascii_digit (c : ascii) : bool :=
  (48 <=? nat_of_ascii c)%nat && (nat_of_ascii c <=? 57)%nat.

(** [s.isascii() and s.isdigit()] on the characters; the emptiness test
    of [isdigit] is made by the callers. *)
Fixpoint all_digits (s : string) : bool :=
  match s with
  | EmptyString => true
  | String c s' => is_ascii_digit c && all_digits s'
  end.

(** [int(s, 10)] for a string of ASCII digits *)
Fixpoint int_go (acc : N) (s : string) : N :=
  match s with
  | EmptyString => acc
  | String c s' => int_go (10 * acc + (N.of_nat (nat_of_ascii c) - 48))%N s'
  end.

Definition int_of_digits (s : string) : N := int_go 0%N s.

(** [s.lower()] on ASCII letters; a sample of Python's [str.lower],
    which agrees with it on ASCII strings. *)
Definition ascii_lower_char (c : ascii) : ascii :=
  let n := nat_of_ascii c in
  if (65 <=? n)%nat && (n <=? 90)%nat then ascii_of_nat (n + 32) else c.

Fixpoint ascii_lower (s : string) : string :=
  match s with
  | EmptyString => EmptyString
  | String c s' => String (ascii_lower_char c) (ascii_lower s')
  end.

End PyStr.

(** ** Exceptions *)

Inductive exn : Type :=
  | ValueError
  | TypeError
  | KeyError
  | AttributeError
  | ZeroDivisionError
  | RequestException.

Inductive result (A : Type) : Type :=
  | Ok (a : A)
  | Raise (e : exn).
Arguments Ok {A} a.
Arguments Raise {A} e.

(** ** Manufacturer inference ([SmartCameraExpander.detect_manufacturer]) *)

Section Manufacturer.

(** Python's [str.lower] *)
Variable lower : string -> string.

Definition detect_manufacturer (url : string) : string :=
  let url_lower := lower url in
  if PyStr.contains "axis" url_lower || PyStr.contains "mjpg/video" url_lower
  then "Axis"
  else if PyStr.contains "snapshotjpeg" url_lower
          || PyStr.contains "cgi-bin/camera" url_lower
  then "Panasonic"
  else if PyStr.contains "getoneshot" url_lower then "Canon"
  else if PyStr.contains "oneshotimage" url_lower then "Sony"
  else if PyStr.contains "cam_" url_lower && PyStr.contains ".cgi" url_lower
  then "WebcamXP"
  else if PyStr.contains "tmpfs/auto.jpg" url_lower then "FDT"
  else "Unknown".

(** [sub] occurs in [s]: [s] is some characters, then [sub], then some
    characters. *)
Definition occurs_in (sub s : string) : Prop :=
  exists before after, s = before +:+ sub +:+ after.

(** The signatures the text of the specification describes, in the order
    of their priority: a manufacturer and its alternatives, each a list
    of substrings that must all occur in the lower-cased URL. *)
Definition signatures : list (string * list (list string)) :=
  [ ("Axis", [["axis"]; ["mjpg/video"]]);
    ("Panasonic", [["snapshotjpeg"]; ["cgi-bin/camera"]]);
    ("Canon", [["getoneshot"]]);
    ("Sony", [["oneshotimage"]]);
    ("WebcamXP", [["cam_"; ".cgi"]]);
    ("FDT", [["tmpfs/auto.jpg"]]) ].

(** A row holds of [u] when all the substrings of one of its alternatives
    occur in [u]. *)
Definition row_holds (alternatives : list (list string)) (u : string) : Prop :=
  Exists (Forall (fun sub => occurs_in sub u)) alternatives.

(** The answer of a table of signatures read from the top: the
    manufacturer of the first row that holds, [Unknown] when none does. *)
Inductive chosen (u : string)
    : list (string * list (list string)) -> string -> Prop :=
  | chosen_unknown : chosen u [] "Unknown"
  | chosen_here m alternatives rows :
      row_holds alternatives u -> chosen u ((m, alternatives) :: rows) m
  | chosen_later m alternatives rows m' :
      ~ row_holds alternatives u -> chosen u rows m' ->
      chosen u ((m, alternatives) :: rows) m'.

Definition manufacturers : list string :=
  ["Axis"; "Panasonic"; "Canon"; "Sony"; "WebcamXP"; "FDT"; "Unknown"].

End Manufacturer.

(** ** Python values *)

(** The values [json.load] produces and the fields of a camera hold. *)
#[warnings="-register-all"]
Inductive pyval : Type :=
  | PNone
  | PBool (b : bool)
  | PInt (z : Z)
  | PFloat (f : float)
  | PStr (s : string)
  | PList (l : list pyval)
  | PDict (d : gmap string pyval).

(** A camera is a [dict] with string keys. *)
Abbreviation camera := (gmap string pyval).

Module Py.

(** [bool(v)] *)
Definition truthy (v : pyval) : bool :=
  match v with
  | PNone => false
  | PBool b => b
  | PInt z => negb (z =? 0)%Z
  | PFloat f => negb (PrimFloat.eqb f 0%float)
  | PStr s => negb (String.eqb s "")
  | PList l => match l with [] => false | _ => true end
  | PDict d => negb (bool_decide (d = ∅))
  end.

(** [v == s] for a string literal [s] *)
Definition eq_str (v : pyval) (s : string) : bool :=
  match v with
  | PStr t => String.eqb t s
  | _ => false
  end.

(** [d.get(k, dflt)] *)
Definition get (d : gmap string pyval) (k : string) (dflt : pyval) : pyval :=
  default dflt (d !! k).

(** [str(x)] inside an f-string, for an optional string *)
Definition str_opt (x : option string) : string :=
  match x with
  | Some s => s
  | None => "None"
  end.

End Py.

(** ** The [ipaddress] module, for IPv4

    An address is its 32-bit integer.  The strings accepted are those of
    [ipaddress.IPv4Address]: four decimal octets separated by dots, each of
    one to three ASCII digits, without a leading zero, at most 255. *)

Module IPv4.

Local Open Scope Z_scope.

Definition parse_octet (octet_str : string) : option Z :=
  if String.eqb octet_str "" then None
  else if negb (PyStr.all_digits octet_str) then None
  else if (3 <? String.length octet_str)%nat then None
  else if negb (String.eqb octet_str "0") && String.prefix "0" octet_str
  then None
  else
    let octet_int := Z.of_N (PyStr.int_of_digits octet_str) in
    if 255 <? octet_int then None else Some octet_int.

Definition ip_int_from_string (ip_str : string) : option Z :=
  if String.eqb ip_str "" then None
  else
    match PyStr.split "." ip_str with
    | [o1; o2; o3; o4] =>
        match parse_octet o1, parse_octet o2, parse_octet o3, parse_octet o4 with
        | Some a, Some b, Some c, Some d =>
            Some (a * 16777216 + b * 65536 + c * 256 + d)
        | _, _, _, _ => None
        end
    | _ => None
    end.

(** [ipaddress.IPv4Address(address)]; [None] is [AddressValueError]. *)
Definition IPv4Address (address : string) : option Z :=
  if PyStr.contains "/" address then None else ip_int_from_string address.

(** [ipaddress.IPv4Network(f"{ip}/24", strict=False).network_address]:
    the host bits are masked off. *)
Definition network_address_24 (ip : Z) : Z := Z.land ip 4294967040.

(** [str(address)] *)
Definition to_string (ip : Z) : string :=
  PyStr.join "."
    (map (fun o : Z => pretty o)
       [ip / 16777216; (ip / 65536) mod 256; (ip / 256) mod 256; ip mod 256]).

(** [network_address + k]; an address above 255.255.255.255 is refused. *)
Definition add (ip k : Z) : option Z :=
  let n := ip + k in
  if (0 <=? n) && (n <=? 4294967295) then Some n else None.

(** The /24 block of an address and its final octet *)
Definition block_24 (ip : Z) : Z := ip / 256.
Definition last_octet (ip : Z) : Z := ip mod 256.

End IPv4.

(** ** URLs *)

(** What the code reads of [urlparse(url)]: [hostname] ([None] when the URL
    has no host), [port] ([None] when absent, [ValueError] when it is not a
    number up to 65535) and [path]. *)
Record parsed_url : Type := ParseResult {
  hostname : option string;
  port : result (option Z);
  path : string
}.

(** [parsed.port or 80] *)
Definition port_or_80 (p : option Z) : Z :=
  match p with
  | Some z => if (z =? 0)%Z then 80%Z else z
  | None => 80%Z
  end.

(** [f"http://{host}:{port}{path}"] *)
Definition http_url (host : string) (port : Z) (path : string) : string :=
  "http://" +:+ host +:+ ":" +:+ pretty port +:+ path.

(** ** The random source

    [random] is a stream of raw draws; [randint lo hi] consumes one and
    maps it into [lo..hi]. *)

Definition rng : Type := nat -> N.

Definition Rand (A : Type) : Type := rng -> A * rng.

Definition rand_ret {A} (a : A) : Rand A := fun g => (a, g).

Definition rand_bind {A B} (m : Rand A) (k : A -> Rand B) : Rand B :=
  fun g => let (a, g') := m g in k a g'.

Declare Scope rand_scope.
Delimit Scope rand_scope with rand.
Notation "x <- m ;; k" := (rand_bind m (fun x => k))
  (at level 100, m at next level, right associativity) : rand_scope.

Definition randint (lo hi : Z) : Rand Z :=
  fun g => ((lo + Z.of_N (g 0%nat) mod (hi - lo + 1))%Z, fun i => g (S i)).

(** ** The candidate generator ([SmartCameraExpander]) *)

(** [list(set(urls))]: the elements of the set, in the order of the set. *)
Definition list_set (urls : list string) : list string :=
  elements (list_to_set urls : gset string).

Section Generator.

(** [urllib.parse.urlparse]; [Raise] when it refuses the string. *)
Variable urlparse : string -> result parsed_url.

Local Open Scope rand_scope.

(** [generate_path_variations(base_path)] *)
Definition generate_path_variations (base_path : string) : Rand (list string) :=
  let variations := [] in
  let variations :=
    if PyStr.contains "Resolution=" base_path
    then variations ++
         [ PyStr.replace "Resolution=640x480" "Resolution=320x240" base_path;
           PyStr.replace "Resolution=640x480" "Resolution=800x600" base_path;
           PyStr.replace "Resolution=640x480" "Resolution=1024x768" base_path ]
    else variations in
  let variations :=
    if PyStr.contains "Quality=" base_path
    then variations ++
         [ PyStr.replace "Quality=Clarity" "Quality=Standard" base_path;
           PyStr.replace "Quality=Standard" "Quality=Clarity" base_path ]
    else variations in
  let variations :=
    if PyStr.contains "resolution=" base_path
    then variations ++
         [ PyStr.replace "resolution=640" "resolution=320" base_path;
           PyStr.replace "resolution=640" "resolution=800" base_path ]
    else variations in
  let variations :=
    if PyStr.contains "cam_1" base_path
    then variations ++
         map (fun i : Z => PyStr.replace "cam_1" ("cam_" +:+ pretty i) base_path)
             [2; 3; 4; 5]%Z
    else variations in
  let variations :=
    if PyStr.contains "channel=1" base_path
    then variations ++
         map (fun i : Z =>
                PyStr.replace "channel=1" ("channel=" +:+ pretty i) base_path)
             [2; 3; 4]%Z
    else variations in
  if PyStr.contains "COUNTER" base_path
  then
    r <- randint 1000 9999;;
    rand_ret (variations ++
              [ PyStr.replace "COUNTER" (pretty r) base_path;
                PyStr.replace "COUNTER" "" base_path ])
  else rand_ret variations.

(** One round of the loop [for _ in range(variations)]: the URLs it
    appends for the draw [k]. *)
Definition address_round (network : Z) (base_ip : string) (base_port : Z)
    (base_path : string) (k : Z) : list string :=
  match IPv4.add network k with
  | None => []
  | Some a =>
      let random_ip := IPv4.to_string a in
      if String.eqb random_ip base_ip then []
      else
        http_url random_ip base_port base_path ::
        (if (base_port =? 80)%Z
         then map (fun alt_port => http_url random_ip alt_port base_path)
                  [8080; 8081; 8888]%Z
         else [])
  end.

(** The loop over the address variations, from the list [urls] *)
Fixpoint address_loop (variations : nat) (network : Z) (base_ip : string)
    (base_port : Z) (base_path : string) (urls : list string)
    : Rand (list string) :=
  match variations with
  | O => rand_ret urls
  | S n =>
      k <- randint 1 254;;
      address_loop n network base_ip base_port base_path
        (urls ++ address_round network base_ip base_port base_path k)
  end.

(** The address mutation: the [try] block around the loop.  A host that
    [IPv4Address] refuses leaves [urls] as it is. *)
Definition address_mutations (variations : nat) (base_ip : string)
    (base_port : Z) (base_path : string) : Rand (list string) :=
  match IPv4.IPv4Address base_ip with
  | None => rand_ret []
  | Some ip_obj =>
      address_loop variations (IPv4.network_address_24 ip_obj)
        base_ip base_port base_path []
  end.

(** The path mutation: same address, same port, at most ten paths *)
Definition path_mutations (base_ip : string) (base_port : Z)
    (base_path : string) : Rand (list string) :=
  if String.eqb base_path "" then rand_ret []
  else
    path_variations <- generate_path_variations base_path;;
    rand_ret (map (fun path_var => http_url base_ip base_port path_var)
                  (take 10 path_variations)).

(** [generate_similar_urls(base_camera, variations)].  An [image_url]
    that is no string is either falsy, and the function returns at once,
    or makes [urlparse] raise; the handler of the outer [try] then
    returns the list built so far, which is empty. *)
Definition generate_similar_urls (base_camera : camera) (variations : nat)
    : Rand (list string) :=
  match Py.get base_camera "image_url" (PStr "") with
  | PStr base_url =>
      if String.eqb base_url "" then rand_ret []
      else
        match urlparse base_url with
        | Raise _ => rand_ret (list_set [])
        | Ok parsed =>
            match hostname parsed with
            | None => rand_ret []
            | Some base_ip =>
                if String.eqb base_ip "" then rand_ret []
                else
                  match port parsed with
                  | Raise _ => rand_ret (list_set [])
                  | Ok p =>
                      let base_port := port_or_80 p in
                      let base_path := path parsed in
                      urls1 <- address_mutations variations base_ip
                                 base_port base_path;;
                      urls2 <- path_mutations base_ip base_port base_path;;
                      rand_ret (list_set (urls1 ++ urls2))
                  end
            end
        end
  | _ => rand_ret []
  end.

End Generator.

(** ** The network

    A GET either raises (a transport failure) or gives a response, of which
    the code reads the status, the [content-type] header and the decoded
    JSON body ([response.json()] raises on a body that is not JSON).  The
    computations keep the log of the URLs requested, in order. *)

Record response : Type := Response {
  status_code : Z;
  content_type : option string;
  json : result pyval
}.

Definition Net (A : Type) : Type := list string -> result A * list string.

Definition net_ret {A} (a : A) : Net A := fun log => (Ok a, log).

Definition net_bind {A B} (m : Net A) (k : A -> Net B) : Net B :=
  fun log =>
    match m log with
    | (Ok a, log') => k a log'
    | (Raise e, log') => (Raise e, log')
    end.

(** A value or an exception computed without the network *)
Definition net_lift {A} (r : result A) : Net A := fun log => (r, log).

(** [try: m except Exception: handler] *)
Definition net_try {A} (m : Net A) (handler : Net A) : Net A :=
  fun log =>
    match m log with
    | (Ok a, log') => (Ok a, log')
    | (Raise _, log') => handler log'
    end.

Declare Scope net_scope.
Delimit Scope net_scope with net.
Notation "x <- m ;; k" := (net_bind m (fun x => k))
  (at level 100, m at next level, right associativity) : net_scope.

Section Probe.

Variable urlparse : string -> result parsed_url.
Variable lower : string -> string.

(** [self.session.get(url, ...)] *)
Variable http_get : string -> result response.

Local Open Scope net_scope.

Definition session_get (url : string) : Net response :=
  fun log => (http_get url, log ++ [url]).

(** The answer of the first provider, read from [data] *)
Definition answer_a (data : camera) : camera :=
  {[ "lat" := Py.get data "latitude" PNone;
     "lon" := Py.get data "longitude" PNone;
     "country" := Py.get data "country_name" PNone;
     "city" := Py.get data "city" PNone;
     "region" := Py.get data "region" PNone ]}.

(** The answer of the second provider *)
Definition answer_b (data : camera) : camera :=
  {[ "lat" := Py.get data "lat" PNone;
     "lon" := Py.get data "lon" PNone;
     "country" := Py.get data "country" PNone;
     "city" := Py.get data "city" PNone;
     "region" := Py.get data "regionName" PNone ]}.

(** [data = response.json()] followed by a [data.get]: the body has to
    decode, and to an object, which alone has [get]. *)
Definition json_object (r : response) : Net camera :=
  data <- net_lift (json r);;
  match data with
  | PDict d => net_ret d
  | _ => net_lift (Raise AttributeError)
  end.

Definition url_a (ip_address : option string) : string :=
  "https://ipapi.co/" +:+ Py.str_opt ip_address +:+ "/json/".

Definition url_b (ip_address : option string) : string :=
  "http://ip-api.com/json/" +:+ Py.str_opt ip_address.

(** The body of the [try] of [get_ip_geolocation]: the value returned
    from inside it, or [None] when it runs to its end.  The two calls of
    [time.sleep] change nothing of the result. *)
Definition get_ip_geolocation_body (ip_address : option string)
    : Net (option camera) :=
  response <- session_get (url_a ip_address);;
  first <-
    (if (status_code response =? 200)%Z
     then
       data <- json_object response;;
       if negb (Py.truthy (Py.get data "error" PNone))
       then net_ret (Some (answer_a data))
       else net_ret None
     else net_ret None);;
  match first with
  | Some answer => net_ret (Some answer)
  | None =>
      response <- session_get (url_b ip_address);;
      if (status_code response =? 200)%Z
      then
        data <- json_object response;;
        if Py.eq_str (Py.get data "status" PNone) "success"
        then net_ret (Some (answer_b data))
        else net_ret None
      else net_ret None
  end.

(** [get_ip_geolocation(ip_address)]: one [try] around both providers,
    whose handler passes, and [return None] after it. *)
Definition get_ip_geolocation (ip_address : option string)
    : Net (option camera) :=
  net_try (get_ip_geolocation_body ip_address) (net_ret None).

Definition media_types : list string :=
  ["image/"; "video/"; "multipart/x-mixed-replace"].

(** The [camera_info] dictionary of [test_camera_url] *)
Definition camera_info (geo_info : camera) (manufacturer url : string)
    (ip : option string) (port : Z) : camera :=
  {[ "latitude" := Py.get geo_info "lat" (PInt 0);
     "longitude" := Py.get geo_info "lon" (PInt 0);
     "country" := Py.get geo_info "country" (PStr "Unknown");
     "city" := Py.get geo_info "city" (PStr "Unknown");
     "region" := Py.get geo_info "region" (PStr "Unknown");
     "manufacturer" := PStr manufacturer;
     "image_url" := PStr url;
     "page_url" := PStr ("http://" +:+ Py.str_opt ip +:+ ":" +:+ pretty port);
     "source" := PStr "smart_expansion";
     "ip_address" := match ip with Some s => PStr s | None => PNone end ]}.

(** [test_camera_url(url)] *)
Definition test_camera_url (url : string) : Net (option camera) :=
  net_try
    (response <- session_get url;;
     if (status_code response =? 200)%Z
     then
       let content_type := lower (default "" (content_type response)) in
       if existsb (fun media_type => PyStr.contains media_type content_type)
                  media_types
       then
         parsed <- net_lift (urlparse url);;
         let ip := hostname parsed in
         geo_info <- get_ip_geolocation ip;;
         match geo_info with
         | Some geo_info =>
             if Py.truthy (PDict geo_info)
             then
               let manufacturer := detect_manufacturer lower url in
               p <- net_lift (port parsed);;
               net_ret (Some (camera_info geo_info manufacturer url ip
                                (port_or_80 p)))
             else net_ret None
         | None => net_ret None
         end
       else net_ret None
     else net_ret None)
    (net_ret None).

End Probe.

(** ** Dictionary keys

    Grouping by country uses the field value as a dictionary key: lists and
    objects are unhashable, numbers are equal across [bool], [int] and
    [float] when they have the same value. *)

Module Key.

Local Open Scope Z_scope.

Definition hashable (v : pyval) : bool :=
  match v with
  | PList _ | PDict _ => false
  | _ => true
  end.

(** [float == int], exactly *)
Definition float_eq_int (f : float) (z : Z) : bool :=
  match Prim2SF f with
  | S754_zero _ => z =? 0
  | S754_finite s m e =>
      let v := if s then Z.neg m else Z.pos m in
      if 0 <=? e then z =? v * 2 ^ e else z * 2 ^ (- e) =? v
  | _ => false
  end.

Definition int_of_bool (b : bool) : Z := if b then 1 else 0.

(** Key equality.  Every [NaN] that [json.load] produces is one object,
    found again by identity. *)
Definition eqb (v w : pyval) : bool :=
  match v, w with
  | PNone, PNone => true
  | PStr s, PStr t => String.eqb s t
  | PBool a, PBool b => Bool.eqb a b
  | PBool a, PInt z | PInt z, PBool a => int_of_bool a =? z
  | PBool a, PFloat f | PFloat f, PBool a => float_eq_int f (int_of_bool a)
  | PInt y, PInt z => y =? z
  | PInt z, PFloat f | PFloat f, PInt z => float_eq_int f z
  | PFloat f, PFloat g =>
      PrimFloat.eqb f g || (PrimFloat.is_nan f && PrimFloat.is_nan g)
  | _, _ => false
  end.

End Key.

(** [l[:k]] *)
Definition slice_to {A} (k : Z) (l : list A) : list A :=
  if (0 <=? k)%Z then take (Z.to_nat k) l
  else take (length l - Z.to_nat (- k)) l.

(** ** The expansion run ([SmartCameraExpander.expand_camera_database]) *)

Section Expansion.

Variable urlparse : string -> result parsed_url.

Local Open Scope rand_scope.

(** [cameras_by_country[country].append(camera)], creating the entry at
    the end of the dictionary when the key is new *)
Fixpoint group_append (country : pyval) (cam : camera)
    (groups : list (pyval * list camera)) : list (pyval * list camera) :=
  match groups with
  | [] => [(country, [cam])]
  | (k, cams) :: rest =>
      if Key.eqb k country then (k, cams ++ [cam]) :: rest
      else (k, cams) :: group_append country cam rest
  end.

(** The loop that fills [cameras_by_country], over the elements of the
    list loaded from the file, which are any JSON values: [camera.get] is
    there for an object only, and the loop is in no [try]. *)
Fixpoint group_by_country (cameras : list pyval)
    (groups : list (pyval * list camera))
    : result (list (pyval * list camera)) :=
  match cameras with
  | [] => Ok groups
  | PDict cam :: rest =>
      let country := Py.get cam "country" (PStr "Unknown") in
      if Key.hashable country
      then group_by_country rest (group_append country cam groups)
      else Raise TypeError
  | _ :: _ => Raise AttributeError
  end.

(** [for camera in sample_cameras], left by [break] once there are more
    than [3 * target] URLs *)
Fixpoint sample_loop (target : Z) (sample_cameras : list camera)
    (test_urls : list string) : Rand (list string) :=
  match sample_cameras with
  | [] => rand_ret test_urls
  | cam :: rest =>
      variations <- generate_similar_urls urlparse cam 15;;
      let test_urls := test_urls ++ variations in
      if (target * 3 <? Z.of_nat (length test_urls))%Z
      then rand_ret test_urls
      else sample_loop target rest test_urls
  end.

(** [for country, country_cameras in cameras_by_country.items()] *)
Fixpoint country_loop (target : Z) (groups : list (pyval * list camera))
    (test_urls : list string) : Rand (list string) :=
  match groups with
  | [] => rand_ret test_urls
  | (_, country_cameras) :: rest =>
      test_urls <- sample_loop target (take 5 country_cameras) test_urls;;
      country_loop target rest test_urls
  end.

(** [set(camera.get('image_url', '') for camera in existing_cameras)]:
    the elements are read and hashed in order. *)
Fixpoint existing_urls (existing_cameras : list pyval)
    : result (list pyval) :=
  match existing_cameras with
  | [] => Ok []
  | PDict cam :: rest =>
      let url := Py.get cam "image_url" (PStr "") in
      if Key.hashable url
      then match existing_urls rest with
           | Ok urls => Ok (url :: urls)
           | Raise e => Raise e
           end
      else Raise TypeError
  | _ :: _ => Raise AttributeError
  end.

(** [url not in existing_urls], for a string [url] *)
Definition not_existing (existing : list pyval) (url : string) : bool :=
  negb (existsb (fun v => Py.eq_str v url) existing).

(** The URLs [expand_camera_database] submits to the pool, in the order
    of submission, from the elements of a loaded list: the part of the
    function from the grouping loop up to
    [executor.submit(self.test_camera_url, url)].  The pattern analysis
    before it is only logged, and raises nothing on a list. *)
Definition submitted_urls (existing_cameras : list pyval) (target : Z)
    : Rand (result (list string)) :=
  match group_by_country existing_cameras [] with
  | Raise e => rand_ret (Raise e)
  | Ok cameras_by_country =>
      test_urls <- country_loop target cameras_by_country [];;
      match existing_urls existing_cameras with
      | Raise e => rand_ret (Raise e)
      | Ok existing =>
          let test_urls :=
            filter (fun url => not_existing existing url = true)
                   (list_set test_urls) in
          rand_ret (Ok (slice_to (target * 2) test_urls))
      end
  end.

End Expansion.

(** The events the result loops report *)
Inductive event : Type :=
  | Progress (processed accepted : nat)
  | Checkpoint (saved : list camera)
  | Found (cam : camera)
  | TargetReached.

(** The loop of [expand_camera_database] over the completed probes, in
    completion order: the new cameras and the events logged. *)
Fixpoint expansion_loop (target : Z) (completed : list (option camera))
    (new_cameras : list camera) (tested_count : nat) (log : list event)
    : list camera * list event :=
  match completed with
  | [] => (new_cameras, log)
  | result :: rest =>
      let tested_count := S tested_count in
      let progress new_cameras :=
        if (tested_count mod 50 =? 0)%nat
        then [Progress tested_count (length new_cameras)] else [] in
      match result with
      | Some cam =>
          if Py.truthy (PDict cam)
          then
            let new_cameras := new_cameras ++ [cam] in
            let log := log ++ [Found cam] in
            if (target <=? Z.of_nat (length new_cameras))%Z
            then (new_cameras, log ++ [TargetReached])
            else expansion_loop target rest new_cameras tested_count
                   (log ++ progress new_cameras)
          else expansion_loop target rest new_cameras tested_count
                 (log ++ progress new_cameras)
      | None =>
          expansion_loop target rest new_cameras tested_count
            (log ++ progress new_cameras)
      end
  end.

Section ExpansionRun.

Variable urlparse : string -> result parsed_url.
Variable lower : string -> string.
Variable http_get : string -> result response.

(** The order in which the pool completes the probes submitted *)
Variable as_completed : list string -> list string.

Local Open Scope rand_scope.

(** What the future of a probe gives: [test_camera_url] handles every
    exception itself. *)
Definition probe_result (url : string) : option camera :=
  match (test_camera_url urlparse lower http_get url []).1 with
  | Ok found => found
  | Raise _ => None
  end.

(** [load_existing_cameras()], from what [json.load] gives for the file,
    which is any JSON value, or from the exception of opening or decoding
    it.  The log line takes the length of the value inside the [try]: a
    value without a length raises there, and every exception gives the
    empty list. *)
Definition load_existing_cameras (file : result pyval) : pyval :=
  match file with
  | Ok (PList cameras) => PList cameras
  | Ok (PStr s) => PStr s
  | Ok (PDict d) => PDict d
  | Ok _ => PList []
  | Raise _ => PList []
  end.

(** [expand_camera_database(target_new_cameras)] on an expander with
    [max_workers], from the content of the file: the new cameras it
    returns.  A loaded value that is not true returns at once.  The
    characters of a string and the keys of an object are strings, which
    have no [get]; a value that cannot be iterated is not loaded.
    [ThreadPoolExecutor] refuses a worker count that is not positive. *)
Definition expand_camera_database (file : result pyval)
    (target_new_cameras max_workers : Z) : Rand (result (list camera)) :=
  let existing_cameras := load_existing_cameras file in
  if negb (Py.truthy existing_cameras) then rand_ret (Ok [])
  else
    match existing_cameras with
    | PList cameras =>
        submitted <- submitted_urls urlparse cameras target_new_cameras;;
        match submitted with
        | Raise e => rand_ret (Raise e)
        | Ok test_urls =>
            if (max_workers <=? 0)%Z then rand_ret (Raise ValueError)
            else
              let completed := map probe_result (as_completed test_urls) in
              rand_ret
                (Ok (expansion_loop target_new_cameras completed [] 0 []).1)
        end
    | PStr _ | PDict _ => rand_ret (Raise AttributeError)
    | _ => rand_ret (Raise TypeError)
    end.

End ExpansionRun.

(** ** The scraper ([InsecamScraper]) *)

(** What [get_detail] finds for a label in the details region: no element
    with the label text, the label without the element that should follow
    it (the next link for Country, Region, City and Manufacturer, the next
    cell for the others), or that element's text, stripped. *)
Inductive detail : Type :=
  | NoLabel
  | NoValue
  | Value (text : string).

(** A fetched camera page as the extractor queries it: the details region,
    when there is one, and the image tag, when there is one, with its
    [src] attribute, when it has one. *)
Record page : Type := Page {
  details_div : option (string -> detail);
  image_tag : option (option string)
}.

Definition base_url : string := "http://www.insecam.org".

Section Scraper.

(** [float(s)] for a string; [None] is [ValueError]. *)
Variable float_of_str : string -> option float.

(** The listing page of a number: the [href] attributes of the elements
    the selector matches (an element may lack the attribute), or the
    exception of the request. *)
Variable listing : Z -> result (list (option string)).

(** The camera page of a URL, or the exception of the request *)
Variable fetch : string -> result page.

(** The order in which the pool completes the tasks submitted *)
Variable as_completed : list string -> list string.

(** [get_camera_links(page_num)]: only a [RequestException] is handled. *)
Definition get_camera_links (page_num : Z) : result (list string) :=
  match listing page_num with
  | Raise RequestException => Ok []
  | Raise e => Raise e
  | Ok camera_links =>
      fold_right
        (fun link acc =>
           match link, acc with
           | Some href, Ok links => Ok ((base_url +:+ href) :: links)
           | None, _ => Raise KeyError
           | _, Raise e => Raise e
           end)
        (Ok []) camera_links
  end.

(** [get_detail(text)] *)
Definition get_detail (details : string -> detail) (text : string) : string :=
  match details text with
  | Value t => t
  | NoValue => "N/A"
  | NoLabel => "N/A"
  end.

(** The validator: the block of [extract_camera_details] under
    ``Validate required fields''.  A string that [float] refuses raises
    [ValueError], which the block handles by falling to [return None]. *)
Definition validate (lat lon country city region manufacturer image_url
    camera_url : string) : option camera :=
  if forallb (fun v => negb (String.eqb v "N/A")) [lat; lon; country; city]
  then
    match float_of_str lat with
    | None => None
    | Some lat_float =>
        match float_of_str lon with
        | None => None
        | Some lon_float =>
            if ((-90 <=? lat_float) && (lat_float <=? 90)
                && (-180 <=? lon_float) && (lon_float <=? 180))%float
            then Some {[ "latitude" := PFloat lat_float;
                         "longitude" := PFloat lon_float;
                         "country" := PStr country;
                         "city" := PStr city;
                         "region" := PStr region;
                         "manufacturer" := PStr manufacturer;
                         "image_url" := PStr image_url;
                         "page_url" := PStr camera_url ]}
            else None
        end
    end
  else None.

(** [extract_camera_details(camera_url)]: every exception ends in
    [return None]. *)
Definition extract_camera_details (camera_url : string) : option camera :=
  match fetch camera_url with
  | Raise _ => None
  | Ok soup =>
      match details_div soup with
      | None => None
      | Some details =>
          let lat := get_detail details "Latitude:" in
          let lon := get_detail details "Longitude:" in
          let country := get_detail details "Country:" in
          let city := get_detail details "City:" in
          let region := get_detail details "Region:" in
          let manufacturer := get_detail details "Manufacturer:" in
          match image_tag soup with
          | Some None => None
          | Some (Some src) =>
              validate lat lon country city region manufacturer src camera_url
          | None =>
              validate lat lon country city region manufacturer "N/A" camera_url
          end
      end
  end.

(** The state of the result loop of [scrape_cameras] *)
Record coordinator : Type := Coordinator {
  camera_data : list camera;
  processed_count : nat;
  scraped_count : nat;
  events : list event
}.

(** One round of [for future in as_completed(future_to_url)] *)
Definition collect (st : coordinator) (result : option camera) : coordinator :=
  let processed_count := S (processed_count st) in
  match result with
  | Some cam =>
      if Py.truthy (PDict cam)
      then
        let camera_data := camera_data st ++ [cam] in
        let scraped_count := S (scraped_count st) in
        let progress :=
          if (processed_count mod 50 =? 0)%nat
          then [Progress processed_count scraped_count] else [] in
        let save :=
          if (scraped_count mod 100 =? 0)%nat
          then [Checkpoint camera_data] else [] in
        Coordinator camera_data processed_count scraped_count
          (events st ++ progress ++ save)
      else
        Coordinator (camera_data st) processed_count (scraped_count st)
          (events st)
  | None =>
      Coordinator (camera_data st) processed_count (scraped_count st)
        (events st)
  end.

(** The whole result loop, from the results in completion order *)
Definition collect_all (results : list (option camera)) : coordinator :=
  fold_left collect results (Coordinator [] 0 0 []).

(** The loop over the pages [1 .. num_pages], from page [page_num]:
    [n] pages are left. *)
Fixpoint harvest (n : nat) (page_num : Z) (all_camera_links : list string)
    : result (list string) :=
  match n with
  | O => Ok all_camera_links
  | S n' =>
      match get_camera_links page_num with
      | Raise e => Raise e
      | Ok links => harvest n' (page_num + 1)%Z (all_camera_links ++ links)
      end
  end.

(** [scrape_cameras()] on a fresh scraper with [num_pages] and
    [max_workers].  [ThreadPoolExecutor] refuses a worker count that is
    not positive, after the links are collected.  The success rate
    computed after the loop divides by the number of links. *)
Definition scrape_cameras (num_pages max_workers : Z) : result (list camera) :=
  match harvest (Z.to_nat num_pages) 1%Z [] with
  | Raise e => Raise e
  | Ok all_camera_links =>
      let all_camera_links := list_set all_camera_links in
      if (max_workers <=? 0)%Z then Raise ValueError
      else
        let st :=
          collect_all (map extract_camera_details
                           (as_completed all_camera_links)) in
        match all_camera_links with
        | [] => Raise ZeroDivisionError
        | _ => Ok (camera_data st)
        end
  end.

End Scraper.

(** ** Library functions on plain inputs

    Executable readings of [urllib.parse.urlparse] and of [float], used to
    run the program on concrete data.  [urlparse] follows the library on
    ASCII URLs without control characters; [decimal_float] reads the plain
    decimal literals of at most fifteen digits, on which dividing the
    digits by the power of ten is [float]'s correctly rounded result, and
    refuses every other string. *)

Module Urllib.

(** [s.partition(sep)]: before, whether [sep] was found, after *)
Fixpoint partition (sep : ascii) (s : string) : string * bool * string :=
  match s with
  | EmptyString => (EmptyString, false, EmptyString)
  | String c s' =>
      if Ascii.eqb c sep then (EmptyString, true, s')
      else let '(a, found, b) := partition sep s' in (String c a, found, b)
  end.

(** [s.rpartition(sep)]; everything is in the last part when [sep] is
    not found *)
Fixpoint rpartition (sep : ascii) (s : string) : string * bool * string :=
  match s with
  | EmptyString => (EmptyString, false, EmptyString)
  | String c s' =>
      let '(a, found, b) := rpartition sep s' in
      if found then (String c a, true, b)
      else if Ascii.eqb c sep then (EmptyString, true, s')
      else (EmptyString, false, String c b)
  end.

(** The longest prefix without a character of [stop], and the rest *)
Fixpoint span (stop : ascii -> bool) (s : string) : string * string :=
  match s with
  | EmptyString => (EmptyString, EmptyString)
  | String c s' =>
      if stop c then (EmptyString, s)
      else let '(a, b) := span stop s' in (String c a, b)
  end.

Fixpoint all_chars (p : ascii -> bool) (s : string) : bool :=
  match s with
  | EmptyString => true
  | String c s' => p c && all_chars p s'
  end.

Definition has_char (c : ascii) (s : string) : bool :=
  negb (all_chars (fun d => negb (Ascii.eqb c d)) s).

Definition is_alpha (c : ascii) : bool :=
  let n := nat_of_ascii c in
  ((65 <=? n) && (n <=? 90) || (97 <=? n) && (n <=? 122))%nat.

Definition is_scheme_char (c : ascii) : bool :=
  is_alpha c || PyStr.is_ascii_digit c
  || Ascii.eqb c "+" || Ascii.eqb c "-" || Ascii.eqb c ".".

Definition uses_params : list string :=
  [""; "ftp"; "hdl"; "prospero"; "http"; "imap"; "https"; "shttp"; "rtsp";
   "rtsps"; "rtspu"; "sip"; "sips"; "mms"; "sftp"; "tel"].

Definition split_scheme (url : string) : string * string :=
  let '(before, found, after) := partition ":" url in
  match before with
  | String c _ =>
      if found && is_alpha c && all_chars is_scheme_char before
      then (PyStr.ascii_lower before, after)
      else (EmptyString, url)
  | EmptyString => (EmptyString, url)
  end.

Definition split_netloc (url : string) : string * string :=
  match url with
  | String "/" (String "/" rest) =>
      span (fun c => Ascii.eqb c "/" || Ascii.eqb c "?" || Ascii.eqb c "#") rest
  | _ => (EmptyString, url)
  end.

Definition split_params (url : string) : string :=
  let '(dir, found, last) := rpartition "/" url in
  if found then dir +:+ "/" +:+ (partition ";" last).1.1
  else (partition ";" url).1.1.

Definition hostinfo (netloc : string) : string * option string :=
  let '(_, _, info) := rpartition "@" netloc in
  let '(_, have_open_br, bracketed) := partition "[" info in
  let '(host, port) :=
    if have_open_br
    then let '(host, _, rest) := partition "]" bracketed in
         (host, (partition ":" rest).2)
    else let '(host, _, port) := partition ":" info in (host, port) in
  (host, if String.eqb port "" then None else Some port).

Definition hostname_of (netloc : string) : option string :=
  let host := (hostinfo netloc).1 in
  if String.eqb host "" then None
  else let '(name, percent, zone) := partition "%" host in
       Some (PyStr.ascii_lower name +:+ (if percent then "%" else "") +:+ zone).

Definition port_of (netloc : string) : result (option Z) :=
  match (hostinfo netloc).2 with
  | None => Ok None
  | Some port =>
      if PyStr.all_digits port
      then let n := Z.of_N (PyStr.int_of_digits port) in
           if (n <=? 65535)%Z then Ok (Some n) else Raise ValueError
      else Raise ValueError
  end.

Definition urlparse (url : string) : result parsed_url :=
  let '(scheme, url) := split_scheme url in
  let '(netloc, url) := split_netloc url in
  if xorb (has_char "[" netloc) (has_char "]" netloc) then Raise ValueError
  else
    let url := (partition "#" url).1.1 in
    let url := (partition "?" url).1.1 in
    let url := if bool_decide (scheme ∈ uses_params) then split_params url
               else url in
    Ok (ParseResult (hostname_of netloc) (port_of netloc) url).

End Urllib.

Module Sample.

(** The value of the digits, and how many follow the point *)
Definition decimal_float (s : string) : option float :=
  let '(neg, body) :=
    match s with
    | String "-" rest => (true, rest)
    | _ => (false, s)
    end in
  let '(int_part, _, frac_part) := Urllib.partition "." body in
  let digits := int_part +:+ frac_part in
  if String.eqb int_part "" || negb (PyStr.all_digits digits)
     || (15 <? String.length digits)%nat
  then None
  else
    let m := PrimFloat.of_uint63
               (Uint63.of_Z (Z.of_N (PyStr.int_of_digits digits))) in
    let p := PrimFloat.of_uint63
               (Uint63.of_Z (10 ^ Z.of_nat (String.length frac_part))) in
    let v := (m / p)%float in
    Some (if neg then (- v)%float else v).

(** A stream of draws *)
Definition draws : rng := fun i => N.of_nat (7 * i).

(** Seeds: a camera with a numeric host, one with a host name *)
Definition seed_numeric : camera :=
  {[ "image_url" := PStr "http://203.0.113.5:80/cam_1.cgi";
     "country" := PStr "Japan" ]}.

Definition seed_named : camera :=
  {[ "image_url" := PStr "http://example.com/cam_1.cgi";
     "country" := PStr "Japan" ]}.

(** An existing record set: the second record is a path variation of
    the first. *)
Definition existing_pair : list pyval :=
  [ PDict seed_numeric;
    PDict {[ "image_url" := PStr "http://203.0.113.5:80/cam_2.cgi" ]} ].

(** A network on which the first geolocation provider times out and the
    second one answers *)
Definition net_a_down (url : string) : result response :=
  if String.eqb url "http://ip-api.com/json/203.0.113.9"
  then Ok (Response 200 (Some "application/json")
             (Ok (PDict {[ "status" := PStr "success";
                           "lat" := PFloat 35.6875;
                           "lon" := PFloat 139.75;
                           "country" := PStr "Japan";
                           "city" := PStr "Tokyo";
                           "regionName" := PStr "Tokyo" ]})))
  else Raise RequestException.

(** A network on which the first provider answers with an error flag *)
Definition net_a_error (url : string) : result response :=
  if String.eqb url "https://ipapi.co/203.0.113.9/json/"
  then Ok (Response 200 (Some "application/json")
             (Ok (PDict {[ "error" := PBool true;
                           "reason" := PStr "RateLimited" ]})))
  else net_a_down url.

(** A record as the scraper accepts it *)
Definition record_tokyo_at (page_url : string) : camera :=
  {[ "latitude" := PFloat 35.6875;
     "longitude" := PFloat 139.75;
     "country" := PStr "Japan";
     "city" := PStr "Tokyo";
     "region" := PStr "Tokyo";
     "manufacturer" := PStr "N/A";
     "image_url" := PStr "http://203.0.113.5:80/cam_1.cgi";
     "page_url" := PStr page_url ]}.

Definition record_tokyo : camera :=
  record_tokyo_at "http://www.insecam.org/en/view/1/".

(** Fifty completions of which the last one is rejected *)
Definition fifty_last_rejected : list (option camera) :=
  replicate 49 (Some record_tokyo) ++ [None].

(** A camera page with all the details and an image *)
Definition details_tokyo (label : string) : detail :=
  if String.eqb label "Latitude:" then Value "35.6875"
  else if String.eqb label "Longitude:" then Value "139.75"
  else if String.eqb label "Country:" then Value "Japan"
  else if String.eqb label "City:" then Value "Tokyo"
  else if String.eqb label "Region:" then Value "Tokyo"
  else NoLabel.

Definition fetch_tokyo (url : string) : result page :=
  Ok (Page (Some details_tokyo) (Some (Some "http://203.0.113.5:80/cam_1.cgi"))).


(** A listing whose first page has three links *)
Definition listing_three (page_num : Z) : result (list (option string)) :=
  if (page_num =? 1)%Z
  then Ok [Some "/en/view/1/"; Some "/en/view/2/"; Some "/en/view/3/"]
  else Raise RequestException.

(** A network on which a candidate serves an image and the first
    provider knows the country of its address, not its coordinates *)
Definition data_no_coordinates : camera :=
  {[ "ip" := PStr "203.0.113.9";
     "country_name" := PStr "Japan";
     "city" := PNone;
     "latitude" := PNone;
     "longitude" := PNone ]}.

Definition net_no_coordinates (url : string) : result response :=
  if String.eqb url "http://203.0.113.9:80/cam_1.cgi"
  then Ok (Response 200 (Some "image/jpeg") (Raise ValueError))
  else if String.eqb url "https://ipapi.co/203.0.113.9/json/"
  then Ok (Response 200 (Some "application/json")
             (Ok (PDict data_no_coordinates)))
  else Raise RequestException.

(** The record the probe builds on that network *)
Definition record_no_coordinates : camera :=
  camera_info (answer_a data_no_coordinates) "WebcamXP"
    "http://203.0.113.9:80/cam_1.cgi" (Some "203.0.113.9") 80.

(** The records of the run over [listing_three] and [fetch_tokyo] when
    the pool completes the tasks in reverse *)
Definition records_three : list camera :=
  [ record_tokyo_at "http://www.insecam.org/en/view/2/";
    record_tokyo;
    record_tokyo_at "http://www.insecam.org/en/view/3/" ].

(** A seed whose path has a resolution other than 640x480 *)
Definition seed_stale : camera :=
  {[ "image_url" := PStr "http://203.0.113.5:8000/Resolution=320x240/image.jpg" ]}.

(** A network on which every candidate serves an image and the first
    provider answers for every address *)
Definition net_open (url : string) : result response :=
  if PyStr.contains "ipapi.co" url
  then Ok (Response 200 (Some "application/json")
             (Ok (PDict data_no_coordinates)))
  else Ok (Response 200 (Some "image/jpeg") (Raise ValueError)).

(** The records of the expansion run from [existing_pair] with target 2
    on that network, when the pool completes the probes in reverse *)
Definition records_open : list camera :=
  [ camera_info (answer_a data_no_coordinates) "WebcamXP"
      "http://203.0.113.71:8080/cam_1.cgi" (Some "203.0.113.71") 8080;
    camera_info (answer_a data_no_coordinates) "WebcamXP"
      "http://203.0.113.71:8081/cam_1.cgi" (Some "203.0.113.71") 8081 ].

End Sample.

(** ** The pattern analysis ([SmartCameraExpander.analyze_camera_patterns]) *)

Module Analysis.

(** The five dictionaries of counts.  The manufacturers and the countries
    are field values, and are keys as in [Key]. *)
Record patterns : Type := Patterns {
  ip_ranges : gmap string nat;
  url_patterns : gmap string nat;
  ports : gmap Z nat;
  manufacturers : list (pyval * nat);
  countries : list (pyval * nat)
}.

Definition no_patterns : patterns := Patterns ∅ ∅ ∅ [] [].

(** [d[k] = d.get(k, 0) + 1] *)
Definition incr `{Countable K} (k : K) (d : gmap K nat) : gmap K nat :=
  <[k := S (default 0 (d !! k))]> d.

(** The same on a dictionary with values as keys: the entry of an equal
    key is updated, a new key is added at the end. *)
Fixpoint incr_key (key : pyval) (d : list (pyval * nat)) : list (pyval * nat) :=
  match d with
  | [] => [(key, 1)]
  | (k, n) :: rest =>
      if Key.eqb k key then (k, S n) :: rest else (k, n) :: incr_key key rest
  end.

Section Analyzer.

Variable urlparse : string -> result parsed_url.

(** The body of the loop for one camera: the counts after it.  An
    exception leaves the loop body by [continue]; what was counted before
    it stays counted. *)
Definition analyze_camera (p : patterns) (cam : camera) : patterns :=
  match Py.get cam "image_url" (PStr "") with
  | PStr url =>
      if String.eqb url "" then p
      else
        match urlparse url with
        | Raise _ => p
        | Ok parsed =>
            match hostname parsed with
            | None => p
            | Some ip =>
                if String.eqb ip "" then p
                else
                  let ranges :=
                    match IPv4.IPv4Address ip with
                    | Some ip_obj =>
                        incr (IPv4.to_string (IPv4.network_address_24 ip_obj))
                             (ip_ranges p)
                    | None => ip_ranges p
                    end in
                  let paths :=
                    if String.eqb (path parsed) "" then url_patterns p
                    else incr (path parsed) (url_patterns p) in
                  match port parsed with
                  | Raise _ =>
                      Patterns ranges paths (ports p) (manufacturers p)
                        (countries p)
                  | Ok port =>
                      let port_counts := incr (port_or_80 port) (ports p) in
                      let manufacturer :=
                        Py.get cam "manufacturer" (PStr "Unknown") in
                      if Key.hashable manufacturer
                      then
                        let makers := incr_key manufacturer (manufacturers p) in
                        let country := Py.get cam "country" (PStr "Unknown") in
                        if Key.hashable country
                        then Patterns ranges paths port_counts makers
                               (incr_key country (countries p))
                        else Patterns ranges paths port_counts makers
                               (countries p)
                      else Patterns ranges paths port_counts (manufacturers p)
                             (countries p)
                  end
            end
        end
  | _ => p
  end.

(** [analyze_camera_patterns(cameras)] *)
Definition analyze_camera_patterns (cameras : list camera) : patterns :=
  fold_left analyze_camera cameras no_patterns.

End Analyzer.

(** The sum of the counts of a dictionary *)
Definition total `{Countable K} (d : gmap K nat) : nat :=
  map_fold (fun _ n acc => n + acc) 0 d.

Definition total_keys (d : list (pyval * nat)) : nat :=
  foldr (fun kn acc => kn.2 + acc) 0 d.

End Analysis.

(** ** The map markers ([MapGenerator._get_marker_color]) *)

Module MapGenerator.

Definition color_map : gmap string string :=
  {[ "United States" := "red";
     "Russia" := "blue";
     "Germany" := "green";
     "Japan" := "purple";
     "United Kingdom" := "orange";
     "France" := "darkred";
     "Italy" := "lightred";
     "Spain" := "beige";
     "Canada" := "darkblue";
     "Australia" := "darkgreen" ]}.

(** [color_map.get(country, 'gray')]: a value that is no string is no key
    of the table; a list or an object cannot be looked up. *)
Definition _get_marker_color (country : pyval) : result string :=
  match country with
  | PStr s => Ok (default "gray" (color_map !! s))
  | PList _ | PDict _ => Raise TypeError
  | _ => Ok "gray"
  end.

End MapGenerator.

(** ** Notions used in the statements *)

(** The seed's media URL is a well-formed URL with a numeric IPv4 host:
    the string parses, and its host is the string of the address [ip]. *)
Definition ipv4_seed (urlparse : string -> result parsed_url) (cam : camera)
    (ip : Z) : Prop :=
  exists base_url parsed base_ip,
    cam !! "image_url" = Some (PStr base_url)
    /\ urlparse base_url = Ok parsed
    /\ hostname parsed = Some base_ip
    /\ IPv4.IPv4Address base_ip = Some ip.

(** The candidate [u] is a URL on the host address [a]. *)
Definition on_address (u : string) (a : Z) : Prop :=
  exists host port path',
    u = http_url host port path' /\ IPv4.IPv4Address host = Some a.

(** [lo <= f <= hi] on floats, as Python compares them *)
Definition between (lo hi f : float) : Prop :=
  PrimFloat.leb lo f = true /\ PrimFloat.leb f hi = true.

(** The record the validator builds *)
Definition listing_record (lat_float lon_float : float)
    (country city region manufacturer image_url camera_url : string) : camera :=
  {[ "latitude" := PFloat lat_float;
     "longitude" := PFloat lon_float;
     "country" := PStr country;
     "city" := PStr city;
     "region" := PStr region;
     "manufacturer" := PStr manufacturer;
     "image_url" := PStr image_url;
     "page_url" := PStr camera_url ]}.

(** The conditions of acceptance *)
Definition acceptable (float_of_str : string -> option float)
    (lat lon country city : string) (lat_float lon_float : float) : Prop :=
  lat <> "N/A" /\ lon <> "N/A" /\ country <> "N/A" /\ city <> "N/A"
  /\ float_of_str lat = Some lat_float
  /\ float_of_str lon = Some lon_float
  /\ between (-90) 90 lat_float
  /\ between (-180) 180 lon_float.

(** The strings and octets on which the conversions between octets and
    their decimals are checked by evaluation *)
Module Octets.

Import IPv4.
Local Open Scope Z_scope.

Definition digit_chars : list ascii :=
  ["0"; "1"; "2"; "3"; "4"; "5"; "6"; "7"; "8"; "9"]%char.

(** The strings of one to three digits *)
Definition short_digit_strings : list string :=
  (c1 ← digit_chars; [String c1 EmptyString])
  ++ (c1 ← digit_chars; c2 ← digit_chars; [String c1 (String c2 EmptyString)])
  ++ (c1 ← digit_chars; c2 ← digit_chars; c3 ← digit_chars;
      [String c1 (String c2 (String c3 EmptyString))]).

Definition octet_prints_back (s : string) : bool :=
  match parse_octet s with
  | Some n => String.eqb (pretty n) s && (0 <=? n) && (n <=? 255)
  | None => true
  end.

Definition octet_parses_back (n : Z) : bool :=
  match parse_octet (pretty n) with
  | Some m => (m =? n) && PyStr.all_digits (pretty n)
  | None => false
  end.

(** No character of [s] is [sep]. *)
Definition free_of (sep : ascii) (s : string) : bool :=
  Urllib.all_chars (fun c => negb (Ascii.eqb c sep)) s.

End Octets.

(** The fields the validator requires *)
Definition required_keys : list string :=
  ["latitude"; "longitude"; "country"; "city"].

(** The record [r] passed the validator: the validator accepts some raw
    fields with a record that has the required fields of [r]. *)
Definition passed_validator (float_of_str : string -> option float)
    (r : camera) : Prop :=
  exists lat lon country city region manufacturer image_url camera_url r0,
    validate float_of_str lat lon country city region manufacturer image_url
      camera_url = Some r0
    /\ forall k, k ∈ required_keys -> r !! k = r0 !! k.

(** The keys of a record of the scraper *)
Definition listing_keys : gset string :=
  {[ "latitude"; "longitude"; "country"; "city"; "region"; "manufacturer";
     "image_url"; "page_url" ]}.

(** The results the loops keep: the records that are true values *)
Definition accepted (results : list (option camera)) : list camera :=
  result ← results;
  match result with
  | Some cam => if Py.truthy (PDict cam) then [cam] else []
  | None => []
  end.


(** A listing page the harvester gets through: the request fails with a
    [RequestException], or every element matched has its [href]. *)
Definition page_harvestable (listing : Z -> result (list (option string)))
    (page_num : Z) : Prop :=
  listing page_num = Raise RequestException
  \/ exists hrefs, listing page_num = Ok (Some <$> hrefs).

(** The path has one of the conventions [generate_path_variations]
    expands. *)
Definition recognized (base_path : string) : bool :=
  PyStr.contains "Resolution=" base_path
  || PyStr.contains "Quality=" base_path
  || PyStr.contains "resolution=" base_path
  || PyStr.contains "cam_1" base_path
  || PyStr.contains "channel=1" base_path
  || PyStr.contains "COUNTER" base_path.

(** The ports an address variation of a seed on port 80 is tried on *)
Definition tried_ports : list Z := [80; 8080; 8081; 8888]%Z.

(** The path has a resolution or quality convention with another value
    than the one [generate_path_variations] replaces. *)
Definition stale_convention (base_path : string) : bool :=
  PyStr.contains "Resolution=" base_path
    && negb (PyStr.contains "Resolution=640x480" base_path)
  || PyStr.contains "Quality=" base_path
     && negb (PyStr.contains "Quality=Clarity" base_path
              && PyStr.contains "Quality=Standard" base_path)
  || PyStr.contains "resolution=" base_path
     && negb (PyStr.contains "resolution=640" base_path).

(** The first provider answers the address: status 200, a JSON object,
    no true [error] entry. *)
Definition a_answers (http_get : string -> result response)
    (ip_address : option string) (data : camera) : Prop :=
  exists r,
    http_get (url_a ip_address) = Ok r
    /\ status_code r = 200%Z /\ json r = Ok (PDict data)
    /\ Py.truthy (Py.get data "error" PNone) = false.

(** The first provider responds without an answer: another status, or a
    JSON object with a true [error] entry. *)
Definition a_declines (http_get : string -> result response)
    (ip_address : option string) : Prop :=
  exists r,
    http_get (url_a ip_address) = Ok r
    /\ (status_code r <> 200%Z
        \/ exists data,
             json r = Ok (PDict data)
             /\ Py.truthy (Py.get data "error" PNone) = true).

(** The second provider answers the address: status 200, a JSON object
    whose [status] is [success]. *)
Definition b_answers (http_get : string -> result response)
    (ip_address : option string) (data : camera) : Prop :=
  exists r,
    http_get (url_b ip_address) = Ok r
    /\ status_code r = 200%Z /\ json r = Ok (PDict data)
    /\ Py.eq_str (Py.get data "status" PNone) "success" = true.

(** The keys of a record of the probe *)
Definition probe_keys : gset string :=
  {[ "latitude"; "longitude"; "country"; "city"; "region"; "manufacturer";
     "image_url"; "page_url"; "source"; "ip_address" ]}.

(** The response to [url] is one the probe takes for a camera: status 200
    and a [content-type] that names a media type. *)
Definition streams (lower : string -> string)
    (http_get : string -> result response) (url : string) : bool :=
  match http_get url with
  | Ok response =>
      (status_code response =? 200)%Z
      && existsb (fun media_type =>
                    PyStr.contains media_type
                      (lower (default "" (content_type response))))
                 media_types
  | Raise _ => false
  end.

(** The /24 network address, as a string, of the host of the media URL
    of a camera *)
Definition subnet_of (urlparse : string -> result parsed_url) (cam : camera)
    (subnet : string) : Prop :=
  exists url parsed host ip,
    cam !! "image_url" = Some (PStr url)
    /\ urlparse url = Ok parsed
    /\ hostname parsed = Some host
    /\ IPv4.IPv4Address host = Some ip
    /\ subnet = IPv4.to_string (IPv4.network_address_24 ip).

(** The counts of an analysis never exceed one another in this order, nor
    the number of cameras analysed. *)
Definition counts_nested (p : Analysis.patterns) (n : nat) : Prop :=
  Analysis.total_keys (Analysis.countries p)
  <= Analysis.total_keys (Analysis.manufacturers p)
  /\ Analysis.total_keys (Analysis.manufacturers p)
     <= Analysis.total (Analysis.ports p)
  /\ Analysis.total (Analysis.ports p) <= n
  /\ Analysis.total (Analysis.ip_ranges p) <= n
  /\ Analysis.total (Analysis.url_patterns p) <= n.

(** What holds of the keys of an analysis of the cameras [seen]: a
    subnet counted is the subnet of one of them, no path counted is empty,
    no port counted is zero, and no count is zero. *)
Definition well_keyed (urlparse : string -> result parsed_url)
    (seen : list camera) (p : Analysis.patterns) : Prop :=
  (forall subnet n,
     Analysis.ip_ranges p !! subnet = Some n ->
     0 < n /\ exists cam, cam ∈ seen /\ subnet_of urlparse cam subnet)
  /\ (forall path n,
        Analysis.url_patterns p !! path = Some n -> 0 < n /\ path <> "")
  /\ (forall port n,
        Analysis.ports p !! port = Some n -> 0 < n /\ port <> 0%Z).



(** * Properties *)

(** ** The library functions on sample inputs *)

Example urlparse_ex :
  Urllib.urlparse "http://203.0.113.5:80/cam_1.cgi?Resolution=640x480"
  = Ok (ParseResult (Some "203.0.113.5") (Ok (Some 80%Z)) "/cam_1.cgi").
Proof. vm_compute. reflexivity. Qed.

Example float_ex : Sample.decimal_float "-91.5" = Some (-91.5)%float.
Proof. vm_compute. reflexivity. Qed.

Example ip_ex : IPv4.IPv4Address "203.0.113.5" = Some 3405803781%Z.
Proof. vm_compute. reflexivity. Qed.

Example ip_str_ex : IPv4.to_string 3405803781%Z = "203.0.113.5".
Proof. vm_compute. reflexivity. Qed.

Example replace_all_occurrences :
  PyStr.replace "cam_1" "cam_2" "/cam_1.cgi?x=cam_1" = "/cam_2.cgi?x=cam_2".
Proof. reflexivity. Qed.

Example detect_manufacturer_priority :
  detect_manufacturer PyStr.ascii_lower "http://203.0.113.5/axis/cam_1.CGI" = "Axis"
  /\ detect_manufacturer PyStr.ascii_lower "http://203.0.113.5/cam_1.CGI" = "WebcamXP"
  /\ detect_manufacturer PyStr.ascii_lower "http://203.0.113.5/live" = "Unknown".
Proof. repeat split; reflexivity. Qed.

Example port_zero_is_default :
  port_or_80 (Some 0%Z) = 80%Z /\ port_or_80 (Some 8080%Z) = 8080%Z.
Proof. split; reflexivity. Qed.

Example generate_numeric_seed :
  "http://203.0.113.15:8080/cam_1.cgi"
  ∈ (generate_similar_urls Urllib.urlparse Sample.seed_numeric 3 Sample.draws).1.
Proof. apply (bool_decide_unpack _). vm_compute. exact I. Qed.

(** ** Manufacturer inference *)

Lemma prefix_occurs (sub s : string) :
  String.prefix sub s = true <-> exists after, s = sub +:+ after.
Proof.
  revert s. induction sub as [|c sub IH]; intros s.
  - split; [intros _; exists s; reflexivity|].
    intros _. destruct s; reflexivity.
  - destruct s as [|d s]; cbn [String.prefix].
    + split; [discriminate|]. intros [after H]. discriminate H.
    + destruct (ascii_dec c d) as [<-|Hne].
      * rewrite IH. split; intros [after H]; exists after.
        -- rewrite H. reflexivity.
        -- change (String c s = String c (sub +:+ after)) in H.
           congruence.
      * split; [discriminate|]. intros [after H].
        change (String d s = String c (sub +:+ after)) in H. congruence.
Qed.

Lemma contains_occurs (sub s : string) :
  PyStr.contains sub s = true <-> occurs_in sub s.
Proof.
  unfold occurs_in. split.
  - induction s as [|c s IH]; cbn [PyStr.contains];
      intros [H|H]%orb_true_iff; try discriminate.
    + apply prefix_occurs in H as [after H]. exists "", after. exact H.
    + apply prefix_occurs in H as [after H]. exists "", after. exact H.
    + destruct (IH H) as (before & after & ->).
      exists (String c before), after. reflexivity.
  - intros (before & after & ->).
    induction before as [|c before IH].
    + change ("" +:+ sub +:+ after) with (sub +:+ after).
      destruct (sub +:+ after) eqn:E; cbn [PyStr.contains];
        apply orb_true_iff; left; apply prefix_occurs; exists after;
        symmetry; exact E.
    + change (String c before +:+ sub +:+ after)
        with (String c (before +:+ sub +:+ after)).
      cbn [PyStr.contains]. rewrite IH. apply orb_true_r.
Qed.

Lemma chosen_functional (u : string) rows m m' :
  chosen u rows m -> chosen u rows m' -> m = m'.
Proof.
  induction 1 as [|m alts rows Hrow|m alts rows m1 Hrow _ IH];
    inversion 1; subst; try reflexivity; try contradiction.
  apply IH. assumption.
Qed.

Lemma row_holds_one (sub u : string) :
  row_holds [[sub]] u <-> PyStr.contains sub u = true.
Proof.
  unfold row_holds. rewrite Exists_cons, Exists_nil, Forall_cons, Forall_nil.
  rewrite contains_occurs. tauto.
Qed.

Lemma row_holds_either (sub1 sub2 u : string) :
  row_holds [[sub1]; [sub2]] u
  <-> PyStr.contains sub1 u || PyStr.contains sub2 u = true.
Proof.
  unfold row_holds.
  rewrite !Exists_cons, Exists_nil, !Forall_cons, Forall_nil.
  rewrite orb_true_iff, !contains_occurs. tauto.
Qed.

Lemma row_holds_both (sub1 sub2 u : string) :
  row_holds [[sub1; sub2]] u
  <-> PyStr.contains sub1 u && PyStr.contains sub2 u = true.
Proof.
  unfold row_holds.
  rewrite Exists_cons, Exists_nil, !Forall_cons, Forall_nil.
  rewrite andb_true_iff, !contains_occurs. tauto.
Qed.

Lemma detect_manufacturer_chosen (lower : string -> string) (url : string) :
  chosen (lower url) signatures (detect_manufacturer lower url).
Proof.
  unfold detect_manufacturer, signatures.
  destruct (PyStr.contains "axis" _ || _) eqn:H1;
    [apply chosen_here, row_holds_either, H1|].
  apply chosen_later; [rewrite row_holds_either, H1; discriminate|].
  destruct (PyStr.contains "snapshotjpeg" _ || _) eqn:H2;
    [apply chosen_here, row_holds_either, H2|].
  apply chosen_later; [rewrite row_holds_either, H2; discriminate|].
  destruct (PyStr.contains "getoneshot" _) eqn:H3;
    [apply chosen_here, row_holds_one, H3|].
  apply chosen_later; [rewrite row_holds_one, H3; discriminate|].
  destruct (PyStr.contains "oneshotimage" _) eqn:H4;
    [apply chosen_here, row_holds_one, H4|].
  apply chosen_later; [rewrite row_holds_one, H4; discriminate|].
  destruct (PyStr.contains "cam_" _ && _) eqn:H5;
    [apply chosen_here, row_holds_both, H5|].
  apply chosen_later; [rewrite row_holds_both, H5; discriminate|].
  destruct (PyStr.contains "tmpfs/auto.jpg" _) eqn:H6;
    [apply chosen_here, row_holds_one, H6|].
  apply chosen_later; [rewrite row_holds_one, H6; discriminate|].
  apply chosen_unknown.
Qed.

Lemma chosen_elem (u : string) rows m :
  chosen u rows m -> m = "Unknown" \/ m ∈ rows.*1.
Proof.
  induction 1 as [|m alts rows Hrow|m alts rows m1 Hrow _ IH].
  - left. reflexivity.
  - right. left.
  - destruct IH as [IH|IH]; [left; exact IH|right; right; exact IH].
Qed.

Lemma chosen_unknown_iff (u : string) rows :
  "Unknown" ∉ rows.*1 ->
  chosen u rows "Unknown"
  <-> forall m alternatives, (m, alternatives) ∈ rows -> ~ row_holds alternatives u.
Proof.
  induction rows as [|[m alts] rows IH]; intros Hnot.
  - split; [intros _ m alts []%elem_of_nil|intros _; constructor].
  - cbn [fmap list_fmap fst] in Hnot. apply not_elem_of_cons in Hnot as [Hm Hnot].
    split.
    + inversion 1; subst; [congruence|].
      intros m0 alts0 [[= -> ->]|Hin]%elem_of_cons; [assumption|].
      eapply IH; eauto.
    + intros H. apply chosen_later; [apply (H m alts); left|].
      apply IH; [exact Hnot|]. intros m0 alts0 Hin. apply (H m0 alts0). right. exact Hin.
Qed.

(** C9.  [detect_manufacturer] is a function defined on every URL; its
    value is one of Axis, Panasonic, Canon, Sony, WebcamXP, FDT and
    Unknown; it is the one answer of the signatures read in their order
    on the lower-cased URL, the manufacturer of the first row whose
    substrings occur in it; and it is Unknown exactly when no row
    holds.  That a substring occurs is stated on the characters: the URL
    is some characters, the substring, and some characters. *)
Theorem detect_manufacturer_first_match (lower : string -> string) (url : string) :
  detect_manufacturer lower url ∈ manufacturers
  /\ (forall m, detect_manufacturer lower url = m
                <-> chosen (lower url) signatures m)
  /\ (detect_manufacturer lower url = "Unknown"
      <-> forall m alternatives,
            (m, alternatives) ∈ signatures ->
            ~ row_holds alternatives (lower url)).
Proof.
  pose proof (detect_manufacturer_chosen lower url) as Hc.
  assert (Hiff : forall m, detect_manufacturer lower url = m
                           <-> chosen (lower url) signatures m).
  { intros m. split; [intros <-; exact Hc|].
    intros Hm. exact (chosen_functional _ _ _ _ Hc Hm). }
  split; [|split; [exact Hiff|]].
  - apply chosen_elem in Hc as [-> |Hc].
    + apply (bool_decide_unpack _). vm_compute. exact I.
    + unfold manufacturers. cbn in Hc.
      rewrite !elem_of_cons in Hc |- *. rewrite elem_of_nil in Hc. tauto.
  - rewrite Hiff. apply chosen_unknown_iff.
    apply (bool_decide_unpack _). vm_compute. exact I.
Qed.

Lemma detect_manufacturer_first_match_witness :
  chosen (PyStr.ascii_lower "http://203.0.113.5/cam_1.CGI") signatures "WebcamXP"
  /\ ~ row_holds [["axis"]; ["mjpg/video"]]
         (PyStr.ascii_lower "http://203.0.113.5/cam_1.CGI").
Proof.
  destruct (detect_manufacturer_first_match PyStr.ascii_lower
              "http://203.0.113.5/cam_1.CGI") as (_ & Hiff & _).
  assert (Hc : chosen (PyStr.ascii_lower "http://203.0.113.5/cam_1.CGI") signatures
                 "WebcamXP") by (apply Hiff; reflexivity).
  split; [exact Hc|].
  inversion Hc; subst. assumption.
Defined.

(** ** The validator *)

Section ValidatorFacts.

Variable float_of_str : string -> option float.

Lemma validate_Some lat lon country city region manufacturer image_url
    camera_url r :
  validate float_of_str lat lon country city region manufacturer image_url
    camera_url = Some r
  <-> exists lat_float lon_float,
        acceptable float_of_str lat lon country city lat_float lon_float
        /\ r = listing_record lat_float lon_float country city region
                 manufacturer image_url camera_url.
Proof.
  unfold validate, acceptable, between, listing_record. cbn [forallb].
  rewrite !andb_true_r.
  destruct (String.eqb_spec lat "N/A") as [->|Hlat]; cbn [negb andb].
  { split; [discriminate|]. intros (? & ? & (H & _) & _). congruence. }
  destruct (String.eqb_spec lon "N/A") as [->|Hlon]; cbn [negb andb].
  { split; [discriminate|]. intros (? & ? & (_ & H & _) & _). congruence. }
  destruct (String.eqb_spec country "N/A") as [->|Hco]; cbn [negb andb].
  { split; [discriminate|]. intros (? & ? & (_ & _ & H & _) & _). congruence. }
  destruct (String.eqb_spec city "N/A") as [->|Hci]; cbn [negb andb].
  { split; [discriminate|].
    intros (? & ? & (_ & _ & _ & H & _) & _). congruence. }
  destruct (float_of_str lat) as [la|].
  2:{ split; [discriminate|].
      intros (? & ? & (_ & _ & _ & _ & H & _) & _). discriminate. }
  destruct (float_of_str lon) as [lo|].
  2:{ split; [discriminate|].
      intros (? & ? & (_ & _ & _ & _ & _ & H & _) & _). discriminate. }
  destruct (PrimFloat.leb (-90) la) eqn:H1; cbn [andb].
  2:{ split; [discriminate|].
      intros (? & ? & (_ & _ & _ & _ & [= <-] & _ & [H _] & _) & _).
      congruence. }
  destruct (PrimFloat.leb la 90) eqn:H2; cbn [andb].
  2:{ split; [discriminate|].
      intros (? & ? & (_ & _ & _ & _ & [= <-] & _ & [_ H] & _) & _).
      congruence. }
  destruct (PrimFloat.leb (-180) lo) eqn:H3; cbn [andb].
  2:{ split; [discriminate|].
      intros (? & ? & (_ & _ & _ & _ & _ & [= <-] & _ & [H _]) & _).
      congruence. }
  destruct (PrimFloat.leb lo 180) eqn:H4; cbn [andb].
  2:{ split; [discriminate|].
      intros (? & ? & (_ & _ & _ & _ & _ & [= <-] & _ & [_ H]) & _).
      congruence. }
  split.
  - intros [= <-]. exists la, lo. repeat split; auto.
  - intros (? & ? & (_ & _ & _ & _ & [= <-] & [= <-] & _) & ->).
    reflexivity.
Qed.

End ValidatorFacts.

(** C4.  The validator returns a record exactly when latitude, longitude,
    country and city are all different from the sentinel, latitude and
    longitude are strings [float] reads, the latitude read is between -90
    and 90 and the longitude read between -180 and 180; the record holds
    the two floats and the other fields as given.  In every other case it
    returns [None]: there is no third outcome. *)
Theorem validate_accepts_exactly (float_of_str : string -> option float)
    (lat lon country city region manufacturer image_url camera_url : string) :
  (forall r,
     validate float_of_str lat lon country city region manufacturer image_url
       camera_url = Some r
     <-> exists lat_float lon_float,
           acceptable float_of_str lat lon country city lat_float lon_float
           /\ r = listing_record lat_float lon_float country city region
                    manufacturer image_url camera_url)
  /\ (validate float_of_str lat lon country city region manufacturer image_url
        camera_url = None
      <-> ~ exists lat_float lon_float,
              acceptable float_of_str lat lon country city lat_float lon_float).
Proof.
  split; [intros r; apply validate_Some|].
  destruct (validate float_of_str lat lon country city region manufacturer
              image_url camera_url) as [r|] eqn:Hv.
  - apply validate_Some in Hv as (la & lo & Hacc & _).
    split; [discriminate|]. intros Hn. exfalso. apply Hn. eauto.
  - split; [|reflexivity]. intros _ (la & lo & Hacc).
    assert (Hs : validate float_of_str lat lon country city region
                   manufacturer image_url camera_url
                 = Some (listing_record la lo country city region
                           manufacturer image_url camera_url)).
    { apply validate_Some. eauto. }
    congruence.
Qed.

(** ** Addresses and their strings *)

Module IPv4Facts.

Import IPv4 Octets.
Local Open Scope Z_scope.


Lemma is_ascii_digit_chars c :
  PyStr.is_ascii_digit c = true -> c ∈ digit_chars.
Proof.
  intros H. unfold digit_chars.
  destruct c as [[] [] [] [] [] [] [] []]; try discriminate H;
    rewrite !elem_of_cons; tauto.
Qed.

Lemma short_digit_strings_complete s :
  s <> EmptyString -> PyStr.all_digits s = true ->
  (String.length s <= 3)%nat -> s ∈ short_digit_strings.
Proof.
  intros Hne Hd Hlen. unfold short_digit_strings.
  destruct s as [|c1 s]; [congruence|].
  simpl in Hd. apply andb_true_iff in Hd as [H1 Hd].
  apply is_ascii_digit_chars in H1.
  destruct s as [|c2 s].
  { apply elem_of_app. left. apply list_elem_of_bind.
    exists c1. split; [left|exact H1]. }
  simpl in Hd. apply andb_true_iff in Hd as [H2 Hd].
  apply is_ascii_digit_chars in H2.
  apply elem_of_app. right.
  destruct s as [|c3 s].
  { apply elem_of_app. left. apply list_elem_of_bind.
    exists c1. split; [|exact H1]. apply list_elem_of_bind.
    exists c2. split; [left|exact H2]. }
  simpl in Hd. apply andb_true_iff in Hd as [H3 Hd].
  apply is_ascii_digit_chars in H3.
  destruct s as [|c4 s]; [|simpl in Hlen; lia].
  apply elem_of_app. right. apply list_elem_of_bind.
  exists c1. split; [|exact H1]. apply list_elem_of_bind.
  exists c2. split; [|exact H2]. apply list_elem_of_bind.
  exists c3. split; [left|exact H3].
Qed.

Lemma short_digit_strings_print_back :
  forallb octet_prints_back short_digit_strings = true.
Proof. vm_compute. reflexivity. Qed.

Lemma octets_parse_back :
  forallb octet_parses_back (seqZ 0 256) = true.
Proof. vm_compute. reflexivity. Qed.

(** An octet string that is accepted is the decimal of its value. *)
Lemma parse_octet_pretty s n :
  parse_octet s = Some n -> pretty n = s /\ 0 <= n <= 255.
Proof.
  intros Hp.
  assert (Hin : s ∈ short_digit_strings).
  { unfold parse_octet in Hp.
    destruct (String.eqb_spec s "") as [|Hne]; [discriminate|].
    destruct (PyStr.all_digits s) eqn:Hd; [|discriminate]. simpl in Hp.
    destruct (Nat.ltb_spec 3 (String.length s)); [discriminate|].
    apply short_digit_strings_complete; auto. }
  pose proof short_digit_strings_print_back as Hall.
  rewrite forallb_forall in Hall.
  apply list_elem_of_In in Hin. apply Hall in Hin.
  unfold octet_prints_back in Hin. rewrite Hp in Hin.
  apply andb_true_iff in Hin as [Hin H2].
  apply andb_true_iff in Hin as [Hin H1].
  apply String.eqb_eq in Hin. split; [exact Hin | lia].
Qed.

(** The decimal of an octet is accepted, with the octet as its value. *)
Lemma pretty_parse_octet n :
  0 <= n <= 255 ->
  parse_octet (pretty n) = Some n /\ PyStr.all_digits (pretty n) = true.
Proof.
  intros Hn.
  pose proof octets_parse_back as Hall.
  rewrite forallb_forall in Hall.
  assert (Hin : n ∈ seqZ 0 256) by (apply elem_of_seqZ; lia).
  apply list_elem_of_In in Hin. apply Hall in Hin.
  unfold octet_parses_back in Hin.
  destruct (parse_octet (pretty n)) as [m|]; [|discriminate].
  apply andb_true_iff in Hin as [Hm Hd].
  apply Z.eqb_eq in Hm. subst. auto.
Qed.

(** Splitting and joining at a separator *)

Lemma split_nonempty sep s : PyStr.split sep s <> [].
Proof.
  destruct s as [|c s]; simpl; [discriminate|].
  destruct (Ascii.eqb c sep); [discriminate|].
  destruct (PyStr.split sep s); discriminate.
Qed.

Lemma join_cons sep w w' ws :
  PyStr.join sep (w :: w' :: ws) = w +:+ sep +:+ PyStr.join sep (w' :: ws).
Proof. reflexivity. Qed.

Lemma join_split sep s :
  PyStr.join (String sep EmptyString) (PyStr.split sep s) = s.
Proof.
  induction s as [|c s IH]; [reflexivity|].
  simpl PyStr.split. pose proof (split_nonempty sep s) as Hne.
  destruct (Ascii.eqb_spec c sep) as [->|Hc].
  - destruct (PyStr.split sep s) as [|w ws]; [congruence|].
    rewrite join_cons, IH. reflexivity.
  - destruct (PyStr.split sep s) as [|w ws]; [congruence|].
    destruct ws as [|w' ws].
    + simpl in IH. subst. reflexivity.
    + rewrite join_cons. rewrite join_cons in IH. rewrite <- IH.
      reflexivity.
Qed.


Lemma split_free sep w : free_of sep w = true -> PyStr.split sep w = [w].
Proof.
  induction w as [|c w IH]; [reflexivity|]. unfold free_of. simpl.
  intros [Hc Hw]%andb_true_iff. apply negb_true_iff in Hc. rewrite Hc.
  rewrite IH by exact Hw. reflexivity.
Qed.

Lemma split_app sep w rest :
  free_of sep w = true ->
  PyStr.split sep (w +:+ String sep rest) = w :: PyStr.split sep rest.
Proof.
  induction w as [|c w IH]; unfold free_of; simpl.
  - intros _. change (EmptyString +:+ String sep rest) with (String sep rest).
    simpl. rewrite Ascii.eqb_refl. reflexivity.
  - intros [Hc Hw]%andb_true_iff. apply negb_true_iff in Hc.
    change (String c w +:+ String sep rest)
      with (String c (w +:+ String sep rest)).
    simpl. rewrite Hc, IH by exact Hw. reflexivity.
Qed.

Lemma digits_free sep s :
  PyStr.is_ascii_digit sep = false ->
  PyStr.all_digits s = true -> free_of sep s = true.
Proof.
  intros Hsep. induction s as [|c s IH]; [reflexivity|].
  unfold free_of. simpl. intros [Hc Hs]%andb_true_iff.
  apply andb_true_iff. split; [|apply IH, Hs].
  apply negb_true_iff. destruct (Ascii.eqb_spec c sep); [congruence|done].
Qed.

Lemma free_of_app sep s t :
  free_of sep (s +:+ t) = free_of sep s && free_of sep t.
Proof.
  unfold free_of. induction s as [|c s IH]; [reflexivity|].
  change (String c s +:+ t) with (String c (s +:+ t)). simpl.
  rewrite IH. apply andb_assoc.
Qed.

Lemma free_not_contains c s :
  free_of c s = true -> PyStr.contains (String c EmptyString) s = false.
Proof.
  unfold free_of. induction s as [|d s IH]; [reflexivity|].
  simpl. intros [Hd Hs]%andb_true_iff. rewrite IH by exact Hs.
  apply negb_true_iff in Hd.
  destruct (ascii_dec c d) as [->|]; [|reflexivity].
  rewrite Ascii.eqb_refl in Hd. discriminate.
Qed.

Lemma to_string_eq a :
  to_string a
  = pretty (a / 16777216) +:+ "." +:+ pretty ((a / 65536) mod 256) +:+ "."
    +:+ pretty ((a / 256) mod 256) +:+ "." +:+ pretty (a mod 256).
Proof. reflexivity. Qed.

Lemma octets_combine a b c d :
  0 <= a <= 255 -> 0 <= b <= 255 -> 0 <= c <= 255 -> 0 <= d <= 255 ->
  let ip := a * 16777216 + b * 65536 + c * 256 + d in
  ip / 16777216 = a /\ (ip / 65536) mod 256 = b
  /\ (ip / 256) mod 256 = c /\ ip mod 256 = d
  /\ 0 <= ip <= 4294967295.
Proof.
  intros Ha Hb Hc Hd ip. subst ip.
  repeat split; try lia; Z.div_mod_to_equations; lia.
Qed.

Lemma octets_split ip :
  0 <= ip <= 4294967295 ->
  0 <= ip / 16777216 <= 255 /\ 0 <= (ip / 65536) mod 256 <= 255
  /\ 0 <= (ip / 256) mod 256 <= 255 /\ 0 <= ip mod 256 <= 255
  /\ ip = ip / 16777216 * 16777216 + (ip / 65536) mod 256 * 65536
           + (ip / 256) mod 256 * 256 + ip mod 256.
Proof. intros H. repeat split; Z.div_mod_to_equations; lia. Qed.

(** An accepted string is the string of its address. *)
Lemma to_string_IPv4Address s ip :
  IPv4Address s = Some ip -> to_string ip = s /\ 0 <= ip <= 4294967295.
Proof.
  unfold IPv4Address, ip_int_from_string.
  destruct (PyStr.contains "/" s); [discriminate|].
  destruct (String.eqb s ""); [discriminate|].
  pose proof (join_split "." s) as Hjoin.
  destruct (PyStr.split "." s) as [|o1 [|o2 [|o3 [|o4 [|o5 os]]]]];
    try discriminate.
  destruct (parse_octet o1) as [a|] eqn:H1; [|discriminate].
  destruct (parse_octet o2) as [b|] eqn:H2; [|discriminate].
  destruct (parse_octet o3) as [c|] eqn:H3; [|discriminate].
  destruct (parse_octet o4) as [d|] eqn:H4; [|discriminate].
  intros [= <-].
  apply parse_octet_pretty in H1 as [<- Ha], H2 as [<- Hb],
    H3 as [<- Hc], H4 as [<- Hd].
  destruct (octets_combine a b c d Ha Hb Hc Hd) as (E1 & E2 & E3 & E4 & Hr).
  split; [|exact Hr].
  rewrite to_string_eq, E1, E2, E3, E4. rewrite <- Hjoin. reflexivity.
Qed.

(** The string of an address is accepted, as that address. *)
Lemma IPv4Address_to_string ip :
  0 <= ip <= 4294967295 -> IPv4Address (to_string ip) = Some ip.
Proof.
  intros Hip.
  destruct (octets_split ip Hip) as (Ha & Hb & Hc & Hd & Heq).
  rewrite to_string_eq.
  set (a := ip / 16777216) in *. set (b := (ip / 65536) mod 256) in *.
  set (c := (ip / 256) mod 256) in *. set (d := ip mod 256) in *.
  destruct (pretty_parse_octet a Ha) as [Pa Da].
  destruct (pretty_parse_octet b Hb) as [Pb Db].
  destruct (pretty_parse_octet c Hc) as [Pc Dc].
  destruct (pretty_parse_octet d Hd) as [Pd Dd].
  unfold IPv4Address, ip_int_from_string.
  rewrite free_not_contains.
  2:{ rewrite !free_of_app.
      rewrite (digits_free "/" _ eq_refl Da), (digits_free "/" _ eq_refl Db),
        (digits_free "/" _ eq_refl Dc), (digits_free "/" _ eq_refl Dd).
      reflexivity. }
  assert (Hdot : forall x, "." +:+ x = String "." x) by reflexivity.
  rewrite !Hdot.
  rewrite (split_app "." (pretty a)) by (apply digits_free; auto).
  rewrite (split_app "." (pretty b)) by (apply digits_free; auto).
  rewrite (split_app "." (pretty c)) by (apply digits_free; auto).
  rewrite (split_free "." (pretty d)) by (apply digits_free; auto).
  rewrite Pa, Pb, Pc, Pd.
  match goal with
  | |- context [String.eqb ?x ""] => destruct (String.eqb_spec x "") as [He|_]
  end.
  - apply (f_equal (free_of ".")) in He.
    rewrite free_of_app in He. simpl in He.
    rewrite andb_false_r in He. discriminate.
  - congruence.
Qed.

End IPv4Facts.

(** ** The candidate generator *)

Lemma elem_of_list_set (u : string) (urls : list string) :
  u ∈ list_set urls <-> u ∈ urls.
Proof.
  unfold list_set. rewrite elem_of_elements, elem_of_list_to_set. reflexivity.
Qed.

Lemma list_set_nil : list_set [] = [].
Proof. reflexivity. Qed.

Lemma NoDup_list_set (urls : list string) : NoDup (list_set urls).
Proof. unfold list_set. apply NoDup_elements. Qed.

Lemma randint_range (lo hi : Z) (g : rng) :
  (lo <= hi)%Z -> (lo <= (randint lo hi g).1 <= hi)%Z.
Proof.
  intros H. unfold randint. simpl.
  pose proof (Z.mod_pos_bound (Z.of_N (g 0%nat)) (hi - lo + 1)). lia.
Qed.

Lemma network_address_24_eq (ip : Z) :
  (0 <= ip <= 4294967295)%Z ->
  IPv4.network_address_24 ip = (ip / 256 * 256)%Z.
Proof.
  intros Hip. unfold IPv4.network_address_24.
  change 4294967040%Z with (Z.shiftl (Z.ones 24) 8).
  transitivity (Z.shiftl (Z.shiftr ip 8) 8).
  - apply Z.bits_inj'. intros i Hi.
    rewrite Z.land_spec.
    destruct (Z.lt_ge_cases i 8) as [Hlt|Hge].
    + rewrite !Z.shiftl_spec_low by lia. apply andb_false_r.
    + rewrite !Z.shiftl_spec by lia.
      rewrite Z.shiftr_spec by lia.
      replace (i - 8 + 8)%Z with i by lia.
      destruct (Z.lt_ge_cases (i - 8) 24) as [Hlo|Hhi].
      * rewrite Z.ones_spec_low by lia. apply andb_true_r.
      * rewrite Z.ones_spec_high by lia. rewrite andb_false_r.
        symmetry. destruct (Z.eq_dec ip 0%Z) as [->|Hne]; [apply Z.bits_0|].
        apply Z.bits_above_log2; [lia|].
        assert (Z.log2 ip < 32)%Z; [|lia].
        apply Z.log2_lt_pow2; [lia|].
        change (2 ^ 32)%Z with 4294967296%Z. lia.
  - rewrite Z.shiftr_div_pow2, Z.shiftl_mul_pow2 by lia. reflexivity.
Qed.

(** What a round of the address loop appends, for a seed address [ip] and
    a draw [k] between 1 and 254 *)
Lemma address_round_elem (ip : Z) (base_ip : string) (base_port : Z)
    (base_path : string) (k : Z) (u : string) :
  IPv4.IPv4Address base_ip = Some ip -> (1 <= k <= 254)%Z ->
  u ∈ address_round (IPv4.network_address_24 ip) base_ip base_port base_path k ->
  exists a port,
    u = http_url (IPv4.to_string a) port base_path
    /\ IPv4.IPv4Address (IPv4.to_string a) = Some a
    /\ IPv4.block_24 a = IPv4.block_24 ip
    /\ IPv4.last_octet a = k
    /\ a <> ip
    /\ IPv4.to_string a <> base_ip
    /\ (port = base_port \/ base_port = 80%Z /\ port ∈ [8080; 8081; 8888]%Z).
Proof.
  intros Hparse Hk.
  apply IPv4Facts.to_string_IPv4Address in Hparse as [Hstr Hip].
  rewrite network_address_24_eq by exact Hip.
  unfold address_round, IPv4.add.
  set (a := (ip / 256 * 256 + k)%Z).
  assert (Ha : (0 <= a <= 4294967295)%Z)
    by (subst a; Z.div_mod_to_equations; lia).
  destruct (Z.leb_spec 0 a); [|lia].
  destruct (Z.leb_spec a 4294967295); [|lia]. cbn [andb].
  destruct (String.eqb_spec (IPv4.to_string a) base_ip) as [|Hne];
    [intros []%elem_of_nil|].
  intros Hu.
  assert (Hfacts : IPv4.IPv4Address (IPv4.to_string a) = Some a
                   /\ IPv4.block_24 a = IPv4.block_24 ip
                   /\ IPv4.last_octet a = k /\ a <> ip
                   /\ IPv4.to_string a <> base_ip).
  { split; [apply IPv4Facts.IPv4Address_to_string, Ha|].
    unfold IPv4.block_24, IPv4.last_octet.
    repeat split; try (subst a; Z.div_mod_to_equations; lia); [|exact Hne].
    intros ->. congruence. }
  destruct Hfacts as (F1 & F2 & F3 & F4 & F5).
  apply elem_of_cons in Hu as [->|Hu].
  { exists a, base_port. repeat split; auto. }
  destruct (Z.eqb_spec base_port 80) as [->|]; [|apply elem_of_nil in Hu as []].
  apply list_elem_of_fmap in Hu as (alt & -> & Halt).
  exists a, alt. repeat split; auto.
Qed.

Lemma address_loop_elem (variations : nat) (network : Z) (base_ip : string)
    (base_port : Z) (base_path : string) (urls : list string) (g : rng)
    (u : string) :
  u ∈ (address_loop variations network base_ip base_port base_path urls g).1 ->
  u ∈ urls
  \/ exists k, (1 <= k <= 254)%Z
              /\ u ∈ address_round network base_ip base_port base_path k.
Proof.
  revert urls g. induction variations as [|n IH]; intros urls g; simpl.
  - auto.
  - unfold rand_bind.
    destruct (randint 1 254 g) as [k g'] eqn:Hk.
    assert (Hrange : (1 <= k <= 254)%Z).
    { pose proof (randint_range 1 254 g ltac:(lia)) as H.
      rewrite Hk in H. exact H. }
    intros [Hu|Hu]%IH; [|auto].
    apply elem_of_app in Hu as [Hu|Hu]; eauto.
Qed.

Lemma address_mutations_elem (variations : nat) (base_ip : string)
    (base_port : Z) (base_path : string) (g : rng) (u : string) :
  u ∈ (address_mutations variations base_ip base_port base_path g).1 ->
  exists ip a port,
    IPv4.IPv4Address base_ip = Some ip
    /\ u = http_url (IPv4.to_string a) port base_path
    /\ IPv4.IPv4Address (IPv4.to_string a) = Some a
    /\ IPv4.block_24 a = IPv4.block_24 ip
    /\ (1 <= IPv4.last_octet a <= 254)%Z
    /\ a <> ip
    /\ IPv4.to_string a <> base_ip
    /\ (port = base_port \/ base_port = 80%Z /\ port ∈ [8080; 8081; 8888]%Z).
Proof.
  unfold address_mutations.
  destruct (IPv4.IPv4Address base_ip) as [ip|] eqn:Hip;
    [|intros []%elem_of_nil].
  intros [[]%elem_of_nil|(k & Hk & Hu)]%address_loop_elem.
  destruct (address_round_elem ip base_ip base_port base_path k u Hip Hk Hu)
    as (a & port & E & P & B & L & N & S & Q).
  exists ip, a, port. rewrite L. repeat split; auto; lia.
Qed.

Lemma path_mutations_elem (base_ip : string) (base_port : Z)
    (base_path : string) (g : rng) (u : string) :
  u ∈ (path_mutations base_ip base_port base_path g).1 ->
  exists path_var,
    u = http_url base_ip base_port path_var
    /\ path_var ∈ (generate_path_variations base_path g).1.
Proof.
  unfold path_mutations.
  destruct (String.eqb base_path ""); [intros []%elem_of_nil|].
  unfold rand_bind.
  destruct (generate_path_variations base_path g) as [vs g']. simpl.
  intros (path_var & -> & Hin)%list_elem_of_fmap.
  exists path_var. split; [reflexivity|].
  apply elem_of_take in Hin as (i & Hi & _).
  apply list_elem_of_lookup. eauto.
Qed.

(** The candidates of [generate_similar_urls]: there are some only for a
    seed whose [image_url] is a string that parses, with a host and a
    port; each comes from the address mutation or from the path mutation. *)
Lemma generate_similar_urls_elem (urlparse : string -> result parsed_url)
    (cam : camera) (variations : nat) (g : rng) (u : string) :
  u ∈ (generate_similar_urls urlparse cam variations g).1 ->
  exists base_url parsed base_ip p,
    cam !! "image_url" = Some (PStr base_url)
    /\ urlparse base_url = Ok parsed
    /\ hostname parsed = Some base_ip
    /\ port parsed = Ok p
    /\ (u ∈ (address_mutations variations base_ip (port_or_80 p)
               (path parsed) g).1
        \/ exists g',
             u ∈ (path_mutations base_ip (port_or_80 p) (path parsed) g').1).
Proof.
  unfold generate_similar_urls, Py.get.
  destruct (cam !! "image_url") as [v|] eqn:Hv; simpl;
    [|intros []%elem_of_nil].
  destruct v as [| | | |base_url| |]; try (intros []%elem_of_nil).
  destruct (String.eqb base_url ""); [intros []%elem_of_nil|].
  destruct (urlparse base_url) as [parsed|] eqn:Hparse;
    [|intros []%elem_of_nil].
  destruct (hostname parsed) as [base_ip|] eqn:Hhost;
    [|intros []%elem_of_nil].
  destruct (String.eqb base_ip ""); [intros []%elem_of_nil|].
  destruct (port parsed) as [p|] eqn:Hport; [|intros []%elem_of_nil].
  unfold rand_bind.
  destruct (address_mutations variations base_ip (port_or_80 p) (path parsed) g)
    as [urls1 g1] eqn:H1.
  destruct (path_mutations base_ip (port_or_80 p) (path parsed) g1)
    as [urls2 g2] eqn:H2.
  simpl. rewrite elem_of_list_set, elem_of_app.
  intros Hu. exists base_url, parsed, base_ip, p.
  repeat split; auto.
  destruct Hu as [Hu|Hu]; [left; rewrite H1; exact Hu|right].
  exists g1. rewrite H2. exact Hu.
Qed.

(** C8.  Every candidate the address mutation gives is a URL on an
    address whose final octet is between 1 and 254: neither the network
    address of the block (.0) nor its broadcast address (.255). *)
Theorem address_mutations_final_octet (variations : nat) (base_ip : string)
    (base_port : Z) (base_path : string) (g : rng) (u : string) :
  u ∈ (address_mutations variations base_ip base_port base_path g).1 ->
  exists a,
    on_address u a
    /\ (1 <= IPv4.last_octet a <= 254)%Z
    /\ IPv4.last_octet a <> 0%Z /\ IPv4.last_octet a <> 255%Z.
Proof.
  intros (ip & a & port & _ & E & P & _ & L & _)%address_mutations_elem.
  exists a. split; [|lia].
  exists (IPv4.to_string a), port, base_path. auto.
Qed.

Lemma address_mutations_final_octet_witness :
  exists a,
    on_address "http://203.0.113.15:8080/cam_1.cgi" a
    /\ (1 <= IPv4.last_octet a <= 254)%Z
    /\ IPv4.last_octet a <> 0%Z /\ IPv4.last_octet a <> 255%Z.
Proof.
  apply (address_mutations_final_octet 3 "203.0.113.5" 80 "/cam_1.cgi"
           Sample.draws).
  apply (bool_decide_unpack _). vm_compute. exact I.
Defined.

(** The host of a candidate is determined by its string. *)

Lemma app_colon_inj (h1 h2 r1 r2 : string) :
  Octets.free_of ":" h1 = true -> Octets.free_of ":" h2 = true ->
  h1 +:+ String ":" r1 = h2 +:+ String ":" r2 -> h1 = h2.
Proof.
  revert h2. unfold Octets.free_of.
  induction h1 as [|c h1 IH]; intros [|c' h2]; simpl; try reflexivity.
  - intros _ [Hc _]%andb_true_iff [= <- _].
    rewrite Ascii.eqb_refl in Hc. discriminate.
  - intros [Hc _]%andb_true_iff _ [= -> _].
    rewrite Ascii.eqb_refl in Hc. discriminate.
  - intros [_ H1]%andb_true_iff [_ H2]%andb_true_iff [= -> E].
    f_equal. eauto.
Qed.

Lemma IPv4Address_free (c : ascii) (host : string) (a : Z) :
  IPv4.IPv4Address host = Some a ->
  PyStr.is_ascii_digit c = false -> c <> "."%char ->
  Octets.free_of c host = true.
Proof.
  intros [<- Hr]%IPv4Facts.to_string_IPv4Address Hc Hdot.
  destruct (IPv4Facts.octets_split a Hr) as (Ha & Hb & Hc' & Hd & _).
  assert (Hsep : Octets.free_of c "." = true).
  { unfold Octets.free_of. cbn [Urllib.all_chars].
    destruct (Ascii.eqb_spec "." c); [congruence|reflexivity]. }
  rewrite IPv4Facts.to_string_eq, !IPv4Facts.free_of_app, Hsep.
  rewrite (IPv4Facts.digits_free c (pretty (a / 16777216)%Z) Hc),
    (IPv4Facts.digits_free c (pretty ((a / 65536) mod 256)%Z) Hc),
    (IPv4Facts.digits_free c (pretty ((a / 256) mod 256)%Z) Hc),
    (IPv4Facts.digits_free c (pretty (a mod 256)%Z) Hc);
    try reflexivity; apply IPv4Facts.pretty_parse_octet; assumption.
Qed.

Lemma on_address_inj (u : string) (a b : Z) :
  on_address u a -> on_address u b -> a = b.
Proof.
  intros (h1 & p1 & x1 & -> & H1) (h2 & p2 & x2 & E & H2).
  assert (h1 = h2); [|congruence].
  unfold http_url in E. apply (inj (String.app "http://")) in E.
  apply (app_colon_inj h1 h2 (pretty p1 +:+ x1) (pretty p2 +:+ x2));
    [eapply IPv4Address_free; eauto; discriminate ..|exact E].
Qed.

(** C3, as amended.  For a seed whose media URL has the numeric IPv4 host
    [ip], every candidate returned is a URL on an address of the /24 block
    of [ip].  A candidate made by address mutation keeps the seed's path
    and its address differs from [ip]; a candidate made by path mutation
    is on [ip] itself, with a variation of the seed's path. *)
Theorem generate_similar_urls_same_block
    (urlparse : string -> result parsed_url) (cam : camera)
    (variations : nat) (g : rng) (base_url : string) (parsed : parsed_url)
    (base_ip : string) (ip : Z) (u : string) :
  cam !! "image_url" = Some (PStr base_url) ->
  urlparse base_url = Ok parsed ->
  hostname parsed = Some base_ip ->
  IPv4.IPv4Address base_ip = Some ip ->
  u ∈ (generate_similar_urls urlparse cam variations g).1 ->
  exists a port path',
    u = http_url (IPv4.to_string a) port path'
    /\ IPv4.IPv4Address (IPv4.to_string a) = Some a
    /\ IPv4.block_24 a = IPv4.block_24 ip
    /\ (a <> ip /\ path' = path parsed
        \/ a = ip
           /\ exists g', path' ∈ (generate_path_variations (path parsed) g').1).
Proof.
  intros Hurl Hparse Hhost Hip
    (base_url' & parsed' & base_ip' & p & E1 & E2 & E3 & _ & Hu)%generate_similar_urls_elem.
  assert (base_url' = base_url) as -> by congruence.
  assert (parsed' = parsed) as -> by congruence.
  assert (base_ip' = base_ip) as -> by congruence.
  destruct Hu as [Hu|[g' Hu]].
  - apply address_mutations_elem in Hu
      as (ip' & a & port & Hip' & -> & P & B & _ & N & _).
    assert (ip' = ip) as -> by congruence.
    exists a, port, (path parsed). repeat split; auto.
  - apply path_mutations_elem in Hu as (path_var & -> & Hin).
    destruct (IPv4Facts.to_string_IPv4Address _ _ Hip) as [Hstr _].
    exists ip, (port_or_80 p), path_var. rewrite Hstr.
    split; [reflexivity|]. split; [exact Hip|]. split; [reflexivity|].
    right. eauto.
Qed.

Lemma generate_similar_urls_same_block_witness :
  exists a port path',
    "http://203.0.113.15:8080/cam_1.cgi"
    = http_url (IPv4.to_string a) port path'
    /\ IPv4.IPv4Address (IPv4.to_string a) = Some a
    /\ IPv4.block_24 a = IPv4.block_24 3405803781
    /\ (a <> 3405803781%Z /\ path' = "/cam_1.cgi"
        \/ a = 3405803781%Z
           /\ exists g', path' ∈ (generate_path_variations "/cam_1.cgi" g').1).
Proof.
  apply (generate_similar_urls_same_block Urllib.urlparse Sample.seed_numeric 3
           Sample.draws "http://203.0.113.5:80/cam_1.cgi"
           (ParseResult (Some "203.0.113.5") (Ok (Some 80%Z)) "/cam_1.cgi")
           "203.0.113.5" 3405803781).
  - vm_compute. reflexivity.
  - vm_compute. reflexivity.
  - reflexivity.
  - vm_compute. reflexivity.
  - apply (bool_decide_unpack _). vm_compute. exact I.
Defined.

(** The claim C3 as it is stated fails on the seed
    http://203.0.113.5:80/cam_1.cgi: the candidate
    http://203.0.113.5:80/cam_2.cgi is returned, and it is on the seed's
    own address. *)
Lemma generate_similar_urls_returns_seed_address :
  ipv4_seed Urllib.urlparse Sample.seed_numeric 3405803781
  /\ ~ (forall u,
         u ∈ (generate_similar_urls Urllib.urlparse Sample.seed_numeric 20
                Sample.draws).1 ->
         exists a, on_address u a
                   /\ IPv4.block_24 a = IPv4.block_24 3405803781
                   /\ a <> 3405803781%Z).
Proof.
  split.
  - exists "http://203.0.113.5:80/cam_1.cgi",
      (ParseResult (Some "203.0.113.5") (Ok (Some 80%Z)) "/cam_1.cgi"),
      "203.0.113.5".
    repeat split; vm_compute; reflexivity.
  - intros H.
    destruct (H "http://203.0.113.5:80/cam_2.cgi") as (a & Ha & _ & Hne).
    { apply (bool_decide_unpack _). vm_compute. exact I. }
    apply Hne. apply (on_address_inj _ _ _ Ha).
    exists "203.0.113.5", 80%Z, "/cam_2.cgi".
    split; vm_compute; reflexivity.
Qed.

(** C5, as amended.  For a seed whose media URL is not a well-formed URL
    with a numeric IPv4 host, no candidate comes from address mutation:
    every candidate returned is a path variation on the host and port of
    the seed's URL, whose host [IPv4Address] refuses; and nothing is
    returned when the URL has no host. *)
Theorem generate_similar_urls_not_ipv4
    (urlparse : string -> result parsed_url) (cam : camera)
    (variations : nat) (g : rng) :
  (forall ip, ~ ipv4_seed urlparse cam ip) ->
  (forall u,
     u ∈ (generate_similar_urls urlparse cam variations g).1 ->
     exists base_url parsed base_ip p path_var g',
       cam !! "image_url" = Some (PStr base_url)
       /\ urlparse base_url = Ok parsed
       /\ hostname parsed = Some base_ip
       /\ IPv4.IPv4Address base_ip = None
       /\ port parsed = Ok p
       /\ path_var ∈ (generate_path_variations (path parsed) g').1
       /\ u = http_url base_ip (port_or_80 p) path_var)
  /\ ((forall base_url parsed,
         cam !! "image_url" = Some (PStr base_url) ->
         urlparse base_url = Ok parsed -> hostname parsed = None) ->
      (generate_similar_urls urlparse cam variations g).1 = []).
Proof.
  intros Hseed. split.
  - intros u (base_url & parsed & base_ip & p & E1 & E2 & E3 & E4 & Hu)%generate_similar_urls_elem.
    assert (Hno : IPv4.IPv4Address base_ip = None).
    { destruct (IPv4.IPv4Address base_ip) as [ip|] eqn:Hip; [|reflexivity].
      exfalso. apply (Hseed ip). exists base_url, parsed, base_ip. auto. }
    destruct Hu as [Hu|[g' Hu]].
    + apply address_mutations_elem in Hu as (ip & _ & _ & Hip & _).
      congruence.
    + apply path_mutations_elem in Hu as (path_var & -> & Hin).
      exists base_url, parsed, base_ip, p, path_var, g'. repeat split; auto.
  - intros Hnohost.
    destruct (generate_similar_urls urlparse cam variations g).1
      as [|u urls] eqn:Hres; [reflexivity|].
    assert (Hu : u ∈ (generate_similar_urls urlparse cam variations g).1)
      by (rewrite Hres; left).
    apply generate_similar_urls_elem in Hu
      as (base_url & parsed & base_ip & p & E1 & E2 & E3 & _).
    rewrite (Hnohost _ _ E1 E2) in E3. discriminate.
Qed.

Lemma seed_named_not_ipv4 ip : ~ ipv4_seed Urllib.urlparse Sample.seed_named ip.
Proof.
  intros (base_url & parsed & base_ip & H1 & H2 & H3 & H4).
  vm_compute in H1. injection H1 as <-.
  vm_compute in H2. injection H2 as <-.
  injection H3 as <-. vm_compute in H4. discriminate.
Defined.

Lemma generate_similar_urls_not_ipv4_witness :
  (forall u,
     u ∈ (generate_similar_urls Urllib.urlparse Sample.seed_named 20
            Sample.draws).1 ->
     exists base_url parsed base_ip p path_var g',
       Sample.seed_named !! "image_url" = Some (PStr base_url)
       /\ Urllib.urlparse base_url = Ok parsed
       /\ hostname parsed = Some base_ip
       /\ IPv4.IPv4Address base_ip = None
       /\ port parsed = Ok p
       /\ path_var ∈ (generate_path_variations (path parsed) g').1
       /\ u = http_url base_ip (port_or_80 p) path_var)
  /\ ((forall base_url parsed,
         Sample.seed_named !! "image_url" = Some (PStr base_url) ->
         Urllib.urlparse base_url = Ok parsed -> hostname parsed = None) ->
      (generate_similar_urls Urllib.urlparse Sample.seed_named 20
         Sample.draws).1 = []).
Proof.
  apply (generate_similar_urls_not_ipv4 Urllib.urlparse Sample.seed_named 20
           Sample.draws).
  exact seed_named_not_ipv4.
Defined.

(** The claim C5 as it is stated fails on the seed
    http://example.com/cam_1.cgi: its host is no IPv4 address, and four
    candidates are returned. *)
Lemma generate_similar_urls_named_host_not_empty :
  (forall ip, ~ ipv4_seed Urllib.urlparse Sample.seed_named ip)
  /\ (generate_similar_urls Urllib.urlparse Sample.seed_named 20
        Sample.draws).1 <> []
  /\ "http://example.com:80/cam_2.cgi"
     ∈ (generate_similar_urls Urllib.urlparse Sample.seed_named 20
          Sample.draws).1.
Proof.
  split; [exact seed_named_not_ipv4|]. split.
  - vm_compute. discriminate.
  - apply (bool_decide_unpack _). vm_compute. exact I.
Qed.

(** ** The expansion run *)

Lemma slice_to_sublist {A} (k : Z) (l : list A) : slice_to k l `sublist_of` l.
Proof. unfold slice_to. destruct (0 <=? k)%Z; apply sublist_take. Qed.

Lemma not_existing_spec (existing_cameras : list pyval) (values : list pyval)
    (u : string) (cam : camera) :
  existing_urls existing_cameras = Ok values ->
  not_existing values u = true ->
  PDict cam ∈ existing_cameras -> cam !! "image_url" <> Some (PStr u).
Proof.
  revert values. induction existing_cameras as [|v rest IH]; intros values.
  - intros _ _ []%elem_of_nil.
  - cbn [existing_urls]. destruct v as [| | | | | |c]; try discriminate.
    destruct (Key.hashable _); [|discriminate].
    destruct (existing_urls rest) as [urls|]; [|discriminate].
    intros [= <-]. unfold not_existing. cbn [existsb].
    intros H%negb_true_iff. apply orb_false_iff in H as [H1 H2].
    intros [[= <-]|Hin]%elem_of_cons.
    + intros Hurl. unfold Py.get in H1. rewrite Hurl in H1. cbn in H1.
      rewrite String.eqb_refl in H1. discriminate.
    + apply (IH urls); [reflexivity| |exact Hin].
      unfold not_existing. rewrite H2. reflexivity.
Qed.

(** C10.  The URLs an expansion run submits to the probe are pairwise
    different, and none of them is the media URL of a record of the
    existing set: the candidates pass through a set and are filtered
    against the existing media URLs before the first probe is submitted. *)
Theorem submitted_urls_fresh (urlparse : string -> result parsed_url)
    (existing_cameras : list pyval) (target : Z) (g : rng)
    (urls : list string) :
  (submitted_urls urlparse existing_cameras target g).1 = Ok urls ->
  NoDup urls
  /\ forall u cam,
       u ∈ urls -> PDict cam ∈ existing_cameras ->
       cam !! "image_url" <> Some (PStr u).
Proof.
  unfold submitted_urls.
  destruct (group_by_country existing_cameras []) as [groups|]; [|discriminate].
  unfold rand_bind.
  destruct (country_loop urlparse target groups [] g) as [test_urls g'].
  destruct (existing_urls existing_cameras) as [values|] eqn:Hvalues;
    [|discriminate].
  intros [= <-].
  pose proof (slice_to_sublist (target * 2)
                (filter (fun url => not_existing values url = true)
                        (list_set test_urls))) as Hsub.
  split.
  - eapply sublist_NoDup; [|exact Hsub].
    apply NoDup_filter, NoDup_list_set.
  - intros u cam Hu Hcam.
    eapply sublist_subseteq in Hsub. apply Hsub in Hu.
    apply list_elem_of_filter in Hu as [Hnot _].
    eapply not_existing_spec; eauto.
Qed.

Lemma submitted_urls_fresh_witness :
  NoDup [ "http://203.0.113.71:8888/cam_1.cgi";
          "http://203.0.113.71:80/cam_1.cgi";
          "http://203.0.113.71:8081/cam_1.cgi";
          "http://203.0.113.71:8080/cam_1.cgi" ]
  /\ forall u cam,
       u ∈ [ "http://203.0.113.71:8888/cam_1.cgi";
             "http://203.0.113.71:80/cam_1.cgi";
             "http://203.0.113.71:8081/cam_1.cgi";
             "http://203.0.113.71:8080/cam_1.cgi" ] ->
       PDict cam ∈ Sample.existing_pair ->
       cam !! "image_url" <> Some (PStr u).
Proof.
  apply (submitted_urls_fresh Urllib.urlparse Sample.existing_pair 2
           Sample.draws).
  vm_compute. reflexivity.
Defined.

(** ** The geolocation resolver *)

(** An exception of the first request ends the resolution: the handler of
    the one [try] is reached, and the second provider is not asked. *)
Lemma get_ip_geolocation_a_raises (http_get : string -> result response)
    (ip_address : option string) (e : exn) (log : list string) :
  http_get (url_a ip_address) = Raise e ->
  get_ip_geolocation http_get ip_address log
  = (Ok None, log ++ [url_a ip_address]).
Proof.
  intros H. unfold get_ip_geolocation, net_try, get_ip_geolocation_body,
    net_bind, session_get. rewrite H. reflexivity.
Qed.

(** A status other than 200 from the first provider is followed by the
    request to the second one. *)
Lemma get_ip_geolocation_a_refuses (http_get : string -> result response)
    (ip_address : option string) (r : response) (log : list string) :
  http_get (url_a ip_address) = Ok r -> status_code r <> 200%Z ->
  (get_ip_geolocation http_get ip_address log).2
  = log ++ [url_a ip_address; url_b ip_address].
Proof.
  intros H Hs. unfold get_ip_geolocation, net_try, get_ip_geolocation_body,
    net_bind, session_get. rewrite H.
  destruct (Z.eqb_spec (status_code r) 200); [contradiction|].
  unfold net_ret. rewrite <- app_assoc. simpl.
  destruct (http_get (url_b ip_address)) as [r'|]; [|reflexivity].
  destruct (status_code r' =? 200)%Z; [|reflexivity].
  unfold json_object, net_bind, net_lift.
  destruct (json r') as [[]|]; try reflexivity.
  unfold net_ret. destruct (Py.eq_str _ _); reflexivity.
Qed.

(** C2.  The code at the failing input: the request to the first provider
    raises, the second provider would answer with success; the resolver
    returns [None] and its only request is the one to the first provider.
    When the first provider answers with an error flag instead, the second
    one is asked and its answer returned. *)
Theorem get_ip_geolocation_exception_skips_fallback :
  Sample.net_a_down (url_a (Some "203.0.113.9")) = Raise RequestException
  /\ (exists r data,
        Sample.net_a_down (url_b (Some "203.0.113.9")) = Ok r
        /\ status_code r = 200%Z /\ json r = Ok (PDict data)
        /\ data !! "status" = Some (PStr "success"))
  /\ get_ip_geolocation Sample.net_a_down (Some "203.0.113.9") []
     = (Ok None, ["https://ipapi.co/203.0.113.9/json/"])
  /\ exists answer,
       get_ip_geolocation Sample.net_a_error (Some "203.0.113.9") []
       = (Ok (Some answer),
          ["https://ipapi.co/203.0.113.9/json/";
           "http://ip-api.com/json/203.0.113.9"])
       /\ answer !! "city" = Some (PStr "Tokyo").
Proof.
  split; [reflexivity|]. split.
  - eexists _, _. repeat split; vm_compute; reflexivity.
  - split; [vm_compute; reflexivity|].
    eexists. split; vm_compute; reflexivity.
Qed.

(** ** The result loop of the scraper *)

Lemma collect_rejected (st : coordinator) :
  events (collect st None) = events st
  /\ processed_count (collect st None) = S (processed_count st).
Proof. split; reflexivity. Qed.

Lemma accepted_cons (result : option camera) (results : list (option camera)) :
  accepted (result :: results)
  = match result with
    | Some cam => if Py.truthy (PDict cam) then [cam] else []
    | None => []
    end ++ accepted results.
Proof. reflexivity. Qed.

Lemma collect_camera_data (results : list (option camera)) (st : coordinator) :
  camera_data (fold_left collect results st)
  = camera_data st ++ accepted results.
Proof.
  revert st. induction results as [|result results IH]; intros st.
  - symmetry. apply app_nil_r.
  - cbn [fold_left]. rewrite IH, accepted_cons. unfold collect.
    destruct result as [cam|]; [destruct (Py.truthy (PDict cam))|];
      cbn [camera_data]; rewrite <- ?app_assoc; reflexivity.
Qed.

(** C6.  The code at the failing input: fifty completions of which the
    first forty-nine are accepted and the fiftieth is rejected.  The loop
    of [scrape_cameras] has then processed fifty tasks and has emitted no
    event: the progress report sits under [if result].  The loop of
    [expand_camera_database] reports the progress on the same
    completions. *)
Theorem collect_all_silent_at_rejected_fiftieth :
  processed_count (collect_all Sample.fifty_last_rejected) = 50
  /\ scraped_count (collect_all Sample.fifty_last_rejected) = 49
  /\ events (collect_all Sample.fifty_last_rejected) = []
  /\ last (expansion_loop 1000 Sample.fifty_last_rejected [] 0 []).2
     = Some (Progress 50 49).
Proof. repeat split; vm_compute; reflexivity. Qed.

(** ** The records of the two pipelines *)

Lemma listing_record_fields (lat_float lon_float : float)
    (country city region manufacturer image_url camera_url : string) :
  let r := listing_record lat_float lon_float country city region
             manufacturer image_url camera_url in
  r !! "latitude" = Some (PFloat lat_float)
  /\ r !! "longitude" = Some (PFloat lon_float)
  /\ r !! "country" = Some (PStr country)
  /\ r !! "city" = Some (PStr city)
  /\ r !! "origin" = None
  /\ r !! "source" = None
  /\ dom r = listing_keys
  /\ Py.truthy (PDict r) = true.
Proof.
  repeat split; reflexivity.
Qed.

Lemma extract_camera_details_Some (float_of_str : string -> option float)
    (fetch : string -> result page) (camera_url : string) (r : camera) :
  extract_camera_details float_of_str fetch camera_url = Some r ->
  exists details tag lat_float lon_float image_url,
    fetch camera_url = Ok (Page (Some details) tag)
    /\ acceptable float_of_str
         (get_detail details "Latitude:") (get_detail details "Longitude:")
         (get_detail details "Country:") (get_detail details "City:")
         lat_float lon_float
    /\ r = listing_record lat_float lon_float
             (get_detail details "Country:") (get_detail details "City:")
             (get_detail details "Region:")
             (get_detail details "Manufacturer:") image_url camera_url.
Proof.
  unfold extract_camera_details.
  destruct (fetch camera_url) as [[details tag]|]; [|discriminate].
  destruct details as [details|]; [|discriminate]. cbn [details_div image_tag].
  destruct tag as [[src|]|]; [|discriminate|];
    intros (la & lo & Hacc & ->)%validate_Some; eauto 10.
Qed.


Lemma scrape_cameras_Ok (float_of_str : string -> option float)
    (listing : Z -> result (list (option string)))
    (fetch : string -> result page)
    (as_completed : list string -> list string) (num_pages max_workers : Z)
    (records : list camera) :
  scrape_cameras float_of_str listing fetch as_completed num_pages max_workers
  = Ok records ->
  exists links,
    harvest listing (Z.to_nat num_pages) 1 [] = Ok links
    /\ records = accepted (map (extract_camera_details float_of_str fetch)
                              (as_completed (list_set links))).
Proof.
  unfold scrape_cameras.
  destruct (harvest listing (Z.to_nat num_pages) 1 []) as [links|];
    [|discriminate].
  destruct (max_workers <=? 0)%Z; [discriminate|].
  destruct (list_set links) eqn:Hset; [discriminate|]. rewrite <- Hset.
  intros [= <-]. exists links. split; [reflexivity|].
  unfold collect_all. rewrite collect_camera_data. reflexivity.
Qed.

Lemma accepted_elem (results : list (option camera)) (r : camera) :
  r ∈ accepted results -> Some r ∈ results.
Proof.
  unfold accepted. intros (result & Hr & Hin)%list_elem_of_bind.
  destruct result as [cam|]; [|apply elem_of_nil in Hr as []].
  destruct (Py.truthy (PDict cam)); [|apply elem_of_nil in Hr as []].
  apply list_elem_of_singleton in Hr as ->. exact Hin.
Qed.

(** Every record the scraper returns is a record of the validator. *)
Lemma scrape_cameras_records (float_of_str : string -> option float)
    (listing : Z -> result (list (option string)))
    (fetch : string -> result page)
    (as_completed : list string -> list string) (num_pages max_workers : Z)
    (records : list camera) (r : camera) :
  scrape_cameras float_of_str listing fetch as_completed num_pages max_workers
  = Ok records ->
  r ∈ records ->
  exists camera_url,
    extract_camera_details float_of_str fetch camera_url = Some r.
Proof.
  intros (links & _ & ->)%scrape_cameras_Ok Hr%accepted_elem.
  apply list_elem_of_fmap in Hr as (camera_url & Hr & _). eauto.
Qed.

Lemma test_camera_url_Some (urlparse : string -> result parsed_url)
    (lower : string -> string) (http_get : string -> result response)
    (url : string) (log : list string) (r : camera) :
  (test_camera_url urlparse lower http_get url log).1 = Ok (Some r) ->
  exists parsed geo_info p,
    urlparse url = Ok parsed
    /\ (get_ip_geolocation http_get (hostname parsed) (log ++ [url])).1
       = Ok (Some geo_info)
    /\ port parsed = Ok p
    /\ r = camera_info geo_info (detect_manufacturer lower url) url
             (hostname parsed) (port_or_80 p).
Proof.
  unfold test_camera_url, net_try, net_bind, session_get, net_lift, net_ret.
  destruct (http_get url) as [response|]; [|discriminate].
  destruct (status_code response =? 200)%Z; [|discriminate].
  destruct (existsb _ media_types); [|discriminate].
  destruct (urlparse url) as [parsed|] eqn:Hparse; [|discriminate].
  destruct (get_ip_geolocation http_get (hostname parsed) (log ++ [url]))
    as [[[geo_info|]|] log'] eqn:Hgeo; try discriminate.
  destruct (Py.truthy (PDict geo_info)); [|discriminate].
  destruct (port parsed) as [p|] eqn:Hport; [|discriminate].
  simpl. intros [= <-]. exists parsed, geo_info, p.
  rewrite Hgeo. repeat split; assumption.
Qed.

Lemma camera_info_fields (geo_info : camera) (manufacturer url : string)
    (ip : option string) (port : Z) :
  let r := camera_info geo_info manufacturer url ip port in
  r !! "latitude" = Some (Py.get geo_info "lat" (PInt 0))
  /\ r !! "longitude" = Some (Py.get geo_info "lon" (PInt 0))
  /\ r !! "country" = Some (Py.get geo_info "country" (PStr "Unknown"))
  /\ r !! "city" = Some (Py.get geo_info "city" (PStr "Unknown"))
  /\ r !! "region" = Some (Py.get geo_info "region" (PStr "Unknown"))
  /\ r !! "source" = Some (PStr "smart_expansion").
Proof. repeat split; reflexivity. Qed.

Lemma expansion_loop_records (target : Z) (completed : list (option camera))
    (new_cameras : list camera) (tested_count : nat) (log : list event)
    (r : camera) :
  r ∈ (expansion_loop target completed new_cameras tested_count log).1 ->
  r ∈ new_cameras \/ Some r ∈ completed.
Proof.
  revert new_cameras tested_count log.
  induction completed as [|result completed IH];
    intros new_cameras tested_count log; cbn [expansion_loop].
  - auto.
  - destruct result as [cam|].
    + destruct (Py.truthy (PDict cam)).
      * destruct (target <=? _)%Z; cbn [fst].
        -- intros [H| ->%list_elem_of_singleton]%elem_of_app;
             [auto|right; left].
        -- intros [[H| ->%list_elem_of_singleton]%elem_of_app|H]%IH;
             [auto|right; left|right; right; exact H].
      * intros [H|H]%IH; [auto|right; right; exact H].
    + intros [H|H]%IH; [auto|right; right; exact H].
Qed.

(** C1, as amended.  Every record a discovery run returns passed the
    validator: its latitude and longitude are floats within [-90, 90] and
    [-180, 180], its country and city are not the sentinel.  In an
    expansion run the record of a probe-accepted candidate is built from
    the answer of the geolocation resolver as it is: latitude, longitude,
    country, city and region are read from the answer, and no validator
    stands between the answer and the record; the records an expansion run
    returns are such records. *)
Theorem records_validated_in_discovery_only
    (float_of_str : string -> option float)
    (listing : Z -> result (list (option string)))
    (fetch : string -> result page)
    (as_completed : list string -> list string)
    (urlparse : string -> result parsed_url) (lower : string -> string)
    (http_get : string -> result response) :
  (forall num_pages max_workers records r,
     scrape_cameras float_of_str listing fetch as_completed num_pages
       max_workers = Ok records ->
     r ∈ records ->
     passed_validator float_of_str r
     /\ exists lat_float lon_float country city,
          r !! "latitude" = Some (PFloat lat_float)
          /\ between (-90) 90 lat_float
          /\ r !! "longitude" = Some (PFloat lon_float)
          /\ between (-180) 180 lon_float
          /\ r !! "country" = Some (PStr country) /\ country <> "N/A"
          /\ r !! "city" = Some (PStr city) /\ city <> "N/A")
  /\ (forall url log r,
        (test_camera_url urlparse lower http_get url log).1 = Ok (Some r) ->
        exists parsed geo_info,
          urlparse url = Ok parsed
          /\ (get_ip_geolocation http_get (hostname parsed) (log ++ [url])).1
             = Ok (Some geo_info)
          /\ r !! "latitude" = Some (Py.get geo_info "lat" (PInt 0))
          /\ r !! "longitude" = Some (Py.get geo_info "lon" (PInt 0))
          /\ r !! "country" = Some (Py.get geo_info "country" (PStr "Unknown"))
          /\ r !! "city" = Some (Py.get geo_info "city" (PStr "Unknown"))
          /\ r !! "region" = Some (Py.get geo_info "region" (PStr "Unknown")))
  /\ (forall file target max_workers g records r,
        (expand_camera_database urlparse lower http_get as_completed
           file target max_workers g).1 = Ok records ->
        r ∈ records ->
        exists url,
          (test_camera_url urlparse lower http_get url []).1 = Ok (Some r)).
Proof.
  split; [|split].
  - intros num_pages max_workers records r Hrun Hr.
    destruct (scrape_cameras_records _ _ _ _ _ _ _ _ Hrun Hr) as [camera_url Hx].
    pose proof Hx as Hv.
    apply extract_camera_details_Some in Hx
      as (details & tag & la & lo & img & _ & Hacc & ->).
    split.
    + unfold extract_camera_details in Hv.
      destruct (fetch camera_url) as [[d t]|]; [|discriminate].
      destruct d as [d|]; [|discriminate]. cbn [details_div image_tag] in Hv.
      destruct t as [[src|]|]; [|discriminate|];
        (eexists _, _, _, _, _, _, _, _, _; split; [exact Hv|reflexivity]).
    + destruct Hacc as (_ & _ & Hco & Hci & _ & _ & Hla & Hlo).
      exists la, lo, (get_detail details "Country:"),
        (get_detail details "City:").
      repeat split; solve [reflexivity | apply Hla | apply Hlo | assumption].
  - intros url log r (parsed & geo_info & p & Hp & Hg & _ & ->)%test_camera_url_Some.
    exists parsed, geo_info. split; [exact Hp|]. split; [exact Hg|].
    repeat split; reflexivity.
  - intros file target max_workers g records r.
    unfold expand_camera_database.
    destruct (negb (Py.truthy (load_existing_cameras file))).
    { intros [= <-] []%elem_of_nil. }
    destruct (load_existing_cameras file) as [| | | | |cameras|];
      try discriminate.
    unfold rand_bind.
    destruct (submitted_urls urlparse cameras target g)
      as [[test_urls|] g']; [|discriminate].
    destruct (max_workers <=? 0)%Z; [discriminate|].
    cbn [fst rand_ret]. intros [= <-] [[]%elem_of_nil|Hr]%expansion_loop_records.
    apply list_elem_of_fmap in Hr as (url & Hr & _). exists url.
    unfold probe_result in Hr.
    destruct (test_camera_url urlparse lower http_get url []).1;
      [congruence|discriminate].
Qed.

Lemma records_validated_in_discovery_only_witness :
  (passed_validator Sample.decimal_float Sample.record_tokyo
   /\ exists lat_float lon_float country city,
        Sample.record_tokyo !! "latitude" = Some (PFloat lat_float)
        /\ between (-90) 90 lat_float
        /\ Sample.record_tokyo !! "longitude" = Some (PFloat lon_float)
        /\ between (-180) 180 lon_float
        /\ Sample.record_tokyo !! "country" = Some (PStr country)
        /\ country <> "N/A"
        /\ Sample.record_tokyo !! "city" = Some (PStr city) /\ city <> "N/A")
  /\ exists parsed geo_info,
       Urllib.urlparse "http://203.0.113.9:80/cam_1.cgi" = Ok parsed
       /\ (get_ip_geolocation Sample.net_no_coordinates (hostname parsed)
             ([] ++ ["http://203.0.113.9:80/cam_1.cgi"])).1
          = Ok (Some geo_info)
       /\ Sample.record_no_coordinates !! "latitude"
          = Some (Py.get geo_info "lat" (PInt 0))
       /\ Sample.record_no_coordinates !! "longitude"
          = Some (Py.get geo_info "lon" (PInt 0))
       /\ Sample.record_no_coordinates !! "country"
          = Some (Py.get geo_info "country" (PStr "Unknown"))
       /\ Sample.record_no_coordinates !! "city"
          = Some (Py.get geo_info "city" (PStr "Unknown"))
       /\ Sample.record_no_coordinates !! "region"
          = Some (Py.get geo_info "region" (PStr "Unknown")).
Proof.
  destruct (records_validated_in_discovery_only Sample.decimal_float
              Sample.listing_three Sample.fetch_tokyo reverse
              Urllib.urlparse PyStr.ascii_lower Sample.net_no_coordinates)
    as (Hdiscovery & Hexpansion & _).
  split.
  - apply (Hdiscovery 1%Z 15%Z Sample.records_three).
    + vm_compute. reflexivity.
    + right. left.
  - apply (Hexpansion "http://203.0.113.9:80/cam_1.cgi" []).
    vm_compute. reflexivity.
Defined.

(** The claim C1 as it is stated fails in expansion mode: a candidate that
    serves an image, at an address of which the first provider knows the
    country and not the coordinates, gives a record whose latitude,
    longitude and city are [None]; no validator run gives its fields. *)
Lemma test_camera_url_record_not_validated :
  (test_camera_url Urllib.urlparse PyStr.ascii_lower
     Sample.net_no_coordinates "http://203.0.113.9:80/cam_1.cgi" []).1
  = Ok (Some Sample.record_no_coordinates)
  /\ Sample.record_no_coordinates !! "latitude" = Some PNone
  /\ Sample.record_no_coordinates !! "longitude" = Some PNone
  /\ Sample.record_no_coordinates !! "city" = Some PNone
  /\ forall float_of_str,
       ~ passed_validator float_of_str Sample.record_no_coordinates.
Proof.
  split; [vm_compute; reflexivity|].
  split; [reflexivity|]. split; [reflexivity|]. split; [reflexivity|].
  intros float_of_str
    (lat & lon & country & city & region & manufacturer & image_url
     & camera_url & r0 & Hv & Hk).
  apply validate_Some in Hv as (la & lo & _ & ->).
  specialize (Hk "latitude"). unfold required_keys in Hk.
  rewrite elem_of_cons in Hk. specialize (Hk (or_introl eq_refl)).
  destruct (listing_record_fields la lo country city region manufacturer
              image_url camera_url) as (Hlat & _).
  rewrite Hlat in Hk. vm_compute in Hk. discriminate Hk.
Qed.

(** ** The discovery run from the listing to the records *)








(** * Further properties of the code *)

(** ** The link harvester *)

Lemma fold_links_Ok (camera_links : list (option string)) (links : list string) :
  fold_right
    (fun link acc =>
       match link, acc with
       | Some href, Ok links => Ok ((base_url +:+ href) :: links)
       | None, _ => Raise KeyError
       | _, Raise e => Raise e
       end)
    (Ok []) camera_links = Ok links
  <-> exists hrefs,
        camera_links = Some <$> hrefs
        /\ links = (fun href => base_url +:+ href) <$> hrefs.
Proof.
  revert links. induction camera_links as [|link rest IH]; intros links.
  - simpl. split.
    + intros [= <-]. exists []. auto.
    + intros ([|h hs] & H1 & ->); [reflexivity|discriminate].
  - cbn [fold_right]. destruct link as [href|].
    + destruct (fold_right _ (Ok []) rest) as [links'|e] eqn:Hrest.
      * split.
        -- intros [= <-]. destruct (proj1 (IH links') eq_refl) as (hs & -> & ->).
           exists (href :: hs). auto.
        -- intros ([|h hs] & [= -> ->] & ->).
           f_equal. f_equal.
           assert (Ok links' = Ok ((fun href => base_url +:+ href) <$> hs))
             as [= ->]; [|reflexivity].
           apply (proj2 (IH _)). eauto.
      * split; [discriminate|].
        intros ([|h hs] & [= -> ->] & ->).
        assert (@Raise (list string) e
                = Ok ((fun href => base_url +:+ href) <$> hs)); [|discriminate].
        apply (proj2 (IH _)). eauto.
    + split; [discriminate|]. intros ([|h hs] & H & _); discriminate.
Qed.

Lemma get_camera_links_Ok (listing : Z -> result (list (option string)))
    (page_num : Z) (links : list string) :
  get_camera_links listing page_num = Ok links
  <-> listing page_num = Raise RequestException /\ links = []
      \/ exists hrefs,
           listing page_num = Ok (Some <$> hrefs)
           /\ links = (fun href => base_url +:+ href) <$> hrefs.
Proof.
  unfold get_camera_links. destruct (listing page_num) as [camera_links|e].
  - rewrite fold_links_Ok. split.
    + intros (hs & -> & ->). right. eauto.
    + intros [[? _]|(hs & [= ->] & ->)]; [discriminate|eauto].
  - destruct e;
      try (split; [discriminate|intros [[[=] _]|(hs & [=] & _)]]).
    split.
    + intros [= <-]. auto.
    + intros [[_ ->]|(hs & [=] & _)]. reflexivity.
Qed.

Lemma harvest_Ok_elem (listing : Z -> result (list (option string)))
    (n : nat) (page_num : Z) (acc links : list string) :
  harvest listing n page_num acc = Ok links ->
  forall u,
    u ∈ links
    <-> u ∈ acc
        \/ exists page l,
             (page_num <= page < page_num + Z.of_nat n)%Z
             /\ get_camera_links listing page = Ok l /\ u ∈ l.
Proof.
  revert page_num acc. induction n as [|n IH]; intros page_num acc.
  - simpl. intros [= <-] u. split; [auto|].
    intros [H|(page & l & Hp & _)]; [exact H|lia].
  - cbn [harvest].
    destruct (get_camera_links listing page_num) as [l0|] eqn:Hl0; [|discriminate].
    intros H u. rewrite (IH _ _ H u), elem_of_app. split.
    + intros [[Hu|Hu]|(page & l & Hp & Hl & Hu)].
      * auto.
      * right. exists page_num, l0. repeat split; auto; lia.
      * right. exists page, l. repeat split; auto; lia.
    + intros [Hu|(page & l & Hp & Hl & Hu)]; [auto|].
      destruct (Z.eq_dec page page_num) as [->|Hne].
      * left. right. congruence.
      * right. exists page, l. repeat split; auto; lia.
Qed.

Lemma harvest_Ok_iff (listing : Z -> result (list (option string)))
    (n : nat) (page_num : Z) (acc : list string) :
  (exists links, harvest listing n page_num acc = Ok links)
  <-> forall page,
        (page_num <= page < page_num + Z.of_nat n)%Z ->
        exists l, get_camera_links listing page = Ok l.
Proof.
  revert page_num acc. induction n as [|n IH]; intros page_num acc.
  - simpl. split; [intros _ page Hp; lia|eauto].
  - cbn [harvest]. split.
    + intros [links H] page Hp.
      destruct (get_camera_links listing page_num) as [l0|] eqn:Hl0;
        [|discriminate].
      destruct (Z.eq_dec page page_num) as [->|Hne]; [eauto|].
      apply (proj1 (IH (page_num + 1)%Z (acc ++ l0))); [eauto|lia].
    + intros H. destruct (H page_num) as [l0 ->]; [lia|].
      apply IH. intros page Hp. apply H. lia.
Qed.

Lemma harvest_Ok_listing (listing : Z -> result (list (option string)))
    (num_pages : Z) (links : list string) :
  harvest listing (Z.to_nat num_pages) 1 [] = Ok links ->
  forall u,
    u ∈ links
    <-> exists page hrefs href,
          (1 <= page <= num_pages)%Z
          /\ listing page = Ok hrefs /\ Some href ∈ hrefs
          /\ u = base_url +:+ href.
Proof.
  intros H u. rewrite (harvest_Ok_elem _ _ _ _ _ H u). split.
  - intros [[]%elem_of_nil|(page & l & Hp & Hl & Hu)].
    apply get_camera_links_Ok in Hl as [[_ ->]|(hs & Hl & ->)];
      [apply elem_of_nil in Hu as []|].
    apply list_elem_of_fmap in Hu as (href & -> & Hin).
    exists page, (Some <$> hs), href. repeat split; auto; try lia.
    apply list_elem_of_fmap. eauto.
  - intros (page & hrefs & href & Hp & Hl & Hin & ->). right.
    assert (Hok : exists l, get_camera_links listing page = Ok l).
    { apply (proj1 (harvest_Ok_iff listing (Z.to_nat num_pages) 1 []));
        [eauto|lia]. }
    destruct Hok as [l Hget]. exists page, l. split; [lia|]. split; [exact Hget|].
    apply get_camera_links_Ok in Hget as [[Hr _]|(hs & Hl' & ->)]; [congruence|].
    rewrite Hl in Hl'. injection Hl' as ->.
    apply list_elem_of_fmap in Hin as (h & [= ->] & Hin).
    apply list_elem_of_fmap. eauto.
Qed.

(** X1.  The links a harvest returns are the links of the listing pages 1
    to [num_pages], each the base URL followed by the [href] of an element
    the selector matched; a page whose request failed gives none. *)
Theorem harvest_links (listing : Z -> result (list (option string)))
    (num_pages : Z) (links : list string) :
  harvest listing (Z.to_nat num_pages) 1 [] = Ok links ->
  forall u,
    u ∈ links
    <-> exists page hrefs href,
          (1 <= page <= num_pages)%Z
          /\ listing page = Ok hrefs /\ Some href ∈ hrefs
          /\ u = base_url +:+ href.
Proof. apply harvest_Ok_listing. Qed.

Lemma harvest_links_witness :
  "http://www.insecam.org/en/view/2/"
  ∈ [ "http://www.insecam.org/en/view/1/";
      "http://www.insecam.org/en/view/2/";
      "http://www.insecam.org/en/view/3/" ]
  <-> exists page hrefs href,
        (1 <= page <= 2)%Z
        /\ Sample.listing_three page = Ok hrefs /\ Some href ∈ hrefs
        /\ "http://www.insecam.org/en/view/2/" = base_url +:+ href.
Proof.
  apply (harvest_links Sample.listing_three 2). vm_compute. reflexivity.
Defined.

(** X2.  The harvest comes to its end exactly when every page from 1 to
    [num_pages] either fails with a [RequestException], which is handled,
    or has an [href] on every element matched; any other page aborts the
    whole run with its exception. *)
Theorem harvest_succeeds_iff (listing : Z -> result (list (option string)))
    (num_pages : Z) :
  (exists links, harvest listing (Z.to_nat num_pages) 1 [] = Ok links)
  <-> forall page, (1 <= page <= num_pages)%Z -> page_harvestable listing page.
Proof.
  rewrite harvest_Ok_iff. unfold page_harvestable. split.
  - intros H page Hp. destruct (H page) as [l Hl]; [lia|].
    apply get_camera_links_Ok in Hl as [[Hl _]|(hs & Hl & _)]; eauto.
  - intros H page Hp. destruct (H page) as [Hl|[hs Hl]]; [lia| |].
    + exists []. apply get_camera_links_Ok. auto.
    + eexists. apply get_camera_links_Ok. right. eauto.
Qed.

(** ** The detail extractor and the validator *)

(** X3.  [extract_camera_details] returns a record exactly when the page
    is fetched, has a details region, has no image tag or one with a
    source, and the latitude, longitude, country and city read from the
    region are acceptable.  The record holds the camera URL as [page_url],
    the source of the image or the sentinel as [image_url], and the region
    and manufacturer as read, the sentinel when they are missing. *)
Theorem extract_camera_details_iff (float_of_str : string -> option float)
    (fetch : string -> result page) (camera_url : string) (r : camera) :
  extract_camera_details float_of_str fetch camera_url = Some r
  <-> exists details tag lat_float lon_float,
        fetch camera_url = Ok (Page (Some details) tag)
        /\ tag <> Some None
        /\ acceptable float_of_str
             (get_detail details "Latitude:") (get_detail details "Longitude:")
             (get_detail details "Country:") (get_detail details "City:")
             lat_float lon_float
        /\ r = listing_record lat_float lon_float
                 (get_detail details "Country:") (get_detail details "City:")
                 (get_detail details "Region:")
                 (get_detail details "Manufacturer:")
                 (match tag with Some (Some src) => src | _ => "N/A" end)
                 camera_url.
Proof.
  unfold extract_camera_details. split.
  - destruct (fetch camera_url) as [[details tag]|]; [|discriminate].
    destruct details as [details|]; [|discriminate].
    cbn [details_div image_tag].
    destruct tag as [[src|]|]; [|discriminate|];
      intros (la & lo & Hacc & ->)%validate_Some;
      eexists details, _, la, lo;
      (split; [reflexivity|]; split; [discriminate|];
       split; [exact Hacc|reflexivity]).
  - intros (details & tag & la & lo & -> & Htag & Hacc & ->).
    cbn [details_div image_tag].
    destruct tag as [[src|]|]; [|congruence|]; apply validate_Some; eauto.
Qed.

Lemma SFcompare_refl (p : spec_float) :
  p <> S754_nan -> SFcompare p p = Some Eq.
Proof.
  destruct p as [s|s| |s m e]; try congruence; intros _; simpl.
  - reflexivity.
  - destruct s; reflexivity.
  - rewrite Z.compare_refl.
    change (Pos.compare_cont Eq m m) with (Pos.compare m m).
    rewrite Pos.compare_refl. destruct s; reflexivity.
Qed.

Lemma between_finite (lo hi f : float) :
  PrimFloat.is_finite lo = true -> PrimFloat.is_finite hi = true ->
  between lo hi f -> PrimFloat.is_finite f = true.
Proof.
  unfold between, PrimFloat.is_finite, PrimFloat.is_nan, PrimFloat.is_infinity.
  rewrite !FloatAxioms.leb_spec, !FloatAxioms.eqb_spec, !FloatAxioms.abs_spec.
  unfold SFleb, SFeqb.
  destruct (Prim2SF lo) as [sl|sl| |sl ml el], (Prim2SF hi) as [sh|sh| |sh mh eh];
    try (destruct sl; discriminate); try (destruct sh; discriminate);
    try discriminate; intros _ _;
    (destruct (Prim2SF f) as [s|s| |s m e] eqn:Hf;
     [reflexivity
     |destruct s; simpl; intros [H1 H2]; try discriminate;
      try (destruct sl; discriminate); try (destruct sh; discriminate)
     |simpl; intros [H1 H2]; discriminate
     |intros _; rewrite SFcompare_refl by discriminate; reflexivity]).
Qed.

(** X4.  A record the validator accepts has finite coordinates: a string
    that [float] reads as a NaN or as an infinity, as it does ``nan'' and
    ``inf'', is rejected by the comparison with the bounds. *)
Theorem validate_finite (float_of_str : string -> option float)
    (lat lon country city region manufacturer image_url camera_url : string)
    (r : camera) :
  validate float_of_str lat lon country city region manufacturer image_url
    camera_url = Some r ->
  exists lat_float lon_float,
    float_of_str lat = Some lat_float /\ float_of_str lon = Some lon_float
    /\ r !! "latitude" = Some (PFloat lat_float)
    /\ r !! "longitude" = Some (PFloat lon_float)
    /\ PrimFloat.is_finite lat_float = true
    /\ PrimFloat.is_finite lon_float = true.
Proof.
  intros (la & lo & Hacc & ->)%validate_Some.
  destruct Hacc as (_ & _ & _ & _ & Hla & Hlo & Bla & Blo).
  exists la, lo. repeat split; try assumption.
  - apply (between_finite (-90) 90 la); [reflexivity|reflexivity|exact Bla].
  - apply (between_finite (-180) 180 lo); [reflexivity|reflexivity|exact Blo].
Qed.

Lemma validate_finite_witness :
  exists lat_float lon_float,
    Sample.decimal_float "35.6875" = Some lat_float
    /\ Sample.decimal_float "139.75" = Some lon_float
    /\ Sample.record_tokyo !! "latitude" = Some (PFloat lat_float)
    /\ Sample.record_tokyo !! "longitude" = Some (PFloat lon_float)
    /\ PrimFloat.is_finite lat_float = true
    /\ PrimFloat.is_finite lon_float = true.
Proof.
  apply (validate_finite Sample.decimal_float "35.6875" "139.75" "Japan"
           "Tokyo" "Tokyo" "N/A" "http://203.0.113.5:80/cam_1.cgi"
           "http://www.insecam.org/en/view/1/").
  vm_compute. reflexivity.
Defined.

(** ** The result loop of the scraper, round by round *)

Lemma collect_all_snoc (results : list (option camera)) (result : option camera) :
  collect_all (results ++ [result]) = collect (collect_all results) result.
Proof. unfold collect_all. apply fold_left_app. Qed.

Lemma accepted_app (l1 l2 : list (option camera)) :
  accepted (l1 ++ l2) = accepted l1 ++ accepted l2.
Proof. unfold accepted. apply bind_app. Qed.

Lemma accepted_snoc (results : list (option camera)) (result : option camera) :
  accepted (results ++ [result])
  = accepted results
    ++ match result with
       | Some cam => if Py.truthy (PDict cam) then [cam] else []
       | None => []
       end.
Proof.
  rewrite accepted_app, accepted_cons.
  change (accepted []) with (@nil camera). rewrite app_nil_r. reflexivity.
Qed.

Lemma accepted_length_le (results : list (option camera)) :
  length (accepted results) <= length results.
Proof.
  induction results as [|result results IH]; [reflexivity|].
  rewrite accepted_cons, length_app. cbn [length].
  destruct result as [cam|]; [destruct (Py.truthy (PDict cam))|];
    cbn [length]; lia.
Qed.

Lemma collect_all_state (results : list (option camera)) :
  processed_count (collect_all results) = length results
  /\ scraped_count (collect_all results) = length (accepted results)
  /\ camera_data (collect_all results) = accepted results.
Proof.
  induction results as [|result results (IH1 & IH2 & IH3)] using rev_ind.
  - repeat split; reflexivity.
  - rewrite collect_all_snoc, accepted_snoc, !length_app. unfold collect.
    destruct result as [cam|]; [destruct (Py.truthy (PDict cam))|];
      cbn [processed_count scraped_count camera_data length];
      rewrite IH1, IH2, IH3, ?app_nil_r; repeat split; lia.
Qed.

(** X5.  After the result loop the counters agree with the data: the
    processed count is the number of completed tasks, the scraped count is
    the number of records kept, and the records kept are the results that
    are true values, in completion order. *)
Theorem collect_all_counts (results : list (option camera)) :
  processed_count (collect_all results) = length results
  /\ scraped_count (collect_all results)
     = length (camera_data (collect_all results))
  /\ camera_data (collect_all results) = accepted results
  /\ scraped_count (collect_all results) <= processed_count (collect_all results).
Proof.
  destruct (collect_all_state results) as (H1 & H2 & H3).
  rewrite H1, H2, H3. repeat split. apply accepted_length_le.
Qed.

(** X6.  The intermediate saves of the result loop are exactly the first
    100, 200, ... records of the final list: a save is written each time
    the number of records kept reaches a multiple of 100, and it holds all
    the records kept so far. *)
Theorem collect_all_checkpoints (results : list (option camera))
    (saved : list camera) :
  Checkpoint saved ∈ events (collect_all results)
  <-> exists k,
        0 < k /\ 100 * k <= length (accepted results)
        /\ saved = take (100 * k) (accepted results).
Proof.
  induction results as [|result results IH] using rev_ind.
  - split; [intros []%elem_of_nil|]. intros (k & Hk & Hle & _).
    simpl in Hle. lia.
  - destruct (collect_all_state results) as (H1 & H2 & H3).
    rewrite collect_all_snoc, accepted_snoc. unfold collect.
    assert (Hsame :
      Checkpoint saved ∈ events (collect_all results)
      <-> exists k,
            0 < k /\ 100 * k <= length (accepted results ++ [])
            /\ saved = take (100 * k) (accepted results ++ [])).
    { rewrite app_nil_r. exact IH. }
    destruct result as [cam|]; [destruct (Py.truthy (PDict cam))|];
      cbn [events]; try exact Hsame.
    rewrite H2, H3, !elem_of_app, IH, length_app. cbn [length].
    set (n := length (accepted results)).
    split.
    + intros [(k & Hk & Hle & ->)|[Hp|Hs]].
      * exists k. repeat split; [lia..|].
        rewrite take_app_le by (fold n; lia). reflexivity.
      * destruct (_ mod 50 =? 0) in Hp;
          [apply list_elem_of_singleton in Hp; discriminate
          |apply elem_of_nil in Hp as []].
      * destruct (Nat.eqb_spec (S n mod 100) 0) as [Hm|];
          [|apply elem_of_nil in Hs as []].
        apply list_elem_of_singleton in Hs. injection Hs as ->.
        exists (S n / 100). repeat split.
        -- pose proof (Nat.div_mod_eq (S n) 100). lia.
        -- pose proof (Nat.div_mod_eq (S n) 100). lia.
        -- rewrite take_ge; [reflexivity|].
           rewrite length_app. cbn [length]. fold n.
           pose proof (Nat.div_mod_eq (S n) 100). lia.
    + intros (k & Hk & Hle & ->).
      destruct (Nat.eq_dec (100 * k) (n + 1)) as [Heq|Hne].
      * right. right.
        destruct (Nat.eqb_spec (S n mod 100) 0) as [_|Hm].
        -- apply list_elem_of_singleton. f_equal.
           rewrite take_ge; [reflexivity|].
           rewrite length_app. cbn [length]. fold n. lia.
        -- exfalso. apply Hm. replace (S n) with (k * 100) by lia.
           apply Nat.Div0.mod_mul.
      * left. exists k. repeat split; [lia..|].
        rewrite take_app_le by (fold n; lia). reflexivity.
Qed.

(** X7.  The progress reports of the result loop of [scrape_cameras] are
    exactly those of the completions whose number is a multiple of 50 and
    whose task returned a record; each reports the number of completions
    and the number of records kept up to it. *)
Theorem collect_all_progress (results : list (option camera)) (p a : nat) :
  Progress p a ∈ events (collect_all results)
  <-> 0 < p /\ p mod 50 = 0
      /\ (exists cam, results !! (p - 1) = Some (Some cam)
                      /\ Py.truthy (PDict cam) = true)
      /\ a = length (accepted (take p results)).
Proof.
  induction results as [|result results IH] using rev_ind.
  - split; [intros []%elem_of_nil|]. intros (_ & _ & (cam & H & _) & _).
    discriminate.
  - destruct (collect_all_state results) as (H1 & H2 & H3).
    assert (Hold :
      Progress p a ∈ events (collect_all results)
      <-> 0 < p /\ p mod 50 = 0
          /\ (exists cam, (results ++ [result]) !! (p - 1) = Some (Some cam)
                          /\ Py.truthy (PDict cam) = true)
          /\ a = length (accepted (take p (results ++ [result])))
          /\ p <= length results).
    { rewrite IH. split.
      - intros (Hp & Hm & (cam & Hl & Ht) & ->).
        pose proof (lookup_lt_Some _ _ _ Hl) as Hlt.
        repeat split; try assumption; try lia.
        + exists cam. rewrite lookup_app_l by lia. auto.
        + rewrite take_app_le by lia. reflexivity.
      - intros (Hp & Hm & (cam & Hl & Ht) & -> & Hle).
        repeat split; try assumption.
        + exists cam. rewrite lookup_app_l in Hl by lia. auto.
        + rewrite take_app_le by lia. reflexivity. }
    assert (Hlast : forall cam,
      (results ++ [result]) !! (p - 1) = Some (Some cam) ->
      length results < p -> p = S (length results) /\ result = Some cam).
    { intros cam Hl Hlt. pose proof (lookup_lt_Some _ _ _ Hl) as Hb.
      rewrite length_app in Hb. cbn [length] in Hb.
      assert (p = S (length results)) as -> by lia. split; [reflexivity|].
      replace (S (length results) - 1) with (length results + 0) in Hl by lia.
      rewrite lookup_app_r, Nat.add_comm, Nat.add_sub in Hl by lia.
      simpl in Hl. congruence. }
    rewrite collect_all_snoc. unfold collect.
    destruct result as [cam|]; [destruct (Py.truthy (PDict cam)) eqn:Htr|];
      cbn [events].
    + rewrite H1, H2, !elem_of_app, Hold. split.
      * intros [(Hp & Hm & Hc & Ha & _)|[Hin|Hin]]; [auto| |].
        -- destruct (Nat.eqb_spec (S (length results) mod 50) 0) as [Hm|];
             [|apply elem_of_nil in Hin as []].
           apply list_elem_of_singleton in Hin. injection Hin as -> ->.
           repeat split; [lia|exact Hm| |].
           ++ exists cam. split; [|exact Htr].
              replace (S (length results) - 1) with (length results + 0) by lia.
              rewrite lookup_app_r, Nat.add_comm, Nat.add_sub by lia.
              reflexivity.
           ++ rewrite take_ge by (rewrite length_app; cbn [length]; lia).
              rewrite accepted_snoc, Htr, length_app. cbn [length]. lia.
        -- destruct (S (length (accepted results)) mod 100 =? 0);
             [apply list_elem_of_singleton in Hin; discriminate
             |apply elem_of_nil in Hin as []].
      * intros (Hp & Hm & (cam' & Hl & Ht) & ->).
        destruct (Nat.le_gt_cases p (length results)) as [Hle|Hgt].
        -- left. repeat split; eauto.
        -- right. left. destruct (Hlast cam' Hl Hgt) as [-> [= ->]].
           rewrite Hm. cbn [Nat.eqb]. apply list_elem_of_singleton.
           f_equal.
           rewrite take_ge by (rewrite length_app; cbn [length]; lia).
           rewrite accepted_snoc, Htr, length_app. cbn [length]. lia.
    + rewrite Hold. split; [intros (? & ? & ? & ? & _); auto|].
      intros (Hp & Hm & (cam' & Hl & Ht) & ->).
      destruct (Nat.le_gt_cases p (length results)) as [Hle|Hgt];
        [repeat split; eauto|].
      destruct (Hlast cam' Hl Hgt) as [_ [= ->]]. congruence.
    + rewrite Hold. split; [intros (? & ? & ? & ? & _); auto|].
      intros (Hp & Hm & (cam' & Hl & Ht) & ->).
      destruct (Nat.le_gt_cases p (length results)) as [Hle|Hgt];
        [repeat split; eauto|].
      destruct (Hlast cam' Hl Hgt) as [_ [=]].
Qed.

(** ** The discovery run as a whole *)

(** X8.  When no page gives a link, because every request fails or no
    element matches or there is no page at all, [scrape_cameras] does not
    return the empty list.  With a worker count that is not positive the
    pool refuses it and the run ends in [ValueError]; otherwise the
    success rate it computes after the loop divides by the number of
    links, and the run ends in [ZeroDivisionError]. *)
Theorem scrape_cameras_no_links (float_of_str : string -> option float)
    (listing : Z -> result (list (option string)))
    (fetch : string -> result page)
    (as_completed : list string -> list string) (num_pages max_workers : Z) :
  (forall page, (1 <= page <= num_pages)%Z ->
                listing page = Raise RequestException \/ listing page = Ok []) ->
  scrape_cameras float_of_str listing fetch as_completed num_pages max_workers
  = Raise (if (max_workers <=? 0)%Z then ValueError else ZeroDivisionError).
Proof.
  intros Hpages.
  assert (Hok : exists links,
            harvest listing (Z.to_nat num_pages) 1 [] = Ok links).
  { apply harvest_Ok_iff. intros page Hp. exists [].
    apply get_camera_links_Ok.
    destruct (Hpages page) as [H|H]; [lia|auto|].
    right. exists []. auto. }
  destruct Hok as [links Hlinks]. unfold scrape_cameras. rewrite Hlinks.
  assert (links = []) as ->.
  2:{ rewrite list_set_nil. destruct (max_workers <=? 0)%Z; reflexivity. }
  destruct links as [|u links]; [reflexivity|]. exfalso.
  destruct (proj1 (harvest_Ok_listing _ _ _ Hlinks u)) as
    (page & hrefs & href & Hp & Hl & Hin & _); [left|].
  destruct (Hpages page Hp) as [H|H]; rewrite H in Hl; [discriminate|].
  injection Hl as <-. apply elem_of_nil in Hin as [].
Qed.

Lemma scrape_cameras_no_links_witness :
  scrape_cameras Sample.decimal_float (fun _ => Raise RequestException)
    Sample.fetch_tokyo reverse 3 15
  = Raise ZeroDivisionError
  /\ scrape_cameras Sample.decimal_float (fun _ => Raise RequestException)
       Sample.fetch_tokyo reverse 3 0
     = Raise ValueError.
Proof.
  split.
  - apply (scrape_cameras_no_links Sample.decimal_float
             (fun _ => Raise RequestException) Sample.fetch_tokyo reverse 3 15).
    intros page _. left. reflexivity.
  - apply (scrape_cameras_no_links Sample.decimal_float
             (fun _ => Raise RequestException) Sample.fetch_tokyo reverse 3 0).
    intros page _. left. reflexivity.
Defined.

Lemma extract_page_url (float_of_str : string -> option float)
    (fetch : string -> result page) (camera_url : string) (r : camera) :
  extract_camera_details float_of_str fetch camera_url = Some r ->
  r !! "page_url" = Some (PStr camera_url) /\ Py.truthy (PDict r) = true.
Proof.
  intros (details & tag & la & lo & img & _ & _ & ->)%extract_camera_details_Some.
  split; reflexivity.
Qed.

Lemma accepted_page_urls (float_of_str : string -> option float)
    (fetch : string -> result page) (urls : list string) :
  (fun r : camera => r !! "page_url")
    <$> accepted (map (extract_camera_details float_of_str fetch) urls)
  `sublist_of` (fun u => Some (PStr u)) <$> urls.
Proof.
  induction urls as [|u urls IH]; [constructor|].
  cbn [map]. rewrite accepted_cons.
  destruct (extract_camera_details float_of_str fetch u) as [r|] eqn:Hr.
  - destruct (extract_page_url _ _ _ _ Hr) as [Hurl ->].
    cbn [app fmap list_fmap]. rewrite Hurl. apply sublist_skip, IH.
  - cbn [app fmap list_fmap]. apply sublist_cons, IH.
Qed.

(** X9.  No two records of a discovery run have the same [page_url], and
    the [page_url] of every record is a link of one of the listing pages:
    the links pass through a set before the pool, and a record keeps the
    URL its task was given. *)
Theorem scrape_cameras_page_urls (float_of_str : string -> option float)
    (listing : Z -> result (list (option string)))
    (fetch : string -> result page)
    (as_completed : list string -> list string) (num_pages max_workers : Z)
    (records : list camera) :
  (forall l, as_completed l ≡ₚ l) ->
  scrape_cameras float_of_str listing fetch as_completed num_pages max_workers
  = Ok records ->
  NoDup ((fun r : camera => r !! "page_url") <$> records)
  /\ forall r,
       r ∈ records ->
       exists page hrefs href,
         (1 <= page <= num_pages)%Z
         /\ listing page = Ok hrefs /\ Some href ∈ hrefs
         /\ r !! "page_url" = Some (PStr (base_url +:+ href)).
Proof.
  intros Hperm (links & Hlinks & ->)%scrape_cameras_Ok. split.
  - eapply sublist_NoDup; [|apply accepted_page_urls].
    apply NoDup_fmap_2; [intros x y [= ->]; reflexivity|].
    rewrite (Hperm (list_set links)). apply NoDup_list_set.
  - intros r Hr%accepted_elem.
    apply list_elem_of_fmap in Hr as (u & Hr & Hu).
    rewrite (Hperm (list_set links)), elem_of_list_set in Hu.
    apply (harvest_Ok_listing _ _ _ Hlinks) in Hu
      as (page & hrefs & href & Hp & Hl & Hin & ->).
    symmetry in Hr. apply extract_page_url in Hr as [Hr _].
    exists page, hrefs, href. auto.
Qed.

Lemma scrape_cameras_page_urls_witness :
  NoDup ((fun r : camera => r !! "page_url") <$> Sample.records_three)
  /\ forall r,
       r ∈ Sample.records_three ->
       exists page hrefs href,
         (1 <= page <= 1)%Z
         /\ Sample.listing_three page = Ok hrefs /\ Some href ∈ hrefs
         /\ r !! "page_url" = Some (PStr (base_url +:+ href)).
Proof.
  apply (scrape_cameras_page_urls Sample.decimal_float Sample.listing_three
           Sample.fetch_tokyo reverse 1 15).
  - intros l. apply reverse_Permutation.
  - vm_compute. reflexivity.
Defined.

(** X10.  The records of a discovery run do not depend on the order in
    which the pool completes the tasks: two runs over the same listing and
    the same pages return the same records up to their order. *)
Theorem scrape_cameras_order_independent (float_of_str : string -> option float)
    (listing : Z -> result (list (option string)))
    (fetch : string -> result page)
    (as_completed as_completed' : list string -> list string)
    (num_pages max_workers : Z) (records : list camera) :
  (forall l, as_completed l ≡ₚ l) ->
  (forall l, as_completed' l ≡ₚ l) ->
  scrape_cameras float_of_str listing fetch as_completed num_pages max_workers
  = Ok records ->
  exists records',
    scrape_cameras float_of_str listing fetch as_completed' num_pages
      max_workers = Ok records'
    /\ records ≡ₚ records'.
Proof.
  intros Hperm Hperm'. unfold scrape_cameras.
  destruct (harvest listing (Z.to_nat num_pages) 1 []) as [links|];
    [|discriminate].
  destruct (max_workers <=? 0)%Z; [discriminate|].
  destruct (list_set links) as [|u us] eqn:Hset; [discriminate|].
  rewrite <- Hset. intros [= <-]. eexists. split; [reflexivity|].
  unfold collect_all. rewrite !collect_camera_data. cbn [camera_data app].
  unfold accepted. apply bind_Permutation.
  apply Permutation_map.
  rewrite (Hperm (list_set links)), (Hperm' (list_set links)). reflexivity.
Qed.

Lemma scrape_cameras_order_independent_witness :
  exists records',
    scrape_cameras Sample.decimal_float Sample.listing_three Sample.fetch_tokyo
      (fun l => l) 1 15 = Ok records'
    /\ Sample.records_three ≡ₚ records'.
Proof.
  apply (scrape_cameras_order_independent Sample.decimal_float
           Sample.listing_three Sample.fetch_tokyo reverse (fun l => l) 1 15).
  - intros l. apply reverse_Permutation.
  - intros l. reflexivity.
  - vm_compute. reflexivity.
Defined.

(** ** The candidate generator: sizes, ports and repeated paths *)

Lemma replace_go_absent (old new s : string) :
  PyStr.contains old s = false -> PyStr.replace_go old new 0 s = s.
Proof.
  induction s as [|c s IH]; [reflexivity|].
  cbn [PyStr.contains PyStr.replace_go].
  intros [Hp Hc]%orb_false_iff. rewrite Hp, IH by exact Hc. reflexivity.
Qed.

Lemma replace_absent (old new s : string) :
  PyStr.contains old s = false -> PyStr.replace old new s = s.
Proof. apply replace_go_absent. Qed.

(** X11.  [generate_path_variations] returns at most sixteen paths; it
    returns none exactly when the path has none of the six conventions;
    and it draws from the random source only for a path with the
    [COUNTER] placeholder. *)
Theorem generate_path_variations_bounds (base_path : string) (g : rng) :
  length (generate_path_variations base_path g).1 <= 16
  /\ ((generate_path_variations base_path g).1 = []
      <-> recognized base_path = false)
  /\ (PyStr.contains "COUNTER" base_path = false ->
      (generate_path_variations base_path g).2 = g).
Proof.
  unfold generate_path_variations, recognized, rand_bind, rand_ret.
  destruct (PyStr.contains "Resolution=" base_path),
    (PyStr.contains "Quality=" base_path),
    (PyStr.contains "resolution=" base_path),
    (PyStr.contains "cam_1" base_path),
    (PyStr.contains "channel=1" base_path),
    (PyStr.contains "COUNTER" base_path);
    cbn [app map length fst snd orb randint];
    (split; [lia|split; [split; intros; (discriminate || reflexivity)
                        |intros; (discriminate || reflexivity)]]).
Qed.

Lemma stale_in_first_ten (base_path : string) (g : rng) :
  stale_convention base_path = true ->
  base_path ∈ take 10 (generate_path_variations base_path g).1.
Proof.
  unfold generate_path_variations, stale_convention, rand_bind, rand_ret.
  intros H.
  destruct (PyStr.contains "Resolution=" base_path),
    (PyStr.contains "Quality=" base_path),
    (PyStr.contains "resolution=" base_path),
    (PyStr.contains "cam_1" base_path),
    (PyStr.contains "channel=1" base_path),
    (PyStr.contains "COUNTER" base_path);
    cbn [app map fst take andb orb randint] in *; try discriminate H;
    repeat match type of H with
           | (_ || _) = true => apply orb_true_iff in H as [H|H]
           | negb (_ && _) = true =>
               apply negb_true_iff, andb_false_iff in H as [H|H]
           | negb _ = true => apply negb_true_iff in H
           | false = true => discriminate H
           end;
    rewrite ?(replace_absent _ _ _ H);
    repeat first [apply list_elem_of_here | apply list_elem_of_further].
Qed.

(** X12.  The generator can return the seed itself: when the path of the
    seed has a resolution or quality convention with a value the
    variations do not replace, a variation is the path unchanged, and the
    URL of the seed's own host, port and path is among the candidates. *)
Theorem generate_similar_urls_repeats_seed
    (urlparse : string -> result parsed_url) (cam : camera)
    (variations : nat) (g : rng) (base_url : string) (parsed : parsed_url)
    (base_ip : string) (p : option Z) :
  cam !! "image_url" = Some (PStr base_url) -> base_url <> "" ->
  urlparse base_url = Ok parsed ->
  hostname parsed = Some base_ip -> base_ip <> "" ->
  port parsed = Ok p ->
  stale_convention (path parsed) = true ->
  http_url base_ip (port_or_80 p) (path parsed)
  ∈ (generate_similar_urls urlparse cam variations g).1.
Proof.
  intros Hurl Hne Hparse Hhost Hip Hport Hstale.
  unfold generate_similar_urls, Py.get. rewrite Hurl. cbn [default from_option id].
  destruct (String.eqb_spec base_url ""); [contradiction|].
  rewrite Hparse, Hhost.
  destruct (String.eqb_spec base_ip ""); [contradiction|].
  rewrite Hport. unfold rand_bind.
  destruct (address_mutations variations base_ip (port_or_80 p) (path parsed) g)
    as [urls1 g1].
  unfold path_mutations, rand_bind.
  destruct (String.eqb_spec (path parsed) "") as [He|_].
  { rewrite He in Hstale. discriminate Hstale. }
  pose proof (stale_in_first_ten (path parsed) g1 Hstale) as Hin.
  destruct (generate_path_variations (path parsed) g1) as [vs g2].
  cbn [fst rand_ret] in *. apply elem_of_list_set, elem_of_app. right.
  apply list_elem_of_fmap. eauto.
Qed.

Lemma generate_similar_urls_repeats_seed_witness :
  http_url "203.0.113.5" 8000 "/Resolution=320x240/image.jpg"
  ∈ (generate_similar_urls Urllib.urlparse Sample.seed_stale 3 Sample.draws).1.
Proof.
  apply (generate_similar_urls_repeats_seed Urllib.urlparse Sample.seed_stale 3
           Sample.draws "http://203.0.113.5:8000/Resolution=320x240/image.jpg"
           (ParseResult (Some "203.0.113.5") (Ok (Some 8000%Z))
              "/Resolution=320x240/image.jpg")
           "203.0.113.5" (Some 8000%Z)).
  - vm_compute. reflexivity.
  - discriminate.
  - vm_compute. reflexivity.
  - reflexivity.
  - discriminate.
  - reflexivity.
  - vm_compute. reflexivity.
Defined.

Lemma address_round_length (network : Z) (base_ip : string) (base_port : Z)
    (base_path : string) (k : Z) :
  length (address_round network base_ip base_port base_path k)
  <= if (base_port =? 80)%Z then 4 else 1.
Proof.
  unfold address_round. destruct (IPv4.add network k); [|simpl; case_match; lia].
  destruct (String.eqb _ base_ip); [simpl; case_match; lia|].
  destruct (base_port =? 80)%Z; simpl; lia.
Qed.

Lemma address_loop_length (variations : nat) (network : Z) (base_ip : string)
    (base_port : Z) (base_path : string) (urls : list string) (g : rng) :
  length (address_loop variations network base_ip base_port base_path urls g).1
  <= length urls + variations * if (base_port =? 80)%Z then 4 else 1.
Proof.
  revert urls g. induction variations as [|n IH]; intros urls g.
  - simpl. lia.
  - cbn [address_loop]. unfold rand_bind.
    destruct (randint 1 254 g) as [k g'].
    etransitivity; [apply IH|]. rewrite length_app.
    pose proof (address_round_length network base_ip base_port base_path k).
    destruct (base_port =? 80)%Z; lia.
Qed.

Lemma address_mutations_length (variations : nat) (base_ip : string)
    (base_port : Z) (base_path : string) (g : rng) :
  length (address_mutations variations base_ip base_port base_path g).1
  <= variations * if (base_port =? 80)%Z then 4 else 1.
Proof.
  unfold address_mutations. destruct (IPv4.IPv4Address base_ip).
  - etransitivity; [apply address_loop_length|]. simpl. lia.
  - simpl. lia.
Qed.

Lemma path_mutations_length (base_ip : string) (base_port : Z)
    (base_path : string) (g : rng) :
  length (path_mutations base_ip base_port base_path g).1 <= 10.
Proof.
  unfold path_mutations. destruct (String.eqb base_path ""); [simpl; lia|].
  unfold rand_bind. destruct (generate_path_variations base_path g) as [vs g'].
  cbn [fst rand_ret]. rewrite length_map, length_take. lia.
Qed.

Lemma list_set_length (urls : list string) :
  length (list_set urls) <= length urls.
Proof.
  apply submseteq_length, NoDup_submseteq; [apply NoDup_list_set|].
  intros u. apply elem_of_list_set.
Qed.

(** X13.  [generate_similar_urls] returns pairwise different URLs, at most
    four for each of the [variations] draws and ten from the path. *)
Theorem generate_similar_urls_size (urlparse : string -> result parsed_url)
    (cam : camera) (variations : nat) (g : rng) :
  NoDup (generate_similar_urls urlparse cam variations g).1
  /\ length (generate_similar_urls urlparse cam variations g).1
     <= 4 * variations + 10.
Proof.
  unfold generate_similar_urls.
  destruct (Py.get cam "image_url" (PStr "")) as [| | | |base_url| |];
    try (split; [constructor|simpl; lia]).
  destruct (String.eqb base_url ""); [split; [constructor|simpl; lia]|].
  destruct (urlparse base_url) as [parsed|];
    [|rewrite list_set_nil; split; [constructor|simpl; lia]].
  destruct (hostname parsed) as [base_ip|]; [|split; [constructor|simpl; lia]].
  destruct (String.eqb base_ip ""); [split; [constructor|simpl; lia]|].
  destruct (port parsed) as [p|];
    [|rewrite list_set_nil; split; [constructor|simpl; lia]].
  unfold rand_bind.
  pose proof (address_mutations_length variations base_ip (port_or_80 p)
                (path parsed) g) as H1.
  destruct (address_mutations variations base_ip (port_or_80 p) (path parsed) g)
    as [urls1 g1].
  pose proof (path_mutations_length base_ip (port_or_80 p) (path parsed) g1)
    as H2.
  destruct (path_mutations base_ip (port_or_80 p) (path parsed) g1)
    as [urls2 g2].
  cbn [fst rand_ret] in *. split; [apply NoDup_list_set|].
  etransitivity; [apply list_set_length|]. rewrite length_app.
  destruct (port_or_80 p =? 80)%Z; lia.
Qed.

Lemma address_loop_mono (variations : nat) (network : Z) (base_ip : string)
    (base_port : Z) (base_path : string) (urls : list string) (g : rng)
    (v : string) :
  v ∈ urls ->
  v ∈ (address_loop variations network base_ip base_port base_path urls g).1.
Proof.
  revert urls g. induction variations as [|n IH]; intros urls g Hv; [exact Hv|].
  cbn [address_loop]. unfold rand_bind. destruct (randint 1 254 g) as [k g'].
  apply IH, elem_of_app. auto.
Qed.

Lemma address_loop_rounds (variations : nat) (network : Z) (base_ip : string)
    (base_port : Z) (base_path : string) (urls : list string) (g : rng)
    (u : string) :
  u ∈ (address_loop variations network base_ip base_port base_path urls g).1 ->
  u ∈ urls
  \/ exists k,
       (1 <= k <= 254)%Z
       /\ u ∈ address_round network base_ip base_port base_path k
       /\ forall v,
            v ∈ address_round network base_ip base_port base_path k ->
            v ∈ (address_loop variations network base_ip base_port base_path
                   urls g).1.
Proof.
  revert urls g. induction variations as [|n IH]; intros urls g; [auto|].
  cbn [address_loop]. unfold rand_bind.
  destruct (randint 1 254 g) as [k g'] eqn:Hk.
  assert (Hrange : (1 <= k <= 254)%Z).
  { pose proof (randint_range 1 254 g ltac:(lia)) as H.
    rewrite Hk in H. exact H. }
  intros [Hu|Hu]%IH; [|auto].
  apply elem_of_app in Hu as [Hu|Hu]; [auto|]. right.
  exists k. repeat split; try assumption; try lia.
  intros v Hv. apply address_loop_mono, elem_of_app. auto.
Qed.

(** X14.  For a seed on port 80 the address variations come in groups of
    four: every candidate is an address other than the seed's on one of
    the ports 80, 8080, 8081 and 8888, and the same address is a candidate
    on all four. *)
Theorem address_mutations_four_ports (variations : nat) (base_ip : string)
    (base_path : string) (g : rng) (u : string) :
  u ∈ (address_mutations variations base_ip 80 base_path g).1 ->
  exists a,
    IPv4.IPv4Address (IPv4.to_string a) = Some a
    /\ IPv4.to_string a <> base_ip
    /\ (exists port, port ∈ tried_ports
                     /\ u = http_url (IPv4.to_string a) port base_path)
    /\ forall port,
         port ∈ tried_ports ->
         http_url (IPv4.to_string a) port base_path
         ∈ (address_mutations variations base_ip 80 base_path g).1.
Proof.
  unfold address_mutations.
  destruct (IPv4.IPv4Address base_ip) as [ip|]; [|intros []%elem_of_nil].
  intros [[]%elem_of_nil|(k & Hk & Hu & Hall)]%address_loop_rounds.
  revert Hu Hall. unfold address_round, IPv4.add.
  set (a := (IPv4.network_address_24 ip + k)%Z).
  destruct ((0 <=? a)%Z && (a <=? 4294967295)%Z) eqn:Hr;
    [|intros []%elem_of_nil].
  destruct (String.eqb_spec (IPv4.to_string a) base_ip) as [|Hne];
    [intros []%elem_of_nil|].
  cbn [Z.eqb Pos.eqb map]. intros Hu Hall. exists a.
  split; [apply IPv4Facts.IPv4Address_to_string; lia|].
  split; [exact Hne|]. unfold tried_ports. split.
  - rewrite !elem_of_cons, elem_of_nil in Hu.
    destruct Hu as [->|[->|[->|[->|[]]]]]; eexists;
      (split; [|reflexivity]); rewrite !elem_of_cons; auto.
  - intros port Hport. apply Hall.
    rewrite !elem_of_cons, elem_of_nil in Hport.
    destruct Hport as [->|[->|[->|[->|[]]]]]; rewrite !elem_of_cons; auto.
Qed.

Lemma address_mutations_four_ports_witness :
  exists a,
    IPv4.IPv4Address (IPv4.to_string a) = Some a
    /\ IPv4.to_string a <> "203.0.113.5"
    /\ (exists port, port ∈ tried_ports
                     /\ "http://203.0.113.15:8080/cam_1.cgi"
                        = http_url (IPv4.to_string a) port "/cam_1.cgi")
    /\ forall port,
         port ∈ tried_ports ->
         http_url (IPv4.to_string a) port "/cam_1.cgi"
         ∈ (address_mutations 3 "203.0.113.5" 80 "/cam_1.cgi" Sample.draws).1.
Proof.
  apply (address_mutations_four_ports 3 "203.0.113.5" "/cam_1.cgi" Sample.draws).
  apply (bool_decide_unpack _). vm_compute. exact I.
Defined.

(** X15.  For a seed on another port than 80 the address variations stay
    on the seed's port: every candidate is an address on that port, and
    there are at most [variations] of them. *)
Theorem address_mutations_own_port (variations : nat) (base_ip : string)
    (base_port : Z) (base_path : string) (g : rng) :
  base_port <> 80%Z ->
  length (address_mutations variations base_ip base_port base_path g).1
  <= variations
  /\ forall u,
       u ∈ (address_mutations variations base_ip base_port base_path g).1 ->
       exists a,
         IPv4.IPv4Address (IPv4.to_string a) = Some a
         /\ u = http_url (IPv4.to_string a) base_port base_path.
Proof.
  intros Hport. split.
  - pose proof (address_mutations_length variations base_ip base_port
                  base_path g) as H.
    destruct (Z.eqb_spec base_port 80); [contradiction|lia].
  - intros u (ip & a & port & _ & -> & P & _ & _ & _ & _ & [->|[H _]])%address_mutations_elem;
      [eauto|contradiction].
Qed.

Lemma address_mutations_own_port_witness :
  length (address_mutations 3 "203.0.113.5" 8000 "/cam_1.cgi" Sample.draws).1
  <= 3
  /\ forall u,
       u ∈ (address_mutations 3 "203.0.113.5" 8000 "/cam_1.cgi" Sample.draws).1 ->
       exists a,
         IPv4.IPv4Address (IPv4.to_string a) = Some a
         /\ u = http_url (IPv4.to_string a) 8000 "/cam_1.cgi".
Proof.
  apply (address_mutations_own_port 3 "203.0.113.5" 8000 "/cam_1.cgi"
           Sample.draws).
  discriminate.
Defined.

(** ** The geolocation resolver and the probe *)

Ltac resolver_leaf :=
  eexists; first [left; reflexivity | right; reflexivity].

Lemma get_ip_geolocation_log (http_get : string -> result response)
    (ip_address : option string) (log : list string) :
  exists answer,
    get_ip_geolocation http_get ip_address log
    = (Ok answer, log ++ [url_a ip_address])
    \/ get_ip_geolocation http_get ip_address log
       = (Ok answer, (log ++ [url_a ip_address]) ++ [url_b ip_address]).
Proof.
  cbv beta delta [get_ip_geolocation net_try get_ip_geolocation_body net_bind
                  session_get json_object net_lift net_ret].
  destruct (http_get (url_a ip_address)) as [ra|]; [|resolver_leaf].
  destruct (status_code ra =? 200)%Z.
  - destruct (json ra) as [[| | | | | |d]|]; try resolver_leaf.
    destruct (Py.truthy (Py.get d "error" PNone)); [|resolver_leaf].
    cbn [negb].
    destruct (http_get (url_b ip_address)) as [rb|]; [|resolver_leaf].
    destruct (status_code rb =? 200)%Z; [|resolver_leaf].
    destruct (json rb) as [[]|]; try resolver_leaf.
    destruct (Py.eq_str _ _); resolver_leaf.
  - destruct (http_get (url_b ip_address)) as [rb|]; [|resolver_leaf].
    destruct (status_code rb =? 200)%Z; [|resolver_leaf].
    destruct (json rb) as [[]|]; try resolver_leaf.
    destruct (Py.eq_str _ _); resolver_leaf.
Qed.

(** X16.  The resolver never raises, and it makes one or two requests: to
    the first provider, and after it, if at all, to the second. *)
Theorem get_ip_geolocation_requests (http_get : string -> result response)
    (ip_address : option string) (log : list string) :
  exists answer,
    get_ip_geolocation http_get ip_address log
    = (Ok answer, log ++ [url_a ip_address])
    \/ get_ip_geolocation http_get ip_address log
       = (Ok answer, log ++ [url_a ip_address; url_b ip_address]).
Proof.
  destruct (get_ip_geolocation_log http_get ip_address log) as [answer H].
  exists answer. rewrite <- app_assoc in H. exact H.
Qed.

Lemma get_ip_geolocation_Some (http_get : string -> result response)
    (ip_address : option string) (log : list string) (answer : camera) :
  (get_ip_geolocation http_get ip_address log).1 = Ok (Some answer)
  <-> (exists data, a_answers http_get ip_address data
                    /\ answer = answer_a data)
      \/ (a_declines http_get ip_address
          /\ exists data, b_answers http_get ip_address data
                          /\ answer = answer_b data).
Proof.
  unfold a_answers, a_declines, b_answers.
  cbv beta delta [get_ip_geolocation net_try get_ip_geolocation_body net_bind
                  session_get json_object net_lift net_ret].
  destruct (http_get (url_a ip_address)) as [ra|] eqn:Ha.
  2:{ split; [discriminate|].
      intros [(data & (r & [=] & _) & _)|((r & [=] & _) & _)]. }
  assert (Hb :
    match http_get (url_b ip_address) with
    | Ok rb =>
        if (status_code rb =? 200)%Z
        then match json rb with
             | Ok (PDict d) =>
                 if Py.eq_str (Py.get d "status" PNone) "success"
                 then Some (answer_b d) else None
             | _ => None
             end
        else None
    | Raise _ => None
    end = Some answer
    <-> exists data,
          (exists r, http_get (url_b ip_address) = Ok r
                     /\ status_code r = 200%Z /\ json r = Ok (PDict data)
                     /\ Py.eq_str (Py.get data "status" PNone) "success" = true)
          /\ answer = answer_b data).
  { destruct (http_get (url_b ip_address)) as [rb|] eqn:Hrb.
    2:{ split; [discriminate|]. intros (data & (r & [=] & _) & _). }
    destruct (Z.eqb_spec (status_code rb) 200) as [Hs|Hs].
    2:{ split; [discriminate|].
        intros (data & (r & [= <-] & ? & _) & _). contradiction. }
    destruct (json rb) as [[| | | | | |d]|] eqn:Hj;
      try (split; [discriminate|];
           intros (data & (r & [= <-] & _ & Hj' & _) & _); congruence).
    destruct (Py.eq_str (Py.get d "status" PNone) "success") eqn:He.
    - split.
      + intros [= <-]. exists d. split; [exists rb|]; auto.
      + intros (data & (r & [= <-] & _ & Hj' & _) & ->). congruence.
    - split; [discriminate|].
      intros (data & (r & [= <-] & _ & Hj' & He') & _). congruence. }
  destruct (Z.eqb_spec (status_code ra) 200) as [Hs|Hs].
  - destruct (json ra) as [[| | | | | |d]|] eqn:Hj.
    all: try (split; [discriminate|];
              intros [(data & (r & [= <-] & _ & Hj' & _) & _)
                     |((r & [= <-] & [?|(data & Hj' & _)]) & _)];
              congruence).
    destruct (Py.truthy (Py.get d "error" PNone)) eqn:He; cbn [negb].
    + etransitivity; [|split; [intros H; right; split; [|exact H]|]].
      * rewrite <- Hb.
        destruct (http_get (url_b ip_address)) as [rb|]; [|split; discriminate].
        destruct (status_code rb =? 200)%Z; [|split; discriminate].
        destruct (json rb) as [[| | | | | |d']|]; try (split; discriminate).
        destruct (Py.eq_str _ _); [|split; discriminate].
        cbn [fst]. split; intros [= <-]; reflexivity.
      * exists ra. split; [reflexivity|]. right. eauto.
      * intros [(data & (r & [= <-] & _ & Hj' & He') & _)|[_ H]];
          [congruence|exact H].
    + cbn [fst]. split.
      * intros [= <-]. left. exists d. split; [exists ra|]; auto.
      * intros [(data & (r & [= <-] & _ & Hj' & _) & ->)
               |((r & [= <-] & [?|(data & Hj' & He')]) & _)]; congruence.
  - etransitivity; [|split; [intros H; right; split; [|exact H]|]].
    + rewrite <- Hb.
      destruct (http_get (url_b ip_address)) as [rb|]; [|split; discriminate].
      destruct (status_code rb =? 200)%Z; [|split; discriminate].
      destruct (json rb) as [[| | | | | |d']|]; try (split; discriminate).
      destruct (Py.eq_str _ _); [|split; discriminate].
      cbn [fst]. split; intros [= <-]; reflexivity.
    + exists ra. split; [reflexivity|]. left. exact Hs.
    + intros [(data & (r & [= <-] & ? & _) & _)|[_ H]];
        [contradiction|exact H].
Qed.

(** X17.  The resolver returns an answer in two cases only: the first
    provider answers, and the answer is read from its object; or the first
    provider responds without an answer and the second one answers.  A
    request that raises, or a body that is no JSON object, gives no
    answer, whichever provider it comes from. *)
Theorem get_ip_geolocation_answer (http_get : string -> result response)
    (ip_address : option string) (log : list string) (answer : camera) :
  (get_ip_geolocation http_get ip_address log).1 = Ok (Some answer)
  <-> (exists data, a_answers http_get ip_address data
                    /\ answer = answer_a data)
      \/ (a_declines http_get ip_address
          /\ exists data, b_answers http_get ip_address data
                          /\ answer = answer_b data).
Proof. apply get_ip_geolocation_Some. Qed.

(** ** The probe *)

Lemma answer_a_truthy (data : camera) : Py.truthy (PDict (answer_a data)) = true.
Proof.
  cbn [Py.truthy]. apply negb_true_iff, bool_decide_eq_false.
  intros H. apply (f_equal (fun m => m !! "lat")) in H.
  rewrite lookup_empty in H. discriminate.
Qed.

Lemma answer_b_truthy (data : camera) : Py.truthy (PDict (answer_b data)) = true.
Proof.
  cbn [Py.truthy]. apply negb_true_iff, bool_decide_eq_false.
  intros H. apply (f_equal (fun m => m !! "lat")) in H.
  rewrite lookup_empty in H. discriminate.
Qed.

Lemma get_ip_geolocation_truthy (http_get : string -> result response)
    (ip_address : option string) (log : list string) (answer : camera) :
  (get_ip_geolocation http_get ip_address log).1 = Ok (Some answer) ->
  Py.truthy (PDict answer) = true.
Proof.
  intros [(data & _ & ->)|(_ & data & _ & ->)]%get_ip_geolocation_Some;
    [apply answer_a_truthy|apply answer_b_truthy].
Qed.

Lemma get_ip_geolocation_fst (http_get : string -> result response)
    (ip_address : option string) (log log' : list string) :
  (get_ip_geolocation http_get ip_address log).1
  = (get_ip_geolocation http_get ip_address log').1.
Proof.
  destruct (get_ip_geolocation_log http_get ip_address log) as [o Ho].
  assert (H : (get_ip_geolocation http_get ip_address log).1 = Ok o)
    by (destruct Ho as [-> | ->]; reflexivity).
  rewrite H. clear Ho.
  destruct (get_ip_geolocation_log http_get ip_address log') as [o' Ho'].
  assert (H' : (get_ip_geolocation http_get ip_address log').1 = Ok o')
    by (destruct Ho' as [-> | ->]; reflexivity).
  rewrite H'. clear Ho'.
  destruct o as [answer|], o' as [answer'|]; try reflexivity.
  - apply get_ip_geolocation_Some in H, H'.
    apply (proj2 (get_ip_geolocation_Some http_get ip_address log answer')) in H'.
    apply (proj2 (get_ip_geolocation_Some http_get ip_address log answer)) in H.
    congruence.
  - apply get_ip_geolocation_Some in H.
    apply (proj2 (get_ip_geolocation_Some http_get ip_address log' answer)) in H.
    congruence.
  - apply get_ip_geolocation_Some in H'.
    apply (proj2 (get_ip_geolocation_Some http_get ip_address log answer')) in H'.
    congruence.
Qed.

Lemma test_camera_url_Some_iff (urlparse : string -> result parsed_url)
    (lower : string -> string) (http_get : string -> result response)
    (url : string) (log : list string) (r : camera) :
  (test_camera_url urlparse lower http_get url log).1 = Ok (Some r)
  <-> streams lower http_get url = true
      /\ exists parsed p answer,
           urlparse url = Ok parsed /\ port parsed = Ok p
           /\ (get_ip_geolocation http_get (hostname parsed) (log ++ [url])).1
              = Ok (Some answer)
           /\ r = camera_info answer (detect_manufacturer lower url) url
                    (hostname parsed) (port_or_80 p).
Proof.
  unfold streams.
  unfold test_camera_url, net_try, net_bind, session_get, net_lift, net_ret.
  destruct (http_get url) as [response|];
    [|split; [discriminate|intros [[=] _]]].
  destruct (status_code response =? 200)%Z;
    [|split; [discriminate|intros [[=] _]]].
  destruct (existsb _ media_types);
    [|split; [discriminate|intros [[=] _]]].
  cbn [andb].
  destruct (urlparse url) as [parsed|] eqn:Hparse.
  2:{ split; [discriminate|intros (_ & ? & ? & ? & [=] & _)]. }
  destruct (get_ip_geolocation http_get (hostname parsed) (log ++ [url]))
    as [[[geo_info|]|] log'] eqn:Hgeo.
  2,3: split; [discriminate|];
       intros (_ & ? & ? & ? & [= <-] & _ & Hg & _); rewrite Hgeo in Hg;
       discriminate.
  assert (Htr : Py.truthy (PDict geo_info) = true).
  { apply (get_ip_geolocation_truthy http_get (hostname parsed) (log ++ [url])).
    rewrite Hgeo. reflexivity. }
  rewrite Htr.
  destruct (port parsed) as [p|] eqn:Hport.
  - cbn [fst]. split.
    + intros [= <-]. split; [reflexivity|]. exists parsed, p, geo_info.
      rewrite Hgeo. auto.
    + intros (_ & ? & ? & ? & [= <-] & Hp & Hg & ->).
      rewrite Hport in Hp. injection Hp as <-.
      rewrite Hgeo in Hg. injection Hg as <-. reflexivity.
  - split; [discriminate|].
    intros (_ & ? & ? & ? & [= <-] & Hp & _). congruence.
Qed.

(** X18.  The probe returns a record exactly when the candidate answers
    with status 200 and a media content type, the URL parses, its port is
    a number in range, and the resolver has an answer for its host; the
    record is then the one built from that answer.  The test of the answer
    never fails: an answer of the resolver is never empty. *)
Theorem test_camera_url_accepts_iff (urlparse : string -> result parsed_url)
    (lower : string -> string) (http_get : string -> result response)
    (url : string) (log : list string) (r : camera) :
  (test_camera_url urlparse lower http_get url log).1 = Ok (Some r)
  <-> streams lower http_get url = true
      /\ exists parsed p answer,
           urlparse url = Ok parsed /\ port parsed = Ok p
           /\ (get_ip_geolocation http_get (hostname parsed) (log ++ [url])).1
              = Ok (Some answer)
           /\ r = camera_info answer (detect_manufacturer lower url) url
                    (hostname parsed) (port_or_80 p).
Proof. apply test_camera_url_Some_iff. Qed.

(** X19.  The probe never raises.  It requests the candidate first; it
    asks the resolver, with one or two more requests, only for a candidate
    that answered with status 200 and a media content type and whose URL
    parses; otherwise it returns [None] after the one request. *)
Theorem test_camera_url_requests (urlparse : string -> result parsed_url)
    (lower : string -> string) (http_get : string -> result response)
    (url : string) (log : list string) :
  exists o,
    (test_camera_url urlparse lower http_get url log).1 = Ok o
    /\ let log' := (test_camera_url urlparse lower http_get url log).2 in
       (o = None /\ log' = log ++ [url])
       \/ (streams lower http_get url = true
           /\ exists parsed,
                urlparse url = Ok parsed
                /\ (log' = log ++ [url; url_a (hostname parsed)]
                    \/ log' = log ++ [url; url_a (hostname parsed);
                                      url_b (hostname parsed)])).
Proof.
  unfold streams.
  unfold test_camera_url, net_try, net_bind, session_get, net_lift, net_ret.
  destruct (http_get url) as [response|]; [|exists None; split; auto].
  destruct (status_code response =? 200)%Z; [|exists None; split; auto].
  destruct (existsb _ media_types); [|exists None; split; auto].
  cbn [andb].
  destruct (urlparse url) as [parsed|] eqn:Hparse; [|exists None; split; auto].
  destruct (get_ip_geolocation_log http_get (hostname parsed) (log ++ [url]))
    as [answer Hlog].
  rewrite <- !app_assoc in Hlog. cbn [app] in Hlog.
  destruct Hlog as [-> | ->];
    (destruct answer as [geo_info|];
     [destruct (Py.truthy (PDict geo_info));
      [destruct (port parsed) as [p|]|]|]);
    cbn [fst snd]; eexists; (split; [reflexivity|]);
    right; (split; [reflexivity|]); exists parsed; (split; [reflexivity|]);
    auto.
Qed.

Lemma camera_info_dom (geo_info : camera) (manufacturer url : string)
    (ip : option string) (port : Z) :
  dom (camera_info geo_info manufacturer url ip port) = probe_keys.
Proof.
  unfold camera_info, probe_keys.
  rewrite !dom_insert_L, dom_singleton_L. set_solver.
Qed.

(** X20.  A record of the probe has exactly the ten keys of [camera_info];
    its [image_url] is the URL probed; and its five geographic fields are
    the fields of the provider's object as they are, [None] where the
    object has none: the defaults 0 and [Unknown] written in the code are
    never used. *)
Theorem test_camera_url_fields (urlparse : string -> result parsed_url)
    (lower : string -> string) (http_get : string -> result response)
    (url : string) (log : list string) (r : camera) :
  (test_camera_url urlparse lower http_get url log).1 = Ok (Some r) ->
  dom r = probe_keys
  /\ r !! "image_url" = Some (PStr url)
  /\ r !! "manufacturer" = Some (PStr (detect_manufacturer lower url))
  /\ exists parsed data,
       urlparse url = Ok parsed
       /\ ((a_answers http_get (hostname parsed) data
            /\ r !! "latitude" = Some (Py.get data "latitude" PNone)
            /\ r !! "longitude" = Some (Py.get data "longitude" PNone)
            /\ r !! "country" = Some (Py.get data "country_name" PNone)
            /\ r !! "city" = Some (Py.get data "city" PNone)
            /\ r !! "region" = Some (Py.get data "region" PNone))
           \/ (a_declines http_get (hostname parsed)
               /\ b_answers http_get (hostname parsed) data
               /\ r !! "latitude" = Some (Py.get data "lat" PNone)
               /\ r !! "longitude" = Some (Py.get data "lon" PNone)
               /\ r !! "country" = Some (Py.get data "country" PNone)
               /\ r !! "city" = Some (Py.get data "city" PNone)
               /\ r !! "region" = Some (Py.get data "regionName" PNone))).
Proof.
  intros (_ & parsed & p & answer & Hparse & _ & Hgeo & ->)%test_camera_url_Some_iff.
  split; [apply camera_info_dom|].
  split; [reflexivity|]. split; [reflexivity|].
  apply get_ip_geolocation_Some in Hgeo
    as [(data & Ha & ->)|(Hd & data & Hb & ->)];
    exists parsed, data; (split; [exact Hparse|]); [left|right];
    repeat (split; [first [assumption|reflexivity]|]); reflexivity.
Qed.

Lemma test_camera_url_fields_witness :
  dom Sample.record_no_coordinates = probe_keys
  /\ Sample.record_no_coordinates !! "image_url"
     = Some (PStr "http://203.0.113.9:80/cam_1.cgi")
  /\ Sample.record_no_coordinates !! "manufacturer"
     = Some (PStr (detect_manufacturer PyStr.ascii_lower
                     "http://203.0.113.9:80/cam_1.cgi"))
  /\ exists parsed data,
       Urllib.urlparse "http://203.0.113.9:80/cam_1.cgi" = Ok parsed
       /\ ((a_answers Sample.net_no_coordinates (hostname parsed) data
            /\ Sample.record_no_coordinates !! "latitude"
               = Some (Py.get data "latitude" PNone)
            /\ Sample.record_no_coordinates !! "longitude"
               = Some (Py.get data "longitude" PNone)
            /\ Sample.record_no_coordinates !! "country"
               = Some (Py.get data "country_name" PNone)
            /\ Sample.record_no_coordinates !! "city"
               = Some (Py.get data "city" PNone)
            /\ Sample.record_no_coordinates !! "region"
               = Some (Py.get data "region" PNone))
           \/ (a_declines Sample.net_no_coordinates (hostname parsed)
               /\ b_answers Sample.net_no_coordinates (hostname parsed) data
               /\ Sample.record_no_coordinates !! "latitude"
                  = Some (Py.get data "lat" PNone)
               /\ Sample.record_no_coordinates !! "longitude"
                  = Some (Py.get data "lon" PNone)
               /\ Sample.record_no_coordinates !! "country"
                  = Some (Py.get data "country" PNone)
               /\ Sample.record_no_coordinates !! "city"
                  = Some (Py.get data "city" PNone)
               /\ Sample.record_no_coordinates !! "region"
                  = Some (Py.get data "regionName" PNone))).
Proof.
  apply (test_camera_url_fields Urllib.urlparse PyStr.ascii_lower
           Sample.net_no_coordinates "http://203.0.113.9:80/cam_1.cgi" []).
  vm_compute. reflexivity.
Defined.

(** ** The expansion run: what is submitted and what is returned *)

Lemma expansion_loop_take (target : Z) (completed : list (option camera))
    (new_cameras : list camera) (tested_count : nat) (log : list event) :
  let n := Z.to_nat (Z.max 1 target) in
  length new_cameras < n ->
  (expansion_loop target completed new_cameras tested_count log).1
  = take n (new_cameras ++ accepted completed).
Proof.
  intros n. revert new_cameras tested_count log.
  induction completed as [|result completed IH];
    intros new_cameras tested_count log Hlen; cbn [expansion_loop].
  - cbn [fst]. change (accepted []) with (@nil camera).
    rewrite app_nil_r, take_ge by lia. reflexivity.
  - rewrite accepted_cons.
    destruct result as [cam|]; [destruct (Py.truthy (PDict cam))|];
      try (cbn [app]; apply IH; exact Hlen).
    destruct (Z.leb_spec target (Z.of_nat (length (new_cameras ++ [cam]))))
      as [Hstop|Hgo]; rewrite length_app in *; cbn [length] in *.
    + cbn [fst]. rewrite (app_assoc new_cameras [cam]).
      rewrite take_app_le by (rewrite length_app; cbn [length]; lia).
      rewrite take_ge by (rewrite length_app; cbn [length]; lia).
      reflexivity.
    + rewrite (app_assoc new_cameras [cam]). apply IH.
      rewrite length_app. cbn [length]. lia.
Qed.

(** X21.  The loop over the completed probes returns the records of the
    first [target] accepted probes, in completion order, and all of them
    when there are fewer.  The target is tested after a record is added:
    with a target of zero or less the loop still returns the first
    record found. *)
Theorem expansion_loop_first_accepted (target : Z)
    (completed : list (option camera)) :
  (expansion_loop target completed [] 0 []).1
  = take (Z.to_nat (Z.max 1 target)) (accepted completed).
Proof. apply (expansion_loop_take target completed [] 0 []). simpl. lia. Qed.

Lemma group_append_members (country : pyval) (cam : camera)
    (groups : list (pyval * list camera)) :
  group_append country cam groups ≫= snd ≡ₚ (groups ≫= snd) ++ [cam].
Proof.
  induction groups as [|[k cams] groups IH]; cbn [group_append].
  - reflexivity.
  - destruct (Key.eqb k country); cbn [mbind list_bind snd].
    + rewrite <- !app_assoc. apply Permutation_app_head.
      apply Permutation_app_comm.
    + change (list_bind _ _ snd ?l) with (l ≫= snd).
      rewrite IH, app_assoc. reflexivity.
Qed.

Lemma group_by_country_members (cameras : list pyval)
    (groups groups' : list (pyval * list camera)) :
  group_by_country cameras groups = Ok groups' ->
  PDict <$> (groups' ≫= snd) ≡ₚ (PDict <$> (groups ≫= snd)) ++ cameras.
Proof.
  revert groups. induction cameras as [|v cameras IH]; intros groups;
    cbn [group_by_country].
  - intros [= <-]. rewrite app_nil_r. reflexivity.
  - destruct v as [| | | | | |cam]; try discriminate.
    destruct (Key.hashable _); [|discriminate].
    intros H%IH. rewrite H, group_append_members, fmap_app, <- app_assoc.
    reflexivity.
Qed.





Lemma sample_loop_elem (urlparse : string -> result parsed_url) (target : Z)
    (sample_cameras : list camera) (test_urls : list string) (g : rng)
    (u : string) :
  u ∈ (sample_loop urlparse target sample_cameras test_urls g).1 ->
  u ∈ test_urls
  \/ exists cam g',
       cam ∈ sample_cameras
       /\ u ∈ (generate_similar_urls urlparse cam 15 g').1.
Proof.
  revert test_urls g.
  induction sample_cameras as [|cam rest IH]; intros test_urls g;
    cbn [sample_loop]; unfold rand_bind, rand_ret.
  - auto.
  - destruct (generate_similar_urls urlparse cam 15 g) as [variations g1] eqn:Hv.
    assert (Hhere : u ∈ test_urls ++ variations ->
              u ∈ test_urls
              \/ exists cam' g',
                   cam' ∈ cam :: rest
                   /\ u ∈ (generate_similar_urls urlparse cam' 15 g').1).
    { intros [H|H]%elem_of_app; [auto|]. right. exists cam, g.
      rewrite Hv. split; [left|exact H]. }
    destruct (_ <? _)%Z; cbn [fst].
    + exact Hhere.
    + intros [H|(cam' & g' & Hin & H)]%IH; [auto|].
      right. exists cam', g'. split; [right; exact Hin|exact H].
Qed.

Lemma country_loop_elem (urlparse : string -> result parsed_url) (target : Z)
    (groups : list (pyval * list camera)) (test_urls : list string) (g : rng)
    (u : string) :
  u ∈ (country_loop urlparse target groups test_urls g).1 ->
  u ∈ test_urls
  \/ exists cam g',
       cam ∈ groups ≫= snd
       /\ u ∈ (generate_similar_urls urlparse cam 15 g').1.
Proof.
  revert test_urls g.
  induction groups as [|[k cams] groups IH]; intros test_urls g;
    cbn [country_loop]; unfold rand_bind, rand_ret.
  - auto.
  - destruct (sample_loop urlparse target (take 5 cams) test_urls g)
      as [test_urls1 g1] eqn:Hs.
    intros [H|(cam & g' & Hin & H)]%IH.
    + assert (H1 : u ∈ (sample_loop urlparse target (take 5 cams) test_urls g).1)
        by (rewrite Hs; exact H).
      apply sample_loop_elem in H1 as [H1|(cam & g' & Hin & H1)]; [auto|].
      right. exists cam, g'. split; [|exact H1].
      cbn [mbind list_bind snd]. apply elem_of_app. left.
      eapply subseteq_take, Hin.
    + right. exists cam, g'. split; [|exact H].
      cbn [mbind list_bind snd]. apply elem_of_app. right. exact Hin.
Qed.

Lemma submitted_urls_Ok (urlparse : string -> result parsed_url)
    (existing_cameras : list pyval) (target : Z) (g : rng)
    (urls : list string) :
  (submitted_urls urlparse existing_cameras target g).1 = Ok urls ->
  ((0 <= target)%Z -> length urls <= 2 * Z.to_nat target)
  /\ forall u,
       u ∈ urls ->
       exists cam g',
         PDict cam ∈ existing_cameras
         /\ u ∈ (generate_similar_urls urlparse cam 15 g').1.
Proof.
  unfold submitted_urls.
  destruct (group_by_country existing_cameras []) as [groups|] eqn:Hgroups;
    [|discriminate].
  unfold rand_bind.
  destruct (country_loop urlparse target groups [] g) as [test_urls g'] eqn:Hloop.
  destruct (existing_urls existing_cameras) as [values|]; [|discriminate].
  intros [= <-]. split.
  - intros Ht. unfold slice_to.
    destruct (Z.leb_spec 0 (target * 2)); [|lia].
    rewrite length_take. lia.
  - intros u Hu.
    pose proof (slice_to_sublist (target * 2)
                  (filter (fun url => not_existing values url = true)
                          (list_set test_urls))) as Hsub.
    eapply sublist_subseteq in Hsub. apply Hsub in Hu.
    apply list_elem_of_filter in Hu as [_ Hu].
    rewrite elem_of_list_set in Hu.
    assert (H : u ∈ (country_loop urlparse target groups [] g).1)
      by (rewrite Hloop; exact Hu).
    apply country_loop_elem in H as [[]%elem_of_nil|(cam & g1 & Hin & H)].
    exists cam, g1. split; [|exact H].
    apply group_by_country_members in Hgroups.
    cbn [mbind list_bind fmap list_fmap app] in Hgroups.
    rewrite <- Hgroups. apply list_elem_of_fmap. exists cam. auto.
Qed.

(** X22.  The URLs an expansion run submits to the probe are candidates
    the generator gave, with fifteen variations, for a camera of the
    existing set; and for a target that is not negative there are at most
    twice the target of them. *)
Theorem submitted_urls_candidates (urlparse : string -> result parsed_url)
    (existing_cameras : list pyval) (target : Z) (g : rng)
    (urls : list string) :
  (submitted_urls urlparse existing_cameras target g).1 = Ok urls ->
  ((0 <= target)%Z -> length urls <= 2 * Z.to_nat target)
  /\ forall u,
       u ∈ urls ->
       exists cam g',
         PDict cam ∈ existing_cameras
         /\ u ∈ (generate_similar_urls urlparse cam 15 g').1.
Proof. apply submitted_urls_Ok. Qed.

Lemma submitted_urls_candidates_witness :
  ((0 <= 2)%Z ->
   length [ "http://203.0.113.71:8888/cam_1.cgi";
            "http://203.0.113.71:80/cam_1.cgi";
            "http://203.0.113.71:8081/cam_1.cgi";
            "http://203.0.113.71:8080/cam_1.cgi" ] <= 2 * Z.to_nat 2)
  /\ forall u,
       u ∈ [ "http://203.0.113.71:8888/cam_1.cgi";
             "http://203.0.113.71:80/cam_1.cgi";
             "http://203.0.113.71:8081/cam_1.cgi";
             "http://203.0.113.71:8080/cam_1.cgi" ] ->
       exists cam g',
         PDict cam ∈ Sample.existing_pair
         /\ u ∈ (generate_similar_urls Urllib.urlparse cam 15 g').1.
Proof.
  apply (submitted_urls_candidates Urllib.urlparse Sample.existing_pair 2
           Sample.draws).
  vm_compute. reflexivity.
Defined.




Lemma probe_result_image_url (urlparse : string -> result parsed_url)
    (lower : string -> string) (http_get : string -> result response)
    (url : string) (r : camera) :
  probe_result urlparse lower http_get url = Some r ->
  r !! "image_url" = Some (PStr url)
  /\ r !! "source" = Some (PStr "smart_expansion")
  /\ Py.truthy (PDict r) = true.
Proof.
  unfold probe_result.
  destruct (test_camera_url urlparse lower http_get url []).1 as [o|] eqn:Ht;
    [|discriminate].
  intros ->.
  apply test_camera_url_Some_iff in Ht
    as (_ & parsed & p & answer & _ & _ & _ & ->).
  split; [reflexivity|]. split; [reflexivity|].
  cbn [Py.truthy]. apply negb_true_iff, bool_decide_eq_false.
  intros H. apply (f_equal (fun m => m !! "source")) in H.
  rewrite lookup_empty in H. discriminate.
Qed.

Lemma accepted_image_urls (urlparse : string -> result parsed_url)
    (lower : string -> string) (http_get : string -> result response)
    (urls : list string) :
  (fun r : camera => r !! "image_url")
    <$> accepted (map (probe_result urlparse lower http_get) urls)
  `sublist_of` (fun u => Some (PStr u)) <$> urls.
Proof.
  induction urls as [|u urls IH]; [constructor|].
  cbn [map]. rewrite accepted_cons.
  destruct (probe_result urlparse lower http_get u) as [r|] eqn:Hr.
  - destruct (probe_result_image_url _ _ _ _ _ Hr) as (Hurl & _ & ->).
    cbn [app fmap list_fmap]. rewrite Hurl. apply sublist_skip, IH.
  - cbn [app fmap list_fmap]. apply sublist_cons, IH.
Qed.

Lemma submitted_urls_distinct (urlparse : string -> result parsed_url)
    (cameras : list pyval) (target : Z) (g : rng) (urls : list string) :
  (submitted_urls urlparse cameras target g).1 = Ok urls ->
  NoDup urls
  /\ forall u cam, u ∈ urls -> PDict cam ∈ cameras ->
                   cam !! "image_url" <> Some (PStr u).
Proof.
  unfold submitted_urls.
  destruct (group_by_country cameras []) as [groups|]; [|discriminate].
  unfold rand_bind.
  destruct (country_loop urlparse target groups [] g) as [test_urls g1].
  destruct (existing_urls cameras) as [values|] eqn:Hvalues; [|discriminate].
  intros [= <-].
  pose proof (slice_to_sublist (target * 2)
                (filter (fun url => not_existing values url = true)
                        (list_set test_urls))) as Hs.
  split.
  - eapply sublist_NoDup; [|exact Hs].
    apply NoDup_filter, NoDup_list_set.
  - intros u cam Hu Hcam.
    eapply sublist_subseteq in Hs. apply Hs in Hu.
    apply list_elem_of_filter in Hu as [Hnot _].
    eapply not_existing_spec; eauto.
Qed.

(** X24.  An expansion run returns at most [target] records, and at most
    one for a target below one.  No two of them have the same
    [image_url]; the [image_url] of each is a URL the run submitted, which
    no camera of the loaded list has; and each is tagged
    [smart_expansion]. *)
Theorem expand_camera_database_records
    (urlparse : string -> result parsed_url) (lower : string -> string)
    (http_get : string -> result response)
    (as_completed : list string -> list string)
    (file : result pyval) (target max_workers : Z) (g : rng)
    (records : list camera) :
  (forall l, as_completed l ≡ₚ l) ->
  (expand_camera_database urlparse lower http_get as_completed
     file target max_workers g).1 = Ok records ->
  length records <= Z.to_nat (Z.max 1 target)
  /\ NoDup ((fun r : camera => r !! "image_url") <$> records)
  /\ forall r,
       r ∈ records ->
       r !! "source" = Some (PStr "smart_expansion")
       /\ exists u urls cameras,
            load_existing_cameras file = PList cameras
            /\ (submitted_urls urlparse cameras target g).1 = Ok urls
            /\ u ∈ urls
            /\ r !! "image_url" = Some (PStr u)
            /\ forall cam,
                 PDict cam ∈ cameras ->
                 cam !! "image_url" <> Some (PStr u).
Proof.
  intros Hperm. unfold expand_camera_database.
  destruct (negb (Py.truthy (load_existing_cameras file))).
  { intros [= <-]. split; [simpl; lia|]. split; [constructor|].
    intros r []%elem_of_nil. }
  destruct (load_existing_cameras file) as [| | | | |cameras|];
    try discriminate.
  unfold rand_bind.
  destruct (submitted_urls urlparse cameras target g)
    as [[urls|] g'] eqn:Hsub; [|discriminate].
  destruct (max_workers <=? 0)%Z; [discriminate|].
  cbn [rand_ret fst]. intros [= <-].
  rewrite expansion_loop_take by (simpl; lia). cbn [app].
  assert (Hok : (submitted_urls urlparse cameras target g).1 = Ok urls)
    by (rewrite Hsub; reflexivity).
  destruct (submitted_urls_distinct _ _ _ _ _ Hok) as [Hnodup Hnot].
  split; [rewrite length_take; lia|]. split.
  - eapply sublist_NoDup.
    2:{ rewrite fmap_take. etransitivity; [apply sublist_take|].
        apply accepted_image_urls. }
    apply NoDup_fmap_2; [intros x y [= ->]; reflexivity|].
    rewrite (Hperm urls). exact Hnodup.
  - intros r Hr%subseteq_take%accepted_elem.
    apply list_elem_of_fmap in Hr as (u & Hr & Hu).
    rewrite (Hperm urls) in Hu. symmetry in Hr.
    apply probe_result_image_url in Hr as (Hurl & Hsrc & _).
    split; [exact Hsrc|]. exists u, urls, cameras.
    split; [reflexivity|]. split; [exact Hok|]. split; [exact Hu|].
    split; [exact Hurl|].
    intros cam Hcam. apply (Hnot u cam Hu Hcam).
Qed.

Lemma expand_camera_database_records_witness :
  length Sample.records_open <= Z.to_nat (Z.max 1 2)
  /\ NoDup ((fun r : camera => r !! "image_url") <$> Sample.records_open)
  /\ forall r,
       r ∈ Sample.records_open ->
       r !! "source" = Some (PStr "smart_expansion")
       /\ exists u urls cameras,
            load_existing_cameras (Ok (PList Sample.existing_pair))
            = PList cameras
            /\ (submitted_urls Urllib.urlparse cameras 2 Sample.draws).1
               = Ok urls
            /\ u ∈ urls
            /\ r !! "image_url" = Some (PStr u)
            /\ forall cam,
                 PDict cam ∈ cameras ->
                 cam !! "image_url" <> Some (PStr u).
Proof.
  apply (expand_camera_database_records Urllib.urlparse PyStr.ascii_lower
           Sample.net_open reverse (Ok (PList Sample.existing_pair)) 2 15
           Sample.draws).
  - intros l. apply reverse_Permutation.
  - vm_compute. reflexivity.
Defined.

(** ** The pattern analysis *)

Lemma total_incr `{Countable K} (k : K) (d : gmap K nat) :
  Analysis.total (Analysis.incr k d) = S (Analysis.total d).
Proof.
  unfold Analysis.total, Analysis.incr.
  assert (Hcomm : forall (m : gmap K nat) (j1 j2 : K) (z1 z2 y : nat),
            j1 <> j2 -> m !! j1 = Some z1 -> m !! j2 = Some z2 ->
            z1 + (z2 + y) = z2 + (z1 + y)) by (intros; lia).
  destruct (d !! k) as [n|] eqn:Hk; cbn [default from_option id].
  - rewrite <- (insert_delete_eq d k (S n)).
    rewrite map_fold_insert_L;
      [|intros; lia|apply lookup_delete_eq].
    rewrite (map_fold_delete_L _ _ k n d); [lia|intros; lia|exact Hk].
  - rewrite map_fold_insert_L; [lia|intros; lia|exact Hk].
Qed.

Lemma total_keys_incr_key (key : pyval) (d : list (pyval * nat)) :
  Analysis.total_keys (Analysis.incr_key key d) = S (Analysis.total_keys d).
Proof.
  induction d as [|[k n] d IH]; cbn [Analysis.incr_key]; [reflexivity|].
  destruct (Key.eqb k key); unfold Analysis.total_keys in *;
    cbn [foldr snd] in *; lia.
Qed.

Lemma analyze_camera_nested (urlparse : string -> result parsed_url)
    (p : Analysis.patterns) (cam : camera) (n : nat) :
  counts_nested p n -> counts_nested (Analysis.analyze_camera urlparse p cam) (S n).
Proof.
  unfold counts_nested, Analysis.analyze_camera.
  intros (H1 & H2 & H3 & H4 & H5).
  assert (Hstay : counts_nested p (S n))
    by (unfold counts_nested; repeat split; lia).
  unfold counts_nested in Hstay.
  destruct (Py.get cam "image_url" (PStr "")) as [| | | |url| |];
    try exact Hstay.
  destruct (String.eqb url ""); [exact Hstay|].
  destruct (urlparse url) as [parsed|]; [|exact Hstay].
  destruct (hostname parsed) as [ip|]; [|exact Hstay].
  destruct (String.eqb ip ""); [exact Hstay|].
  assert (Hr : Analysis.total
                 match IPv4.IPv4Address ip with
                 | Some ip_obj =>
                     Analysis.incr
                       (IPv4.to_string (IPv4.network_address_24 ip_obj))
                       (Analysis.ip_ranges p)
                 | None => Analysis.ip_ranges p
                 end <= S n)
    by (destruct (IPv4.IPv4Address ip); [rewrite total_incr|]; lia).
  assert (Hu : Analysis.total
                 (if String.eqb (path parsed) "" then Analysis.url_patterns p
                  else Analysis.incr (path parsed) (Analysis.url_patterns p))
               <= S n)
    by (destruct (String.eqb (path parsed) ""); [|rewrite total_incr]; lia).
  destruct (port parsed) as [port|];
    [destruct (Key.hashable (Py.get cam "manufacturer" (PStr "Unknown")));
     [destruct (Key.hashable (Py.get cam "country" (PStr "Unknown")))|]|];
    cbn [Analysis.countries Analysis.manufacturers Analysis.ports
         Analysis.ip_ranges Analysis.url_patterns];
    rewrite ?total_incr, ?total_keys_incr_key; repeat split; lia.
Qed.

Lemma fold_analyze_camera_nested (urlparse : string -> result parsed_url)
    (cameras : list camera) (p : Analysis.patterns) (n : nat) :
  counts_nested p n ->
  counts_nested (fold_left (Analysis.analyze_camera urlparse) cameras p)
    (n + length cameras).
Proof.
  revert p n. induction cameras as [|cam cameras IH]; intros p n Hp;
    cbn [fold_left length].
  - rewrite Nat.add_0_r. exact Hp.
  - replace (n + S (length cameras)) with (S n + length cameras) by lia.
    apply IH, analyze_camera_nested, Hp.
Qed.

(** X25.  The counts of the pattern analysis are nested: a camera counted
    under a country is counted under a manufacturer, one counted under a
    manufacturer is counted under a port, and no dictionary counts more
    than the cameras given. *)
Theorem analyze_camera_patterns_nested (urlparse : string -> result parsed_url)
    (cameras : list camera) :
  let p := Analysis.analyze_camera_patterns urlparse cameras in
  Analysis.total_keys (Analysis.countries p)
  <= Analysis.total_keys (Analysis.manufacturers p)
  /\ Analysis.total_keys (Analysis.manufacturers p)
     <= Analysis.total (Analysis.ports p)
  /\ Analysis.total (Analysis.ports p) <= length cameras
  /\ Analysis.total (Analysis.ip_ranges p) <= length cameras
  /\ Analysis.total (Analysis.url_patterns p) <= length cameras.
Proof.
  apply (fold_analyze_camera_nested urlparse cameras Analysis.no_patterns 0).
  unfold counts_nested. cbn. unfold Analysis.total. rewrite !map_fold_empty.
  lia.
Qed.

Lemma incr_lookup `{Countable K} (k j : K) (d : gmap K nat) (n : nat) :
  Analysis.incr k d !! j = Some n ->
  (j = k /\ 0 < n) \/ d !! j = Some n.
Proof.
  unfold Analysis.incr. destruct (decide (j = k)) as [->|Hne].
  - rewrite lookup_insert_eq. intros [= <-]. left. split; [reflexivity|lia].
  - rewrite lookup_insert_ne by congruence. auto.
Qed.

Lemma well_keyed_mono (urlparse : string -> result parsed_url)
    (seen : list camera) (cam : camera) (p : Analysis.patterns) :
  well_keyed urlparse seen p -> well_keyed urlparse (seen ++ [cam]) p.
Proof.
  intros (Hr & Hu & Hp). split; [|split; assumption].
  intros subnet n (Hn & c & Hc & Hs)%Hr. split; [exact Hn|].
  exists c. split; [apply elem_of_app; left; exact Hc|exact Hs].
Qed.

Lemma analyze_camera_well_keyed (urlparse : string -> result parsed_url)
    (seen : list camera) (p : Analysis.patterns) (cam : camera) :
  well_keyed urlparse seen p ->
  well_keyed urlparse (seen ++ [cam]) (Analysis.analyze_camera urlparse p cam).
Proof.
  intros Hp. pose proof (well_keyed_mono urlparse seen cam p Hp) as Hstay.
  clear Hp. unfold Analysis.analyze_camera.
  destruct (Py.get cam "image_url" (PStr "")) as [| | | |url| |] eqn:Hget;
    try exact Hstay.
  destruct (String.eqb_spec url "") as [|Hne]; [exact Hstay|].
  destruct (urlparse url) as [parsed|] eqn:Hparse; [|exact Hstay].
  destruct (hostname parsed) as [ip|] eqn:Hhost; [|exact Hstay].
  destruct (String.eqb ip ""); [exact Hstay|].
  assert (Hurl : cam !! "image_url" = Some (PStr url)).
  { unfold Py.get in Hget. destruct (cam !! "image_url") as [v|].
    - cbn in Hget. congruence.
    - cbn in Hget. congruence. }
  destruct Hstay as (Hr & Hu & Hp).
  assert (Hr' : forall subnet n,
            match IPv4.IPv4Address ip with
            | Some ip_obj =>
                Analysis.incr (IPv4.to_string (IPv4.network_address_24 ip_obj))
                  (Analysis.ip_ranges p)
            | None => Analysis.ip_ranges p
            end !! subnet = Some n ->
            0 < n /\ exists c, c ∈ seen ++ [cam] /\ subnet_of urlparse c subnet).
  { intros subnet n. destruct (IPv4.IPv4Address ip) as [ip_obj|] eqn:Hip;
      [|apply Hr].
    intros [[-> Hn]|Hd]%incr_lookup; [|apply (Hr _ _ Hd)].
    split; [exact Hn|]. exists cam.
    split; [apply elem_of_app; right; left|].
    exists url, parsed, ip, ip_obj. auto. }
  assert (Hu' : forall path' n,
            (if String.eqb (path parsed) "" then Analysis.url_patterns p
             else Analysis.incr (path parsed) (Analysis.url_patterns p))
            !! path' = Some n ->
            0 < n /\ path' <> "").
  { intros path' n. destruct (String.eqb_spec (path parsed) "") as [|Hpath];
      [apply Hu|].
    intros [[-> Hn]|Hd]%incr_lookup; [auto|apply (Hu _ _ Hd)]. }
  assert (Hp' : forall q port' n,
            Analysis.incr (port_or_80 q) (Analysis.ports p) !! port' = Some n ->
            0 < n /\ port' <> 0%Z).
  { intros q port' n [[-> Hn]|Hd]%incr_lookup; [|apply (Hp _ _ Hd)].
    split; [exact Hn|]. unfold port_or_80.
    destruct q as [z|]; [destruct (Z.eqb_spec z 0)|]; lia. }
  destruct (port parsed) as [q|];
    [destruct (Key.hashable (Py.get cam "manufacturer" (PStr "Unknown")));
     [destruct (Key.hashable (Py.get cam "country" (PStr "Unknown")))|]|];
    (split; [exact Hr'|split; [exact Hu'|]]);
    first [exact (Hp' q)|exact Hp].
Qed.

Lemma fold_analyze_camera_well_keyed (urlparse : string -> result parsed_url)
    (cameras seen : list camera) (p : Analysis.patterns) :
  well_keyed urlparse seen p ->
  well_keyed urlparse (seen ++ cameras)
    (fold_left (Analysis.analyze_camera urlparse) cameras p).
Proof.
  revert seen p. induction cameras as [|cam cameras IH]; intros seen p Hp;
    cbn [fold_left].
  - rewrite app_nil_r. exact Hp.
  - rewrite (cons_middle cam seen cameras), app_assoc.
    apply IH, analyze_camera_well_keyed, Hp.
Qed.

(** X26.  The keys of the pattern analysis: every subnet counted is the
    /24 network address of the host of the media URL of one of the
    cameras; the empty path is never counted; port zero is never counted
    (it is counted as 80); and no count is zero. *)
Theorem analyze_camera_patterns_keys (urlparse : string -> result parsed_url)
    (cameras : list camera) :
  let p := Analysis.analyze_camera_patterns urlparse cameras in
  (forall subnet n,
     Analysis.ip_ranges p !! subnet = Some n ->
     0 < n /\ exists cam, cam ∈ cameras /\ subnet_of urlparse cam subnet)
  /\ (forall path n,
        Analysis.url_patterns p !! path = Some n -> 0 < n /\ path <> "")
  /\ (forall port n,
        Analysis.ports p !! port = Some n -> 0 < n /\ port <> 0%Z).
Proof.
  apply (fold_analyze_camera_well_keyed urlparse cameras [] Analysis.no_patterns).
  split; [|split]; intros k n; cbn; rewrite lookup_empty; discriminate.
Qed.

(** ** The marker colours *)

Lemma color_map_lookup (s c : string) :
  MapGenerator.color_map !! s = Some c ->
  (s, c) ∈ [ ("United States", "red"); ("Russia", "blue");
             ("Germany", "green"); ("Japan", "purple");
             ("United Kingdom", "orange"); ("France", "darkred");
             ("Italy", "lightred"); ("Spain", "beige");
             ("Canada", "darkblue"); ("Australia", "darkgreen") ].
Proof.
  unfold MapGenerator.color_map. intros H.
  do 9 (apply lookup_insert_Some in H; destruct H as [[<- <-]|[_ H]];
        [repeat first [apply list_elem_of_here | apply list_elem_of_further]|]).
  apply lookup_singleton_Some in H as [<- <-].
  repeat first [apply list_elem_of_here | apply list_elem_of_further].
Qed.

(** X27.  The marker colour tells the ten countries of the table apart:
    two country names with the same colour are the same name, or neither
    is in the table and the colour is gray.  Gray is the colour of
    exactly the values that are no name of the table; a list or an object
    as country raises a [TypeError]. *)
Theorem get_marker_color_identifies :
  (forall s t,
     MapGenerator._get_marker_color (PStr s)
     = MapGenerator._get_marker_color (PStr t) ->
     s = t
     \/ (MapGenerator.color_map !! s = None
         /\ MapGenerator.color_map !! t = None))
  /\ (forall v,
        MapGenerator._get_marker_color v = Ok "gray"
        <-> Key.hashable v = true
            /\ forall s, v = PStr s -> MapGenerator.color_map !! s = None)
  /\ (forall v e,
        MapGenerator._get_marker_color v = Raise e
        <-> e = TypeError /\ Key.hashable v = false).
Proof.
  split; [|split].
  - intros s t. cbn [MapGenerator._get_marker_color].
    destruct (MapGenerator.color_map !! s) as [c|] eqn:Hs,
             (MapGenerator.color_map !! t) as [d|] eqn:Ht;
      cbn [default from_option id]; intros Heq.
    + left. injection Heq as <-. apply color_map_lookup in Hs, Ht.
      repeat (apply elem_of_cons in Hs as [[= -> ->]|Hs]);
        [..|apply elem_of_nil in Hs as []];
        repeat (apply elem_of_cons in Ht as [[= ->]|Ht]);
        first [reflexivity | apply elem_of_nil in Ht as []].
    + exfalso. injection Heq as ->. apply color_map_lookup in Hs.
      repeat (apply elem_of_cons in Hs as [[= ->]|Hs]);
        apply elem_of_nil in Hs as [].
    + exfalso. injection Heq as <-. apply color_map_lookup in Ht.
      repeat (apply elem_of_cons in Ht as [[= ->]|Ht]);
        apply elem_of_nil in Ht as [].
    + right. split; reflexivity.
  - intros v. destruct v as [|b|z|f|s|l|d];
      cbn [MapGenerator._get_marker_color Key.hashable];
      try (split; [intros _; split; [reflexivity|intros ? [=]]|reflexivity]);
      try (split; [discriminate|intros [[=] _]]).
    destruct (MapGenerator.color_map !! s) as [c|] eqn:Hs;
      cbn [default from_option id].
    + split.
      * intros [= ->]. exfalso. apply color_map_lookup in Hs.
        repeat (apply elem_of_cons in Hs as [[= ->]|Hs]);
          apply elem_of_nil in Hs as [].
      * intros [_ H]. specialize (H s eq_refl). congruence.
    + split; [|reflexivity]. intros _. split; [reflexivity|].
      intros ? [= <-]. exact Hs.
  - intros v e. destruct v as [|b|z|f|s|l|d];
      cbn [MapGenerator._get_marker_color Key.hashable];
      try (split; [discriminate|intros [_ [=]]]);
      (split; [intros [= <-]; split; reflexivity|intros [-> _]; reflexivity]).
Qed.
